(** * Gemini Modern Terminal: the session controller of [Terminal.tsx]

    A shallow embedding of the terminal component (its React state, the
    event handlers [handleSubmit], [handleKeyDown], [handleFileChange],
    [processCommand] and the streaming handlers) together with the
    properties of the session state machine.

    Conventions of the embedding.
    - A JavaScript string is a [string]; the text handled by the terminal
      is taken to be ASCII, so that [toLowerCase] acts on the letters A-Z
      and [trim] removes the ASCII white space and line terminators.
    - A React state setter applies its update at once, in program order;
      a handler reads the state variables of the render in which it was
      created, which is passed around as the [snap] argument.  The one
      place where the moment of an update shows in the final state is
      [handleSearch], whose updaters read a local variable that changes
      after they were queued: there the queue of React is modelled.
    - What lies outside a handler (the functions of [geminiService.ts],
      the browser's file reader and [fetch], and the moments at which
      React renders during a search) is an oracle, the record [Backend],
      one per submitted command. *)

From Stdlib Require Import Strings.String Strings.Ascii Lists.List Bool.Bool.
From Stdlib Require Import ZArith.ZArith NArith.NArith Arith.PeanoNat Lia.
From Stdlib Require Import Numbers.DecimalString Sorting.Sorted Sorting.Permutation.
Import ListNotations.
Open Scope list_scope.
Open Scope string_scope.

(** ** JavaScript string primitives used by the component *)

Module JS.

Definition LF : ascii := ascii_of_nat 10.
Definition SPACE : ascii := ascii_of_nat 32.
Definition DQ : string := String (ascii_of_nat 34) "".
Definition NL : string := String LF "".

(** White space and line terminators removed by [String.prototype.trim],
    within ASCII: TAB, LF, VT, FF, CR and SPACE. *)
Definition isWhiteSpace (c : ascii) : bool :=
  let n := nat_of_ascii c in
  (Nat.leb 9 n && Nat.leb n 13) || Nat.eqb n 32.

Fixpoint trimStart (s : string) : string :=
  match s with
  | String c s' => if isWhiteSpace c then trimStart s' else s
  | EmptyString => EmptyString
  end.

(** [trimEnd] keeps a character when it is not white space or when
    something is left after it. *)
Fixpoint trimEnd (s : string) : string :=
  match s with
  | EmptyString => EmptyString
  | String c s' =>
      match trimEnd s' with
      | EmptyString => if isWhiteSpace c then EmptyString else String c EmptyString
      | r => String c r
      end
  end.

Definition trim (s : string) : string := trimEnd (trimStart s).

(** [s.split(sep)] for a one-character separator: never empty, the empty
    string gives the list holding the empty string. *)
Fixpoint split (sep : ascii) (s : string) : list string :=
  match s with
  | EmptyString => [EmptyString]
  | String c s' =>
      if Ascii.eqb c sep then EmptyString :: split sep s'
      else match split sep s' with
           | w :: ws => String c w :: ws
           | [] => [String c EmptyString]
           end
  end.

Definition lowerChar (c : ascii) : ascii :=
  let n := nat_of_ascii c in
  if Nat.leb 65 n && Nat.leb n 90 then ascii_of_nat (n + 32) else c.

Fixpoint toLowerCase (s : string) : string :=
  match s with
  | EmptyString => EmptyString
  | String c s' => String (lowerChar c) (toLowerCase s')
  end.

Definition startsWith (s p : string) : bool := String.prefix p s.

Definition join (sep : string) (l : list string) : string := String.concat sep l.

(** Truthiness of a string value: only the empty string is falsy. *)
Definition truthy (s : string) : bool := negb (s =? "").

(** Truthiness of [string | null] and [string | undefined]. *)
Definition truthyOpt (o : option string) : bool :=
  match o with
  | Some s => truthy s
  | None => false
  end.

(** The string held by a [string | null] that was tested truthy. *)
Definition str (o : option string) : string :=
  match o with
  | Some s => s
  | None => EmptyString
  end.

(** [l.filter(Boolean)] on an array of strings. *)
Definition filterBoolean (l : list string) : list string := filter truthy l.

Fixpoint repeatChar (c : ascii) (n : nat) : string :=
  match n with
  | O => EmptyString
  | S k => String c (repeatChar c k)
  end.

Definition padEnd (n : nat) (c : ascii) (s : string) : string :=
  s ++ repeatChar c (n - String.length s).

(** Decimal rendering of a length in a template literal. *)
Definition numberToString (n : nat) : string :=
  NilZero.string_of_uint (Nat.to_uint n).

(** [a[i]] mapped over with its index, as [Array.prototype.map] gives it. *)
Fixpoint mapi_from {A B : Type} (i : nat) (f : A -> nat -> B) (l : list A) : list B :=
  match l with
  | [] => []
  | x :: r => f x i :: mapi_from (S i) f r
  end.

Definition mapi {A B : Type} (f : A -> nat -> B) (l : list A) : list B :=
  mapi_from 0 f l.

End JS.

(** ** [types.ts] *)

Inductive LineType : Type :=
  | COMMAND | OUTPUT | ERROR | SYSTEM | CODE | IMAGE | VIDEO | SOURCES.

Definition LineType_eqb (a b : LineType) : bool :=
  match a, b with
  | COMMAND, COMMAND | OUTPUT, OUTPUT | ERROR, ERROR | SYSTEM, SYSTEM
  | CODE, CODE | IMAGE, IMAGE | VIDEO, VIDEO | SOURCES, SOURCES => true
  | _, _ => false
  end.

Record Source : Type := mkSource { title : string; uri : string }.

(** A value that TypeScript declares a string and that comes out of
    [JSON.parse]: a string, an array of strings, or any other value (a
    number, a boolean, [null], an object, another array), of which the
    component uses the truthiness only. *)
Inductive Json : Type :=
  | JsonString (s : string)
  | JsonStrings (items : list string)
  | JsonOther (truthy : bool).

(** The field [text: string | string[]]; [Other] is a value of another
    type, which a line made from a parsed response can hold. *)
Inductive Text : Type :=
  | Str (s : string)
  | Arr (l : list string)
  | Other.

(** Truthiness of a parsed value, and the value as the text of a line. *)
Definition truthyJson (value : Json) : bool :=
  match value with
  | JsonString s => JS.truthy s
  | JsonStrings _ => true
  | JsonOther truthy => truthy
  end.

Definition textOf (value : Json) : Text :=
  match value with
  | JsonString s => Str s
  | JsonStrings items => Arr items
  | JsonOther _ => Other
  end.

Record Line : Type := mkLine {
  type : LineType;
  text : Text;
  sources : option (list Source)
}.

(** The object literal [{ type, text }]. *)
Definition line (t : LineType) (x : Text) : Line := mkLine t x None.

Definition withText (x : Text) (l : Line) : Line :=
  mkLine (type l) x (sources l).

(** ** [constants.ts] *)

Definition USERNAME : string := "praveen".
Definition HOSTNAME : string := "gemini-os".

Definition COMMANDS : list string :=
  [ "help"; "ask"; "chat"; "search"; "code"; "image"; "editimg"; "video";
    "upload"; "docs"; "chatdoc"; "neofetch"; "date"; "whoami"; "about";
    "clear" ].

Definition PRAVEEN_ASCII : string := "
██████╗░░██████╗░░█████╗░██╗░░░██╗███████╗███████╗███╗░░██╗
██╔══██╗██╔══██╗██╔══██╗██║░░░██║██╔════╝██╔════╝████╗░██║
██████╔╝██████╔╝███████║╚██╗░██╔╝█████╗░░█████╗░░██╔██╗██║
██╔═══╝░██╔══██╗██╔══██║░╚████╔╝░██╔══╝░░██╔══╝░░██║╚████║
██║░░░░░██║░░██║██║░░██║░░╚██╔╝░░███████╗███████╗██║░╚███║
╚═╝░░░░░╚═╝░░╚═╝╚═╝░░╚═╝░░░╚═╝░░░╚══════╝╚══════╝╚═╝░░╚══╝
".

Definition asciiWelcome : list Line :=
  map (fun text => line SYSTEM (Str text)) (JS.split JS.LF (JS.trim PRAVEEN_ASCII)).

Definition WELCOME_LINES : list Line :=
  (asciiWelcome ++
   [ line SYSTEM (Str " ");
     line SYSTEM (Str "Welcome to Gemini Terminal!");
     line SYSTEM (Str " ");
     line SYSTEM (Str "Try typing a command and press Tab for autocompletion.");
     line SYSTEM (Str "Type `help` to see a list of available commands.");
     line SYSTEM (Str "Type `ask <your question>` to talk to the AI for a single response.");
     line SYSTEM (Str "Type `chat` to start a persistent conversation with the AI.");
     line SYSTEM (Str "Type `search <your question>` to get answers on recent events from Google.");
     line SYSTEM (Str "Type `code <your coding question>` to get help from the AI Code Assistant.");
     line SYSTEM (Str "Type `image <your prompt>` to generate an image with AI.");
     line SYSTEM (Str "Type `editimg <your edit instruction>` to modify the last image.");
     line SYSTEM (Str "Type `video <your prompt>` to generate a video with AI.");
     line SYSTEM (Str "Type `upload` to select documents, `docs` to manage them, and `chatdoc` to chat.");
     line SYSTEM (Str "--------------------------------------------------") ])%list.

Definition getCommandDescription (command : string) : string :=
  if command =? "help" then "Shows this help message."
  else if command =? "ask" then "Ask the Gemini AI a single question."
  else if command =? "chat" then "Enter a persistent chat session with the AI."
  else if command =? "search" then "Ask AI with Google Search for up-to-date info."
  else if command =? "code" then "Ask the AI Code Assistant a question."
  else if command =? "image" then "Generate an image using AI."
  else if command =? "editimg" then "Edit the last generated image with a new prompt."
  else if command =? "video" then "Generate a video using AI. (This may take a few minutes)"
  else if command =? "upload" then "Upload a text document (.txt, .md, etc.) to chat with."
  else if command =? "docs" then "Manage documents (use: docs <list|select|clear>)."
  else if command =? "chatdoc" then "Enter a persistent chat session about the active document."
  else if command =? "neofetch" then "Display system information."
  else if command =? "date" then "Display the current date and time."
  else if command =? "whoami" then "Display the current user."
  else if command =? "about" then "Information about this terminal."
  else if command =? "clear" then "Clears the terminal screen."
  else "".

Definition HELP_TEXT : list string :=
  "Available Commands:" ::
  map (fun cmd => "  " ++ JS.padEnd 12 JS.SPACE cmd ++ " - " ++ getCommandDescription cmd)
      COMMANDS.

Definition ABOUT_TEXT : list string :=
  [ "Gemini Modern Terminal v1.0.0";
    "A React and Tailwind CSS project.";
    "Powered by the Google Gemini API." ].

(** The template literal of [NEOFETCH_ASCII], line by line; it starts and
    ends with a line break. *)
Definition NEOFETCH_ASCII : string :=
  JS.join JS.NL
    [ "";
      "        ..,,;;;::;,..";
      "   ..,;''             ''';,..";
      " .,'                      ',.";
      ",'                           ',";
      "/    ,gP" ++ JS.DQ ++ JS.DQ ++ JS.DQ ++ JS.DQ ++ JS.DQ ++ JS.DQ ++ JS.DQ
        ++ JS.DQ ++ JS.DQ ++ "Ybg,           \";
      "|   i' ,d'" ++ JS.DQ ++ "Y'  'Y'" ++ JS.DQ ++ "b, 'i          |";
      "|   d' d'  '  '  'b 'b          |";
      "|   8  8   '  '   8  8          |";
      "|   I, Y,        ,P ,I          |";
      "|   'b, 'b,,,,,,d' ,d'          |";
      "|    'Y, ''YPPY'' ,P'           |";
      "\     'b,      ,d'            /";
      " ',      'YMMMMY'       ,'";
      "  '.                   .'";
      "    ''';,         ,;'''";
      "        ''';;;;'''";
      "" ].

(** ** The document table

    [documents] is a JavaScript object used as a map from file names to
    contents.  Its own properties are kept in the order of their creation.
    [Object.keys] lists the names that are array indices first, in
    ascending numeric order, and then the other names in the order of
    their creation.  Reading [documents[k]] for a name that is no own
    property falls through to [Object.prototype]. *)

Module Documents.

Definition t : Type := list (string * string).

Definition empty : t := [].

Fixpoint own (d : t) (k : string) : option string :=
  match d with
  | [] => None
  | (k', v) :: r => if k' =? k then Some v else own r k
  end.

(** The object literal with a spread and a computed key. *)
Fixpoint set (d : t) (k v : string) : t :=
  match d with
  | [] => [(k, v)]
  | (k', v') :: r => if k' =? k then (k', v) :: r else (k', v') :: set r k v
  end.

(** The names in the order of their creation. *)
Definition names (d : t) : list string := map fst d.

(** An array index is the canonical decimal numeral of an integer below
    [2^32 - 1]: [0], [7], [10], but not [07] nor the empty name. *)
Definition arrayIndex (k : string) : option N :=
  match NilEmpty.uint_of_string k with
  | Some d =>
      let n := N.of_uint d in
      if (NilZero.string_of_uint (N.to_uint n) =? k) && N.ltb n 4294967295
      then Some n else None
  | None => None
  end.

Fixpoint insertIndex (n : N) (k : string) (sorted : list (N * string))
  : list (N * string) :=
  match sorted with
  | [] => [(n, k)]
  | (m, k') :: rest =>
      if N.ltb n m then (n, k) :: sorted else (m, k') :: insertIndex n k rest
  end.

Definition addIndex (sorted : list (N * string)) (k : string) : list (N * string) :=
  match arrayIndex k with
  | Some n => insertIndex n k sorted
  | None => sorted
  end.

(** The names that are array indices, in ascending numeric order. *)
Definition indexKeys (d : t) : list (N * string) := fold_left addIndex (names d) [].

(** The other names, in the order of their creation. *)
Definition stringKeys (d : t) : list string :=
  filter (fun k => match arrayIndex k with Some _ => false | None => true end) (names d).

(** [Object.keys(documents)] *)
Definition keys (d : t) : list string := (map snd (indexKeys d) ++ stringKeys d)%list.

(** The property names every object inherits from [Object.prototype]. *)
Definition objectPrototype : list string :=
  [ "constructor"; "hasOwnProperty"; "isPrototypeOf"; "propertyIsEnumerable";
    "toLocaleString"; "toString"; "valueOf"; "__proto__";
    "__defineGetter__"; "__defineSetter__"; "__lookupGetter__";
    "__lookupSetter__" ].

Inductive Value : Type :=
  | Undefined
  | Content (s : string)
  | Inherited (k : string).

Definition get (d : t) (k : string) : Value :=
  match own d k with
  | Some s => Content s
  | None => if existsb (String.eqb k) objectPrototype then Inherited k else Undefined
  end.

(** Truthiness of the value read: an inherited function or object is
    truthy, a content is truthy unless it is the empty string. *)
Definition truthy (v : Value) : bool :=
  match v with
  | Undefined => false
  | Content s => JS.truthy s
  | Inherited _ => true
  end.

End Documents.

(** ** The backend, as seen from the component *)

(** A thrown value: an [Error] with its message, or anything else. *)
Inductive Exn : Type :=
  | JsError (message : string)
  | JsOther.

(** What an async generator does when it is consumed to its end: the
    fragments it yields, then normal completion or a raised exception. *)
Record Stream (A : Type) : Type := mkStream {
  yielded : list A;
  failure : option Exn
}.
Arguments mkStream {A} _ _.
Arguments yielded {A} _.
Arguments failure {A} _.

Inductive StreamEvent : Type :=
  | EvChunk (text : string)
  | EvSources (sources : list Source).

(** [CodeResponse]: both fields are declared strings, and hold what the
    parsed answer of the model holds. *)
Record CodeResponse : Type := mkCodeResponse {
  explanation : Json;
  code : Json
}.

Record EditedImageResponse : Type := mkEdited {
  image : option string;
  editedText : option string
}.

(** The part of [Operation<any>] the component reads: [done] and
    [response?.generatedVideos?.[0]?.video?.uri]. *)
Record Operation : Type := mkOperation {
  done : bool;
  downloadLink : option string
}.

Inductive VideoStart : Type :=
  | StartFailed (message : string)
  | StartOk (operation : Operation)
  | StartThrows (e : Exn).

Inductive PollOutcome : Type :=
  | PollOk (operation : Operation)
  | PollThrows (e : Exn).

Inductive FetchOutcome : Type :=
  | FetchOk (objectUrl : string)
  | FetchThrows (e : Exn).

Record Backend : Type := mkBackend {
  askGeminiStream : string -> Stream string;
  sendChatMessageStream : string -> Stream string;
  sendChatDocMessageStream : string -> Stream string;
  searchWithGoogleStream : string -> Stream StreamEvent;
  generateCode : string -> CodeResponse;
  generateImage : string -> string;
  editImage : string -> string -> EditedImageResponse;
  generateVideo : string -> VideoStart;
  (** the answers of the successive calls of [getVideosOperation] *)
  getVideosOperation : list PollOutcome;
  (** [fetch], [blob] and [URL.createObjectURL] on the download link *)
  fetchVideo : string -> FetchOutcome;
  API_KEY : string;
  (** [new Date().toString()] and [React.version] *)
  dateNow : string;
  reactVersion : string;
  (** React during a search: whether it applies the queued updates after
      the first, the second, ... event of the stream, before the next
      event is consumed; it does not once the list is used up, and it
      applies what is left when the handler has ended *)
  renders : list bool
}.

(** The calls that leave the component, logged in the order they are made. *)
Inductive Call : Type :=
  | CallAskGeminiStream (prompt : string)
  | CallStartChat
  | CallSendChatMessageStream (message : string)
  | CallSearchWithGoogleStream (prompt : string)
  | CallGenerateCode (prompt : string)
  | CallGenerateImage (prompt : string)
  | CallEditImage (base64ImageData prompt : string)
  | CallGenerateVideo (prompt : string)
  | CallGetVideosOperation (operation : Operation)
  | CallFetch (url : string)
  | CallStartChatDoc (documentContent : Documents.Value)
  | CallSendChatDocMessageStream (message : string)
  | CallFileInputClick
  | CallReadAsText (name : string).

(** ** The state of the [Terminal] component

    One field per [useState] hook that the handlers read or write; [calls]
    is the log of the calls made so far. *)

Record State : Type := mkState {
  lines : list Line;
  commandHistory : list string;
  historyIndex : Z;
  inputValue : string;
  suggestions : list string;
  isLoading : bool;
  isChatMode : bool;
  isChatDocMode : bool;
  isListening : bool;
  documents : Documents.t;
  activeDoc : option string;
  lastImage : option string;
  calls : list Call
}.

(** The state setters. *)

Definition setLines (f : list Line -> list Line) (st : State) : State :=
  {| lines := f (lines st);
     commandHistory := commandHistory st;
     historyIndex := historyIndex st;
     inputValue := inputValue st;
     suggestions := suggestions st;
     isLoading := isLoading st;
     isChatMode := isChatMode st;
     isChatDocMode := isChatDocMode st;
     isListening := isListening st;
     documents := documents st;
     activeDoc := activeDoc st;
     lastImage := lastImage st;
     calls := calls st |}.

Definition setCommandHistory (f : list string -> list string) (st : State) : State :=
  {| lines := lines st;
     commandHistory := f (commandHistory st);
     historyIndex := historyIndex st;
     inputValue := inputValue st;
     suggestions := suggestions st;
     isLoading := isLoading st;
     isChatMode := isChatMode st;
     isChatDocMode := isChatDocMode st;
     isListening := isListening st;
     documents := documents st;
     activeDoc := activeDoc st;
     lastImage := lastImage st;
     calls := calls st |}.

Definition setHistoryIndex (v : Z) (st : State) : State :=
  {| lines := lines st;
     commandHistory := commandHistory st;
     historyIndex := v;
     inputValue := inputValue st;
     suggestions := suggestions st;
     isLoading := isLoading st;
     isChatMode := isChatMode st;
     isChatDocMode := isChatDocMode st;
     isListening := isListening st;
     documents := documents st;
     activeDoc := activeDoc st;
     lastImage := lastImage st;
     calls := calls st |}.

Definition setInputValue (v : string) (st : State) : State :=
  {| lines := lines st;
     commandHistory := commandHistory st;
     historyIndex := historyIndex st;
     inputValue := v;
     suggestions := suggestions st;
     isLoading := isLoading st;
     isChatMode := isChatMode st;
     isChatDocMode := isChatDocMode st;
     isListening := isListening st;
     documents := documents st;
     activeDoc := activeDoc st;
     lastImage := lastImage st;
     calls := calls st |}.

Definition setSuggestions (v : list string) (st : State) : State :=
  {| lines := lines st;
     commandHistory := commandHistory st;
     historyIndex := historyIndex st;
     inputValue := inputValue st;
     suggestions := v;
     isLoading := isLoading st;
     isChatMode := isChatMode st;
     isChatDocMode := isChatDocMode st;
     isListening := isListening st;
     documents := documents st;
     activeDoc := activeDoc st;
     lastImage := lastImage st;
     calls := calls st |}.

Definition setIsLoading (v : bool) (st : State) : State :=
  {| lines := lines st;
     commandHistory := commandHistory st;
     historyIndex := historyIndex st;
     inputValue := inputValue st;
     suggestions := suggestions st;
     isLoading := v;
     isChatMode := isChatMode st;
     isChatDocMode := isChatDocMode st;
     isListening := isListening st;
     documents := documents st;
     activeDoc := activeDoc st;
     lastImage := lastImage st;
     calls := calls st |}.

Definition setIsChatMode (v : bool) (st : State) : State :=
  {| lines := lines st;
     commandHistory := commandHistory st;
     historyIndex := historyIndex st;
     inputValue := inputValue st;
     suggestions := suggestions st;
     isLoading := isLoading st;
     isChatMode := v;
     isChatDocMode := isChatDocMode st;
     isListening := isListening st;
     documents := documents st;
     activeDoc := activeDoc st;
     lastImage := lastImage st;
     calls := calls st |}.

Definition setIsChatDocMode (v : bool) (st : State) : State :=
  {| lines := lines st;
     commandHistory := commandHistory st;
     historyIndex := historyIndex st;
     inputValue := inputValue st;
     suggestions := suggestions st;
     isLoading := isLoading st;
     isChatMode := isChatMode st;
     isChatDocMode := v;
     isListening := isListening st;
     documents := documents st;
     activeDoc := activeDoc st;
     lastImage := lastImage st;
     calls := calls st |}.

Definition setIsListening (v : bool) (st : State) : State :=
  {| lines := lines st;
     commandHistory := commandHistory st;
     historyIndex := historyIndex st;
     inputValue := inputValue st;
     suggestions := suggestions st;
     isLoading := isLoading st;
     isChatMode := isChatMode st;
     isChatDocMode := isChatDocMode st;
     isListening := v;
     documents := documents st;
     activeDoc := activeDoc st;
     lastImage := lastImage st;
     calls := calls st |}.

Definition setDocuments (f : Documents.t -> Documents.t) (st : State) : State :=
  {| lines := lines st;
     commandHistory := commandHistory st;
     historyIndex := historyIndex st;
     inputValue := inputValue st;
     suggestions := suggestions st;
     isLoading := isLoading st;
     isChatMode := isChatMode st;
     isChatDocMode := isChatDocMode st;
     isListening := isListening st;
     documents := f (documents st);
     activeDoc := activeDoc st;
     lastImage := lastImage st;
     calls := calls st |}.

Definition setActiveDoc (v : option string) (st : State) : State :=
  {| lines := lines st;
     commandHistory := commandHistory st;
     historyIndex := historyIndex st;
     inputValue := inputValue st;
     suggestions := suggestions st;
     isLoading := isLoading st;
     isChatMode := isChatMode st;
     isChatDocMode := isChatDocMode st;
     isListening := isListening st;
     documents := documents st;
     activeDoc := v;
     lastImage := lastImage st;
     calls := calls st |}.

Definition setLastImage (v : option string) (st : State) : State :=
  {| lines := lines st;
     commandHistory := commandHistory st;
     historyIndex := historyIndex st;
     inputValue := inputValue st;
     suggestions := suggestions st;
     isLoading := isLoading st;
     isChatMode := isChatMode st;
     isChatDocMode := isChatDocMode st;
     isListening := isListening st;
     documents := documents st;
     activeDoc := activeDoc st;
     lastImage := v;
     calls := calls st |}.

(** Logging a call. *)
Definition logCall (c : Call) (st : State) : State :=
  {| lines := lines st;
     commandHistory := commandHistory st;
     historyIndex := historyIndex st;
     inputValue := inputValue st;
     suggestions := suggestions st;
     isLoading := isLoading st;
     isChatMode := isChatMode st;
     isChatDocMode := isChatDocMode st;
     isListening := isListening st;
     documents := documents st;
     activeDoc := activeDoc st;
     lastImage := lastImage st;
     calls := (calls st ++ [c])%list |}.

Definition initialState : State :=
  {| lines := WELCOME_LINES;
     commandHistory := [];
     historyIndex := (-1)%Z;
     inputValue := "";
     suggestions := [];
     isLoading := false;
     isChatMode := false;
     isChatDocMode := false;
     isListening := false;
     documents := Documents.empty;
     activeDoc := None;
     lastImage := None;
     calls := [] |}.

(** ** Handlers: state passing with exceptions

    An async handler run to its end either returns, or rejects with a
    thrown value, or is still waiting for an answer that the backend has
    not given ([Pending]). *)

Inductive Outcome (A : Type) : Type :=
  | Returned (a : A)
  | Raised (e : Exn)
  | Pending.
Arguments Returned {A} _.
Arguments Raised {A} _.
Arguments Pending {A}.

Definition Async (A : Type) : Type := State -> Outcome A * State.

Definition ret {A : Type} (a : A) : Async A := fun st => (Returned a, st).

Definition bind {A B : Type} (m : Async A) (k : A -> Async B) : Async B :=
  fun st =>
    match m st with
    | (Returned a, st') => k a st'
    | (Raised e, st') => (Raised e, st')
    | (Pending, st') => (Pending, st')
    end.

Definition throw {A : Type} (e : Exn) : Async A := fun st => (Raised e, st).

Definition pending {A : Type} : Async A := fun st => (Pending, st).

(** A state setter, or a logged call, as a step of a handler. *)
Definition act (f : State -> State) : Async unit := fun st => (Returned tt, f st).

(** [try { body } catch (error) { handler }] *)
Definition tryCatch {A : Type} (body : Async A) (handler : Exn -> Async A) : Async A :=
  fun st =>
    match body st with
    | (Raised e, st') => handler e st'
    | r => r
    end.

(** [try { body } finally { fin }]: [fin] runs when [body] returns or
    throws, and an exception of [fin] replaces the outcome of [body]. *)
Definition tryFinally {A : Type} (body : Async A) (fin : Async unit) : Async A :=
  fun st =>
    match body st with
    | (Pending, st') => (Pending, st')
    | (o, st') =>
        match fin st' with
        | (Returned _, st'') => (o, st'')
        | (Raised e, st'') => (Raised e, st'')
        | (Pending, st'') => (Pending, st'')
        end
    end.

Declare Scope async_scope.
Delimit Scope async_scope with async.
Bind Scope async_scope with Async.
Notation "x <- m ;; k" := (bind m (fun x => k))
  (at level 61, m at next level, right associativity) : async_scope.
Notation "m ;; k" := (bind m (fun _ => k))
  (at level 61, right associativity) : async_scope.
Open Scope async_scope.

(** ** Updates of the line buffer *)

(** [[...prev, l]] *)
Definition push (l : Line) (prev : list Line) : list Line := (prev ++ [l])%list.

(** [newLines[newLines.length - 1]] updated in place in a copy of the
    array.  Every caller has appended a line before, so the array is not
    empty (on an empty array the source would fail on [undefined]). *)
Fixpoint mutateLast (f : Line -> Line) (newLines : list Line) : list Line :=
  match newLines with
  | [] => []
  | [lastLine] => [f lastLine]
  | l :: r => l :: mutateLast f r
  end.

(** [if (lastLine.type === LineType.OUTPUT) lastLine.text = x] *)
Definition setTextIfOutput (x : Text) (lastLine : Line) : Line :=
  if LineType_eqb (type lastLine) OUTPUT then withText x lastLine else lastLine.

(** ** The streaming handlers *)

(** The loop [for await (const chunk of stream)] of [handleAsk],
    [handleChat] and [handleChatDocConversation]: the local variable
    [streamedText] grows by each fragment and is written to the last line.
    The loop gives back the final value of [streamedText]. *)
Fixpoint forAwaitChunks (chunks : list string) (streamedText : string) (st : State)
  : string * State :=
  match chunks with
  | [] => (streamedText, st)
  | chunk :: rest =>
      let streamedText := streamedText ++ chunk in
      let st := setLines (mutateLast (withText (Str streamedText))) st in
      forAwaitChunks rest streamedText st
  end.

(** How the consumption of a stream ends. *)
Definition completion {A : Type} (s : Stream A) : Outcome unit :=
  match failure s with
  | None => Returned tt
  | Some e => Raised e
  end.

(** The body shared, word for word, by the three handlers: the busy flag,
    the placeholder line, the loop, and the [finally] block, which runs on
    both ways out of the loop. *)
Definition streamResponse (call : Call) (stream : Stream string) : Async unit :=
  fun st =>
    let st := setIsLoading true st in
    let st := setLines (push (line OUTPUT (Str ""))) st in
    let st := logCall call st in
    let '(streamedText, st) := forAwaitChunks (yielded stream) "" st in
    let st := setLines (mutateLast (withText (Arr (JS.split JS.LF streamedText)))) st in
    let st := setIsLoading false st in
    (completion stream, st).

Definition handleChat (b : Backend) (message : string) : Async unit :=
  if JS.toLowerCase message =? "exit" then
    act (setIsChatMode false) ;;
    act (setLines (push (line SYSTEM (Str "Exited chat mode."))))
  else
    streamResponse (CallSendChatMessageStream message) (sendChatMessageStream b message).

Definition handleChatDocConversation (b : Backend) (message : string) : Async unit :=
  if JS.toLowerCase message =? "exit" then
    act (setIsChatDocMode false) ;;
    act (setLines (push (line SYSTEM (Str "Exited document chat mode."))))
  else
    streamResponse (CallSendChatDocMessageStream message)
      (sendChatDocMessageStream b message).

Definition handleAsk (b : Backend) (prompt : string) : Async unit :=
  streamResponse (CallAskGeminiStream prompt) (askGeminiStream b prompt).

(** *** [handleSearch] and the queue of React

    The updaters that [handleSearch] passes to [setLines] close over the
    local variable [streamedText] and read it when React runs them, which
    is when it next renders: after later events were consumed, when these
    come back to back.  An updater is therefore a function of the value
    the variable has when it is run. *)
Definition Updater : Type := string -> list Line -> list Line.

(** The updater queued for a chunk event. *)
Definition chunkUpdater : Updater :=
  fun streamedText => mutateLast (setTextIfOutput (Str streamedText)).

(** The updater queued for a sources event. *)
Definition sourcesUpdater (sources : list Source) : Updater :=
  fun streamedText prev =>
    let newLines :=
      mutateLast (setTextIfOutput (Arr (JS.split JS.LF streamedText))) prev in
    (newLines ++ [mkLine SOURCES (Str "") (Some sources)])%list.

(** The updater queued by the [finally] block. *)
Definition finalUpdater : Updater :=
  fun streamedText => mutateLast (setTextIfOutput (Arr (JS.split JS.LF streamedText))).

(** React runs the queued updaters, in the order they were queued. *)
Definition flush (queue : list Updater) (streamedText : string) : State -> State :=
  setLines (fun prev =>
    fold_left (fun newLines updater => updater streamedText newLines) queue prev).

(** The loop of [handleSearch] over the tagged events: each event changes
    the local variable and queues its updater; [renders] tells whether
    React renders before the next event is consumed.  The loop gives back
    the final value of [streamedText] and the updaters still queued. *)
Fixpoint forAwaitEvents (events : list StreamEvent) (renders : list bool)
  (streamedText : string) (queue : list Updater) (st : State)
  : string * list Updater * State :=
  match events with
  | [] => (streamedText, queue, st)
  | event :: rest =>
      let streamedText :=
        match event with
        | EvChunk text => streamedText ++ text
        | EvSources _ => streamedText
        end in
      let queue :=
        (queue ++ [match event with
                   | EvChunk _ => chunkUpdater
                   | EvSources sources => sourcesUpdater sources
                   end])%list in
      if hd false renders
      then forAwaitEvents rest (tl renders) streamedText [] (flush queue streamedText st)
      else forAwaitEvents rest (tl renders) streamedText queue st
  end.

(** The placeholder line is pushed by an updater that reads no variable
    and is the first of the queue: it is applied at once.  The state
    given back is the one React has rendered after the handler ended. *)
Definition handleSearch (b : Backend) (prompt : string) : Async unit :=
  fun st =>
    let st := setIsLoading true st in
    let st := setLines (push (line OUTPUT (Str ""))) st in
    let st := logCall (CallSearchWithGoogleStream prompt) st in
    let stream := searchWithGoogleStream b prompt in
    let '(streamedText, queue, st) :=
      forAwaitEvents (yielded stream) (renders b) "" [] st in
    let st := flush (queue ++ [finalUpdater])%list streamedText st in
    let st := setIsLoading false st in
    (completion stream, st).

(** ** [handleFileChange] *)

Module File.

(** What [FileReader.readAsText] ends with: [onload] or [onerror]. *)
Inductive ReadOutcome : Type :=
  | ReadOk (content : string)
  | ReadFailed (error : string).

(** The selected file: its name, its reported MIME type ([None] when it
    is undefined) and what reading it as text gives. *)
Record t : Type := mk {
  name : string;
  type : option string;
  read : ReadOutcome
}.

End File.

(** [file.type && !file.type.startsWith('text/')] *)
Definition mimeGuard (file : File.t) : bool :=
  match File.type file with
  | Some type => JS.truthy type && negb (JS.startsWith type "text/")
  | None => false
  end.

(** The type as the template literal prints it. *)
Definition typeText (file : File.t) : string :=
  match File.type file with
  | Some type => type
  | None => "undefined"
  end.

(** The handler with the reader's callback run to its end; [snap] is the
    state of the render that created the handler. *)
Definition handleFileChange (snap : State) (selected : option File.t) : Async unit :=
  match selected with
  | Some file =>
      if mimeGuard file then
        act (setLines (push (line ERROR (Str
          ("Error: Cannot upload file of type '" ++ typeText file
           ++ "'. Please select a text file.")))))
      else
        act (logCall (CallReadAsText (File.name file))) ;;
        match File.read file with
        | File.ReadOk content =>
            act (setDocuments (fun prev => Documents.set prev (File.name file) content)) ;;
            (if negb (JS.truthyOpt (activeDoc snap))
             then act (setActiveDoc (Some (File.name file)))
             else ret tt) ;;
            let successMessage :=
              "Successfully loaded '" ++ File.name file ++ "' ("
              ++ JS.numberToString (String.length content) ++ " characters)." in
            let usageMessage :=
              "Use `docs list` to see all files or `chatdoc` to start a conversation." in
            act (setLines (fun prev =>
              (prev ++ [line SYSTEM (Str successMessage); line SYSTEM (Str usageMessage)])%list))
        | File.ReadFailed error =>
            act (setLines (push (line ERROR (Str ("Error reading file: " ++ error)))))
        end
  | None => ret tt
  end.

(** ** [processCommand] *)

(** [commandStr.trim().split(' ').filter(Boolean)] *)
Definition tokens (commandStr : string) : list string :=
  JS.filterBoolean (JS.split JS.SPACE (JS.trim commandStr)).

(** The cases of [switch (command.toLowerCase())]. *)
Inductive CommandCase : Type :=
  | case_help | case_clear | case_chat | case_ask | case_search | case_code
  | case_image | case_editimg | case_video | case_upload | case_docs
  | case_chatdoc | case_date | case_whoami | case_about | case_neofetch
  | case_default.

Definition switchOn (lowered : string) : CommandCase :=
  if lowered =? "help" then case_help
  else if lowered =? "clear" then case_clear
  else if lowered =? "chat" then case_chat
  else if lowered =? "ask" then case_ask
  else if lowered =? "search" then case_search
  else if lowered =? "code" then case_code
  else if lowered =? "image" then case_image
  else if lowered =? "editimg" then case_editimg
  else if lowered =? "video" then case_video
  else if lowered =? "upload" then case_upload
  else if lowered =? "docs" then case_docs
  else if lowered =? "chatdoc" then case_chatdoc
  else if lowered =? "date" then case_date
  else if lowered =? "whoami" then case_whoami
  else if lowered =? "about" then case_about
  else if lowered =? "neofetch" then case_neofetch
  else case_default.

(** How a case of the switch ends: [break] with the lines pushed on
    [outputLines], which are appended after the switch, or [return]. *)
Inductive Exit : Type :=
  | Break (outputLines : list Line)
  | Return.

Definition pollMessages : list string :=
  [ "Still processing... The AI is animating the frames.";
    "Still processing... Polishing the final cut.";
    "Still processing... This is taking longer than usual, but we're still on it!" ].

(** [pollMessages[Math.min(pollCount, pollMessages.length - 1)]] *)
Definition pollMessage (pollCount : nat) : string :=
  nth (Nat.min pollCount (List.length pollMessages - 1)) pollMessages "".

(** The loop [while (!operation.done)]: one answer of the backend is used
    by each turn; when the answers run out before the operation is done,
    the handler is left waiting. *)
Fixpoint pollLoop (answers : list PollOutcome) (operation : Operation) (pollCount : nat)
  : Async Operation :=
  if done operation then ret operation
  else
    act (setLines (push (line SYSTEM (Str (pollMessage pollCount))))) ;;
    act (logCall (CallGetVideosOperation operation)) ;;
    match answers with
    | [] => pending
    | PollThrows e :: _ => throw e
    | PollOk operation' :: rest => pollLoop rest operation' (S pollCount)
    end.

(** The message of the [catch] block. *)
Definition errorMessage (error : Exn) : string :=
  match error with
  | JsError message => message
  | JsOther => "An unknown error occurred during video generation."
  end.

Definition videoCommand (b : Backend) (prompt : string) : Async Exit :=
  if negb (JS.truthy prompt) then
    act (setLines (push (line ERROR (Str "Usage: video <a description of the video>")))) ;;
    ret Return
  else
    act (setIsLoading true) ;;
    act (setLines (fun prev =>
      (prev ++ [ line SYSTEM (Str ("Kicking off video generation for: " ++ JS.DQ ++ prompt ++ JS.DQ));
                 line SYSTEM (Str "This can take a few minutes. Status will be checked periodically.") ])%list)) ;;
    tryFinally
      (tryCatch
         (act (logCall (CallGenerateVideo prompt)) ;;
          match generateVideo b prompt with
          | StartThrows e => throw e
          | StartFailed operationResult =>
              act (setLines (push (line ERROR (Str operationResult)))) ;;
              act (setIsLoading false)
          | StartOk operationResult =>
              operation <- pollLoop (getVideosOperation b) operationResult 0 ;;
              if JS.truthyOpt (downloadLink operation) then
                act (setLines (push (line SYSTEM (Str
                  "Video generated! Downloading and preparing for playback...")))) ;;
                let url := JS.str (downloadLink operation) ++ "&key=" ++ API_KEY b in
                act (logCall (CallFetch url)) ;;
                match fetchVideo b url with
                | FetchOk objectUrl =>
                    act (setLines (push (line VIDEO (Arr [objectUrl; prompt]))))
                | FetchThrows e => throw e
                end
              else
                act (setLines (push (line ERROR (Str
                  "Video generation finished, but no video was returned. Please try a different prompt."))))
          end)
         (fun error =>
            act (setLines (push (line ERROR (Str ("Error: " ++ errorMessage error)))))))
      (act (setIsLoading false)) ;;
    ret Return.

(** The inner [switch (subCommand)] of the [docs] command. *)
Definition docsCommand (snap : State) (args : list string) : Async Exit :=
  match nth_error args 0 with
  | Some subCommand =>
      if subCommand =? "list" then
        let docKeys := Documents.keys (documents snap) in
        if Nat.eqb (List.length docKeys) 0 then
          ret (Break [line OUTPUT (Str "No documents uploaded.")])
        else
          let docList :=
            map (fun name =>
                   "  " ++ (match activeDoc snap with
                            | Some active => if name =? active then "*" else " "
                            | None => " "
                            end) ++ " " ++ name) docKeys in
          ret (Break [line OUTPUT (Str "Uploaded documents:"); line OUTPUT (Arr docList)])
      else if subCommand =? "select" then
        match nth_error args 1 with
        | None => ret (Break [line ERROR (Str "Usage: docs select <filename>")])
        | Some docToSelect =>
            if negb (JS.truthy docToSelect) then
              ret (Break [line ERROR (Str "Usage: docs select <filename>")])
            else if Documents.truthy (Documents.get (documents snap) docToSelect) then
              act (setActiveDoc (Some docToSelect)) ;;
              ret (Break [line SYSTEM (Str ("Active document set to '" ++ docToSelect ++ "'."))])
            else
              ret (Break [line ERROR (Str ("Document '" ++ docToSelect ++ "' not found."))])
        end
      else if subCommand =? "clear" then
        act (setDocuments (fun _ => Documents.empty)) ;;
        act (setActiveDoc None) ;;
        ret (Break [line SYSTEM (Str "All documents cleared.")])
      else
        ret (Break [line ERROR (Str "Usage: docs <list|select|clear>")])
  | None => ret (Break [line ERROR (Str "Usage: docs <list|select|clear>")])
  end.

Definition neofetchLines (b : Backend) : list string :=
  JS.mapi (fun line index =>
      if Nat.eqb index 2 then line ++ "    " ++ USERNAME ++ "@" ++ HOSTNAME
      else if Nat.eqb index 3 then line ++ "    -----------------"
      else if Nat.eqb index 4 then line ++ "    OS: Gemini Web Terminal"
      else if Nat.eqb index 5 then line ++ "    Kernel: React " ++ reactVersion b
      else if Nat.eqb index 6 then line ++ "    Shell: TypeScript"
      else if Nat.eqb index 7 then line ++ "    Theme: DarkModern"
      else line)
    (JS.split JS.LF NEOFETCH_ASCII).

(** The switch of [processCommand] on the command token and its
    arguments.  [snap] holds the values of [documents], [activeDoc],
    [isChatMode], [isChatDocMode] and [lastImage] that the callback
    closes over. *)
Definition dispatch (snap : State) (b : Backend) (command : string) (args : list string)
  : Async Exit :=
  match switchOn (JS.toLowerCase command) with
  | case_help => ret (Break [line OUTPUT (Arr HELP_TEXT)])
  | case_clear => act (setLines (fun _ => [])) ;; ret Return
  | case_chat =>
      if isChatDocMode snap then
        ret (Break [line ERROR (Str "Already in document chat mode. Type `exit` to leave first.")])
      else
        act (setIsChatMode true) ;;
        act (logCall CallStartChat) ;;
        ret (Break [line SYSTEM (Str "Entered chat mode. Type 'exit' to leave.")])
  | case_ask =>
      let prompt := JS.join " " args in
      if negb (JS.truthy prompt) then
        act (setLines (fun prev =>
          (prev ++ [line ERROR (Str "Usage: ask <your question>")])%list)) ;;
        ret Return
      else
        handleAsk b prompt ;; ret Return
  | case_search =>
      let prompt := JS.join " " args in
      if negb (JS.truthy prompt) then
        act (setLines (fun prev =>
          (prev ++ [line ERROR (Str "Usage: search <your question>")])%list)) ;;
        ret Return
      else
        handleSearch b prompt ;; ret Return
  | case_code =>
      let prompt := JS.join " " args in
      if negb (JS.truthy prompt) then
        ret (Break [line ERROR (Str "Usage: code <your coding question>")])
      else
        act (setIsLoading true) ;;
        act (logCall (CallGenerateCode prompt)) ;;
        let aiResponse := generateCode b prompt in
        explanationLines <-
          (if truthyJson (explanation aiResponse) then
             match explanation aiResponse with
             | JsonString s => ret [line OUTPUT (Arr (JS.split JS.LF s))]
             | _ => throw (JsError "aiResponse.explanation.split is not a function")
             end
           else ret []) ;;
        let codeLines :=
          if truthyJson (code aiResponse)
          then [line CODE (textOf (code aiResponse))] else [] in
        act (setIsLoading false) ;;
        ret (Break (explanationLines ++ codeLines)%list)
  | case_image =>
      let prompt := JS.join " " args in
      if negb (JS.truthy prompt) then
        ret (Break [line ERROR (Str "Usage: image <a description of the image>")])
      else
        act (setIsLoading true) ;;
        act (logCall (CallGenerateImage prompt)) ;;
        let base64Image := generateImage b prompt in
        if JS.startsWith base64Image "Error:" then
          act (setIsLoading false) ;;
          ret (Break [line ERROR (Str base64Image)])
        else
          act (setLastImage (Some base64Image)) ;;
          act (setIsLoading false) ;;
          ret (Break [line IMAGE (Arr [base64Image; prompt])])
  | case_editimg =>
      let prompt := JS.join " " args in
      if negb (JS.truthy prompt) then
        ret (Break [line ERROR (Str "Usage: editimg <your edit instruction>")])
      else if negb (JS.truthyOpt (lastImage snap)) then
        ret (Break [line ERROR (Str
          "No image to edit. Use the `image` command to generate one first.")])
      else
        act (setIsLoading true) ;;
        act (logCall (CallEditImage (JS.str (lastImage snap)) prompt)) ;;
        let response := editImage b (JS.str (lastImage snap)) prompt in
        let textLines :=
          if JS.truthyOpt (editedText response)
          then [line OUTPUT (Arr (JS.split JS.LF (JS.str (editedText response))))]
          else [] in
        if JS.truthyOpt (image response) then
          act (setLastImage (image response)) ;;
          act (setIsLoading false) ;;
          ret (Break (textLines
            ++ [line IMAGE (Arr [JS.str (image response); prompt])])%list)
        else if negb (JS.truthyOpt (editedText response)) then
          act (setIsLoading false) ;;
          ret (Break (textLines
            ++ [line ERROR (Str "The AI did not return a valid response.")])%list)
        else
          act (setIsLoading false) ;;
          ret (Break textLines)
  | case_video => videoCommand b (JS.join " " args)
  | case_upload => act (logCall CallFileInputClick) ;; ret (Break [])
  | case_docs => docsCommand snap args
  | case_chatdoc =>
      if isChatMode snap then
        ret (Break [line ERROR (Str "Already in regular chat mode. Type `exit` to leave first.")])
      else if negb (JS.truthyOpt (activeDoc snap)) then
        ret (Break [line ERROR (Str
          "No active document. Use `docs select <filename>` or `upload` a new file.")])
      else if Nat.ltb 0 (List.length args) then
        ret (Break [line ERROR (Str
          "Usage: type `chatdoc` and press Enter to start a conversation.")])
      else
        let active := JS.str (activeDoc snap) in
        act (logCall (CallStartChatDoc (Documents.get (documents snap) active))) ;;
        act (setIsChatDocMode true) ;;
        ret (Break [line SYSTEM (Str
          ("Entered chat mode for '" ++ active ++ "'. Type 'exit' to leave."))])
  | case_date => ret (Break [line OUTPUT (Str (dateNow b))])
  | case_whoami => ret (Break [line OUTPUT (Str USERNAME)])
  | case_about => ret (Break [line OUTPUT (Arr ABOUT_TEXT)])
  | case_neofetch => ret (Break [line OUTPUT (Arr (neofetchLines b))])
  | case_default => ret (Break [line ERROR (Str ("command not found: " ++ command))])
  end.

Definition processCommand (snap : State) (b : Backend) (commandStr : string) : Async unit :=
  match tokens commandStr with
  | [] => act (setLines (fun prev => prev))
  | command :: args =>
      exit <- dispatch snap b command args ;;
      match exit with
      | Break outputLines => act (setLines (fun prev => (prev ++ outputLines)%list))
      | Return => ret tt
      end
  end.

(** ** [handleSubmit], [handleInputChange] and [handleKeyDown] *)

Definition handleSubmit (snap : State) (b : Backend) : Async unit :=
  (if Nat.ltb 0 (List.length (suggestions snap)) then act (setSuggestions []) else ret tt) ;;
  if isLoading snap || isListening snap then ret tt
  else
    let command := JS.trim (inputValue snap) in
    let lineType := if isChatMode snap || isChatDocMode snap then SYSTEM else COMMAND in
    act (setLines (push (line lineType (Str command)))) ;;
    if negb (JS.truthy command) && (isChatMode snap || isChatDocMode snap) then ret tt
    else if negb (JS.truthy command) then act (setInputValue "")
    else
      (if isChatMode snap then handleChat b command
       else if isChatDocMode snap then handleChatDocConversation b command
       else
         act (setCommandHistory (fun prev => command :: prev)) ;;
         act (setHistoryIndex (-1)%Z) ;;
         processCommand snap b command) ;;
      act (setInputValue "").

Definition handleInputChange (snap : State) (value : string) : Async unit :=
  act (setInputValue value) ;;
  if Nat.ltb 0 (List.length (suggestions snap)) then act (setSuggestions []) else ret tt.

(** [commandHistory[newIndex]]; both uses are guarded so that the index
    lies in the array (lemma [historyIndex_in_range]). *)
Definition historyAt (commandHistory : list string) (newIndex : Z) : string :=
  nth (Z.to_nat newIndex) commandHistory "".

Definition handleKeyDown (snap : State) (key : string) : Async unit :=
  let inAnyChatMode := isChatMode snap || isChatDocMode snap in
  if (key =? "ArrowUp") && negb inAnyChatMode then
    if (historyIndex snap <? Z.of_nat (List.length (commandHistory snap)) - 1)%Z then
      let newIndex := (historyIndex snap + 1)%Z in
      act (setHistoryIndex newIndex) ;;
      act (setInputValue (historyAt (commandHistory snap) newIndex))
    else ret tt
  else if (key =? "ArrowDown") && negb inAnyChatMode then
    if (0 <? historyIndex snap)%Z then
      let newIndex := (historyIndex snap - 1)%Z in
      act (setHistoryIndex newIndex) ;;
      act (setInputValue (historyAt (commandHistory snap) newIndex))
    else
      act (setHistoryIndex (-1)%Z) ;;
      act (setInputValue "")
  else if (key =? "Tab") && negb inAnyChatMode then
    let currentInput := hd "" (JS.split JS.SPACE (JS.trim (inputValue snap))) in
    if negb (JS.truthy currentInput) then ret tt
    else
      let matches := filter (fun cmd => JS.startsWith cmd currentInput) COMMANDS in
      if Nat.eqb (List.length matches) 1 then
        act (setInputValue (hd "" matches ++ " ")) ;;
        act (setSuggestions [])
      else if Nat.ltb 1 (List.length matches) then
        act (setSuggestions matches)
      else ret tt
  else ret tt.

(** ** Speech recognition callbacks *)

Definition handleToggleListening (snap : State) : Async unit :=
  if isListening snap then ret tt else act (setInputValue "").

Definition recognitionOnError (error : string) : Async unit :=
  let errorText :=
    if (error =? "not-allowed") || (error =? "service-not-allowed") then
      "Microphone access denied. Please allow microphone permissions in your browser settings to use this feature."
    else "Speech recognition error: " ++ error ++ ". Please try again." in
  act (setLines (push (line ERROR (Str errorText)))).

(** ** The session as a transition system *)

Inductive Event : Type :=
  | Submit (b : Backend)
  | InputChange (value : string)
  | KeyDown (key : string)
  | FileChange (selected : option File.t)
  | ToggleListening
  | RecognitionStart
  | RecognitionEnd
  | RecognitionError (error : string)
  | RecognitionResult (transcript : string).

(** The handler of an event, created by the render of the state it is
    run in. *)
Definition handler (e : Event) (snap : State) : Async unit :=
  match e with
  | Submit b => handleSubmit snap b
  | InputChange value => handleInputChange snap value
  | KeyDown key => handleKeyDown snap key
  | FileChange selected => handleFileChange snap selected
  | ToggleListening => handleToggleListening snap
  | RecognitionStart => act (setIsListening true)
  | RecognitionEnd => act (setIsListening false)
  | RecognitionError error => recognitionOnError error
  | RecognitionResult transcript => act (setInputValue transcript)
  end.

(** One event: the state after its handler has run; a rejection of the
    handler is not observed by the component. *)
Definition step (st : State) (e : Event) : State := snd (handler e st st).

Definition run (events : list Event) (st : State) : State := fold_left step events st.

(** Typing a text in the input field and submitting it. *)
Definition submit (value : string) (b : Backend) : list Event :=
  [InputChange value; Submit b].

(** * [geminiService.ts]

    The module between the component and the SDK.  What lies outside it
    is an oracle, [Env]: the environment variable, the answers of the SDK
    to each request, [JSON.parse], and the browser and React for what the
    component reads by itself.  The module keeps two sessions in module
    variables, [Sessions].  An exception of the SDK is an [Exn]: [JsError]
    when [error instanceof Error] holds.  The text of a chunk or of a
    response may be [undefined], and a parsed answer holds any value
    under its keys. *)

Module Service.

Inductive Try (A : Type) : Type :=
  | Ok (a : A)
  | Throws (e : Exn).
Arguments Ok {A} _.
Arguments Throws {A} _.

(** [c.web] of a grounding chunk; [undefined] fields are [None]. *)
Module Web.
Record t : Type := mk { uri : option string; title : option string }.
End Web.

(** A chunk of a streamed response: [chunk.text], which is [undefined]
    for a chunk without text, and
    [chunk.candidates?.[0]?.groundingMetadata?.groundingChunks] with the
    [web] of each grounding chunk. *)
Module Chunk.
Record t : Type := mk {
  text : option string;
  groundingChunks : option (list (option Web.t))
}.
End Chunk.

(** A part of a response: [part.text] and [part.inlineData] with its
    [data]. *)
Module Part.
Record t : Type := mk {
  text : option string;
  inlineData : option (option string)
}.
End Part.

(** A response of [generateContent]: [response.text] and what reading
    [response.candidates[0].content.parts] gives. *)
Module Response.
Record t : Type := mk {
  text : option string;
  parts : Try (list Part.t)
}.
End Response.

(** The two keys read from a parsed response; a key that is missing, or
    a parsed value that is no object, reads [undefined]. *)
Module Parsed.
Record t : Type := mk { explanation : option Json; code : option Json }.
End Parsed.

Record StreamRequest : Type := mkStreamRequest {
  model : string;
  contents : string;
  systemInstruction : option string;
  googleSearch : bool
}.

Inductive ContentRequest : Type :=
  | CodeRequest (model contents systemInstruction : string)
  | EditRequest (model data mimeType text : string).

(** A session made by [ai.chats.create]: a plain one has a system
    instruction, one about a document is primed with its content. *)
Record Chat : Type := mkChat {
  chatModel : string;
  chatSystemInstruction : option string;
  documentContent : option Documents.Value
}.

Record Env : Type := mkEnv {
  (** [process.env.API_KEY] *)
  API_KEY : option string;
  (** [ai.models] *)
  generateContentStream : StreamRequest -> Stream Chunk.t;
  generateContent : ContentRequest -> Try Response.t;
  (** [response.generatedImages] with the [image.imageBytes] of each *)
  generateImages : string -> string -> Try (option (list string));
  generateVideos : string -> string -> Try Operation;
  (** the answers of the successive calls of [ai.operations.getVideosOperation] *)
  operations_getVideosOperation : list PollOutcome;
  (** [chat.sendMessageStream] *)
  sendMessageStream : Chat -> string -> Stream Chunk.t;
  (** [JSON.parse] followed by the reading of the two keys; [None] when
      one of them throws *)
  JSON_parse : string -> option Parsed.t;
  (** the browser: [fetch] with the blob turned into an object URL,
      [new Date().toString()], [React.version], and the renders of React
      during a search *)
  fetchVideo : string -> FetchOutcome;
  dateNow : string;
  reactVersion : string;
  renders : list bool
}.

Definition CHAT_SYSTEM_INSTRUCTION : string :=
  "You are a helpful assistant running inside a web-based terminal. Keep your answers concise and use simple formatting (line breaks, indentation) suitable for a monospace terminal output. Do not use Markdown formatting like bolding or italics.".

Definition CODE_SYSTEM_INSTRUCTION : string :=
  "You are an expert code assistant. Your purpose is to provide code snippets, explanations, and solutions to programming questions. Structure your response as a JSON object with two keys: " ++ JS.DQ ++ "explanation" ++ JS.DQ ++ " (a string explaining the code) and " ++ JS.DQ ++ "code" ++ JS.DQ ++ " (a string containing only the raw code).".

(** The message of every function that finds no key. *)
Definition notConfigured : string :=
  "Error: API_KEY is not configured. The application owner needs to set the `process.env.API_KEY` environment variable.".

(** The chunk yielded by the [catch] block of the generators. *)
Definition apiError (error : Exn) : string :=
  match error with
  | JsError message => "Gemini API Error: " ++ message
  | JsOther => "An unknown error occurred while contacting the Gemini API."
  end.

(** An event of the search stream as the module yields it, with
    [chunk.text] as it is. *)
Inductive Event : Type :=
  | YieldChunk (text : option string)
  | YieldSources (sources : list Source).

(** The chunk yielded by the [catch] block. *)
Definition caughtChunk (error : Exn) : option string := Some (apiError error).

(** [try { for await (const chunk of responseStream) yield f(chunk) }
     catch (error) { yield g(error) }] *)
Definition tryYield {A : Type} (each : Chunk.t -> list A) (caught : Exn -> A)
  (responseStream : Stream Chunk.t) : Stream A :=
  mkStream
    (flat_map each (yielded responseStream)
     ++ match failure responseStream with
        | Some error => [caught error]
        | None => []
        end)%list
    None.

Definition askGeminiStream (env : Env) (prompt : string) : Stream (option string) :=
  if negb (JS.truthyOpt (API_KEY env)) then mkStream [Some notConfigured] None
  else
    tryYield (fun chunk => [Chunk.text chunk]) caughtChunk
      (generateContentStream env
         (mkStreamRequest "gemini-2.5-flash" prompt (Some CHAT_SYSTEM_INSTRUCTION) false)).

(** [.map(c => c.web).filter(source => !!source?.uri && !!source.title)] *)
Definition webSources (groundingChunks : list (option Web.t)) : list Source :=
  flat_map (fun web =>
    match web with
    | Some source =>
        if JS.truthyOpt (Web.uri source) && JS.truthyOpt (Web.title source)
        then [mkSource (JS.str (Web.title source)) (JS.str (Web.uri source))]
        else []
    | None => []
    end) groundingChunks.

(** What one chunk of a search makes the generator yield. *)
Definition searchEvents (chunk : Chunk.t) : list Event :=
  YieldChunk (Chunk.text chunk) ::
  match Chunk.groundingChunks chunk with
  | Some groundingChunks =>
      let sources := webSources groundingChunks in
      if Nat.ltb 0 (List.length sources) then [YieldSources sources] else []
  | None => []
  end.

Definition searchWithGoogleStream (env : Env) (prompt : string) : Stream Event :=
  if negb (JS.truthyOpt (API_KEY env)) then mkStream [YieldChunk (Some notConfigured)] None
  else
    tryYield searchEvents (fun error => YieldChunk (caughtChunk error))
      (generateContentStream env (mkStreamRequest "gemini-2.5-flash" prompt None true)).

(** [value || ""]: the value itself when it is truthy, whatever its
    type. *)
Definition orEmpty (value : option Json) : Json :=
  match value with
  | Some value => if truthyJson value then value else JsonString ""
  | None => JsonString ""
  end.

(** [JSON.parse] of an undefined text throws, and the fallback then has
    the undefined text for explanation. *)
Definition generateCode (env : Env) (prompt : string) : CodeResponse :=
  if negb (JS.truthyOpt (API_KEY env))
  then mkCodeResponse (JsonString notConfigured) (JsonString "")
  else
    match generateContent env (CodeRequest "gemini-2.5-flash" prompt CODE_SYSTEM_INSTRUCTION) with
    | Ok response =>
        match Response.text response with
        | Some text =>
            match JSON_parse env text with
            | Some parsed =>
                mkCodeResponse (orEmpty (Parsed.explanation parsed))
                               (orEmpty (Parsed.code parsed))
            | None => mkCodeResponse (JsonString text) (JsonString "")
            end
        | None => mkCodeResponse (JsonOther false) (JsonString "")
        end
    | Throws error => mkCodeResponse (JsonString (apiError error)) (JsonString "")
    end.

Definition generateImage (env : Env) (prompt : string) : string :=
  if negb (JS.truthyOpt (API_KEY env)) then notConfigured
  else
    match generateImages env "imagen-4.0-generate-001" prompt with
    | Ok (Some (imageBytes :: _)) => imageBytes
    | Ok _ => "Error: The AI did not return an image. Please try a different prompt."
    | Throws (JsError message) => "Gemini API Error: " ++ message
    | Throws JsOther => "An unknown error occurred while generating the image."
    end.

(** The loop over the parts of the response. *)
Fixpoint forParts (parts : list Part.t) (result : EditedImageResponse)
  : EditedImageResponse :=
  match parts with
  | [] => result
  | part :: rest =>
      forParts rest
        (if JS.truthyOpt (Part.text part) then mkEdited (image result) (Part.text part)
         else
           match Part.inlineData part with
           | Some data => mkEdited data (editedText result)
           | None => result
           end)
  end.

Definition editImage (env : Env) (base64ImageData prompt : string) : EditedImageResponse :=
  if negb (JS.truthyOpt (API_KEY env)) then mkEdited None (Some notConfigured)
  else
    let caught error :=
      match error with
      | JsError message => mkEdited None (Some ("Gemini API Error: " ++ message))
      | JsOther => mkEdited None (Some "An unknown error occurred while editing the image.")
      end in
    match generateContent env
            (EditRequest "gemini-2.5-flash-image-preview" base64ImageData "image/png" prompt) with
    | Ok response =>
        match Response.parts response with
        | Ok parts =>
            let result := forParts parts (mkEdited None None) in
            if negb (JS.truthyOpt (image result)) && negb (JS.truthyOpt (editedText result))
            then mkEdited None (Some
                   "Error: The AI did not return an image or text. Please try a different prompt.")
            else result
        | Throws error => caught error
        end
    | Throws error => caught error
    end.

Definition generateVideo (env : Env) (prompt : string) : VideoStart :=
  if negb (JS.truthyOpt (API_KEY env)) then StartFailed notConfigured
  else
    match generateVideos env "veo-2.0-generate-001" prompt with
    | Ok operation => StartOk operation
    | Throws (JsError message) => StartFailed ("Gemini API Error: " ++ message)
    | Throws JsOther => StartFailed "An unknown error occurred while starting video generation."
    end.

(** [getVideosOperation] has no [try]: what the SDK answers or throws is
    what the caller gets. *)
Definition getVideosOperation (env : Env) : list PollOutcome :=
  operations_getVideosOperation env.

(** The module variables [chatSession] and [chatDocSession]. *)
Record Sessions : Type := mkSessions {
  chatSession : option Chat;
  chatDocSession : option Chat
}.

Definition noSessions : Sessions := mkSessions None None.

Definition startChat (env : Env) (s : Sessions) : Sessions :=
  if negb (JS.truthyOpt (API_KEY env)) then s
  else
    mkSessions (Some (mkChat "gemini-2.5-flash" (Some CHAT_SYSTEM_INSTRUCTION) None))
               (chatDocSession s).

Definition startChatDoc (env : Env) (content : Documents.Value) (s : Sessions) : Sessions :=
  if negb (JS.truthyOpt (API_KEY env)) then s
  else mkSessions (chatSession s) (Some (mkChat "gemini-2.5-flash" None (Some content))).

Definition sendChatMessageStream (env : Env) (s : Sessions) (message : string)
  : Stream (option string) :=
  match chatSession s with
  | None =>
      mkStream [Some "Error: Chat session not started. This is an unexpected error."] None
  | Some chat =>
      tryYield (fun chunk => [Chunk.text chunk]) caughtChunk
        (sendMessageStream env chat message)
  end.

Definition sendChatDocMessageStream (env : Env) (s : Sessions) (message : string)
  : Stream (option string) :=
  match chatDocSession s with
  | None =>
      mkStream
        [Some "Error: Document chat session not started. This is an unexpected error."] None
  | Some chat =>
      tryYield (fun chunk => [Chunk.text chunk]) caughtChunk
        (sendMessageStream env chat message)
  end.

(** What a call of the component does to the module variables. *)
Definition onCall (env : Env) (s : Sessions) (c : Call) : Sessions :=
  match c with
  | CallStartChat => startChat env s
  | CallStartChatDoc content => startChatDoc env content s
  | _ => s
  end.

(** The module variables after the calls of a log, from a page load. *)
Definition sessions (env : Env) (log : list Call) : Sessions :=
  fold_left (onCall env) log noSessions.

(** What [streamedText += chunk] appends: the chunk, or the word
    [undefined] for a chunk that is undefined. *)
Definition appendedText (chunk : option string) : string :=
  match chunk with
  | Some text => text
  | None => "undefined"
  end.

(** A stream of the module as the loops of the component consume it,
    each fragment being what the loop appends to its buffer. *)
Definition consumed (stream : Stream (option string)) : Stream string :=
  mkStream (map appendedText (yielded stream)) (failure stream).

Definition consumedEvent (event : Event) : StreamEvent :=
  match event with
  | YieldChunk text => EvChunk (appendedText text)
  | YieldSources sources => EvSources sources
  end.

Definition consumedEvents (stream : Stream Event) : Stream StreamEvent :=
  mkStream (map consumedEvent (yielded stream)) (failure stream).

(** The functions of the module as the component sees them while the
    module variables are [s]. *)
Definition backend (env : Env) (s : Sessions) : Backend :=
  mkBackend
    (fun prompt => consumed (askGeminiStream env prompt))
    (fun message => consumed (sendChatMessageStream env s message))
    (fun message => consumed (sendChatDocMessageStream env s message))
    (fun prompt => consumedEvents (searchWithGoogleStream env prompt))
    (generateCode env)
    (generateImage env)
    (editImage env)
    (generateVideo env)
    (getVideosOperation env)
    (fetchVideo env)
    (* [process.env.API_KEY] as the template literal of the component prints it *)
    (match API_KEY env with Some key => key | None => "undefined" end)
    (dateNow env)
    (reactVersion env)
    (renders env).

End Service.

(** * The download names of the media lines

    [ImageOutput] and [VideoOutput] are rendered for the lines of type
    Image and Video, with [line.text[0]] and [line.text[1]] as data and
    prompt when the text is an array, and with empty strings otherwise. *)

(** [s.replace(/\s/g, '_')], within ASCII *)
Fixpoint replaceWhiteSpace (s : string) : string :=
  match s with
  | EmptyString => EmptyString
  | String c rest =>
      String (if JS.isWhiteSpace c then "_"%char else c) (replaceWhiteSpace rest)
  end.

(** [Array.isArray(line.text) ? line.text[index] : '']; an index outside
    the array gives [undefined], which is [None]. *)
Definition arrayItem (x : Text) (index : nat) : option string :=
  match x with
  | Arr items => nth_error items index
  | Str _ | Other => Some ""
  end.

(** The [filename] of both components; reading [substring] of an
    undefined prompt throws, which is [None]. *)
Definition filename (prompt : option string) (extension : string) : option string :=
  match prompt with
  | Some prompt => Some (replaceWhiteSpace (substring 0 30 prompt) ++ extension)
  | None => None
  end.

Definition ImageOutput_filename (l : Line) : option string :=
  filename (arrayItem (text l) 1) ".png".

Definition VideoOutput_filename (l : Line) : option string :=
  filename (arrayItem (text l) 1) ".mp4".

(** * Vocabulary of the statements *)

(** The concatenation of the fragments of a stream, in the order they
    were yielded. *)
Definition concatFragments (fragments : list string) : string :=
  fold_right String.append "" fragments.

(** A streaming handler started in [st] has ended in [st'] with exactly
    one more line, an Output line whose content is the concatenation of
    the fragments split on line breaks, and with the busy flag cleared. *)
Definition finalized (st st' : State) (fragments : list string) : Prop :=
  lines st' =
    (lines st ++ [line OUTPUT (Arr (JS.split JS.LF (concatFragments fragments)))])%list
  /\ isLoading st' = false.

(** A backend for the examples: its text streams yield the fragments
    [Hel], [lo<LF>Wor], [ld], and the plain chat stream raises after them;
    its search stream has a sources event unless the prompt is [plain],
    and React renders after each of its events. *)
Definition sampleBackendWith (start : VideoStart) (answers : list PollOutcome)
  (fetched : FetchOutcome) : Backend :=
  {| askGeminiStream := fun _ => mkStream ["Hel"; "lo" ++ JS.NL ++ "Wor"; "ld"] None;
     sendChatMessageStream := fun _ =>
       mkStream ["Hel"; "lo" ++ JS.NL ++ "Wor"; "ld"] (Some (JsError "network"));
     sendChatDocMessageStream := fun _ => mkStream ["Hello" ++ JS.NL; "World"] None;
     searchWithGoogleStream := fun prompt =>
       if prompt =? "plain" then mkStream [EvChunk "a"; EvChunk "b"] None
       else mkStream [EvChunk "a"; EvSources [mkSource "t" "u"]; EvChunk "b"] None;
     generateCode := fun _ => mkCodeResponse (JsonString "explanation") (JsonString "code");
     generateImage := fun _ => "iVBORw0KGgo";
     editImage := fun _ _ => mkEdited None None;
     generateVideo := fun _ => start;
     getVideosOperation := answers;
     fetchVideo := fun _ => fetched;
     API_KEY := "key";
     dateNow := "Tue Nov 03 2026";
     reactVersion := "19.0.0";
     renders := [true; true; true] |}.

(** Its video generation is done at the second poll. *)
Definition sampleBackend : Backend :=
  sampleBackendWith (StartOk (mkOperation false None))
    [PollOk (mkOperation false None); PollOk (mkOperation true (Some "https://v/1"))]
    (FetchOk "blob:1").

(** The same backend when the events of the search stream come back to
    back, so that React renders only after the last one. *)
Definition batchedBackend : Backend :=
  {| askGeminiStream := askGeminiStream sampleBackend;
     sendChatMessageStream := sendChatMessageStream sampleBackend;
     sendChatDocMessageStream := sendChatDocMessageStream sampleBackend;
     searchWithGoogleStream := searchWithGoogleStream sampleBackend;
     generateCode := generateCode sampleBackend;
     generateImage := generateImage sampleBackend;
     editImage := editImage sampleBackend;
     generateVideo := generateVideo sampleBackend;
     getVideosOperation := getVideosOperation sampleBackend;
     fetchVideo := fetchVideo sampleBackend;
     API_KEY := API_KEY sampleBackend;
     dateNow := dateNow sampleBackend;
     reactVersion := reactVersion sampleBackend;
     renders := [] |}.


(** A backend that refuses the video generation at once, and one whose
    second poll raises. *)
Definition refusingBackend : Backend :=
  sampleBackendWith (StartFailed "Error: API_KEY is not configured.") [] (FetchOk "blob:1").

Definition failingPollBackend : Backend :=
  sampleBackendWith (StartOk (mkOperation false None))
    [PollOk (mkOperation false None); PollThrows (JsError "503")] (FetchOk "blob:1").

(** The two mode flags, and the invariant of the mode controller. *)
Definition modes (st : State) : bool * bool := (isChatMode st, isChatDocMode st).

Definition exclusive (st : State) : Prop :=
  isChatMode st && isChatDocMode st = false.

(** The Error lines of a list of lines. *)
Definition errorLines (ls : list Line) : list Line :=
  filter (fun l => LineType_eqb (type l) ERROR) ls.

(** A handler leaves a component of the state as it found it. *)
Definition keeps {X A : Type} (proj : State -> X) (m : Async A) : Prop :=
  forall st, proj (snd (m st)) = proj st.

(** Components of the state that the line buffer, the busy flag and the
    call log do not enter. *)
Definition ignoresLines {X : Type} (proj : State -> X) : Prop :=
  forall f st, proj (setLines f st) = proj st.

Definition ignoresLoading {X : Type} (proj : State -> X) : Prop :=
  forall v st, proj (setIsLoading v st) = proj st.

Definition ignoresCalls {X : Type} (proj : State -> X) : Prop :=
  forall c st, proj (logCall c st) = proj st.

(** The mode flags, the line buffer and the call log together. *)
Definition view (st : State) : bool * bool * list Line * list Call :=
  (isChatMode st, isChatDocMode st, lines st, calls st).

(** A text document, and the session after it was uploaded and [chatdoc]
    was entered. *)
Definition notesFile : File.t :=
  File.mk "notes.txt" (Some "text/plain") (File.ReadOk "hello").

Definition docChatSession : State :=
  run (FileChange (Some notesFile) :: submit "chatdoc" sampleBackend) initialState.

Definition chatSession : State := run (submit "chat" sampleBackend) initialState.

(** The texts of the chunk events and the lists of the sources events of
    a search stream, each in the order of the stream. *)
Fixpoint chunkTexts (events : list StreamEvent) : list string :=
  match events with
  | [] => []
  | EvChunk text :: rest => text :: chunkTexts rest
  | EvSources _ :: rest => chunkTexts rest
  end.

Fixpoint sourceLists (events : list StreamEvent) : list (list Source) :=
  match events with
  | [] => []
  | EvChunk _ :: rest => sourceLists rest
  | EvSources sources :: rest => sources :: sourceLists rest
  end.

(** The line appended for a sources event. *)
Definition sourcesLine (sources : list Source) : Line :=
  mkLine SOURCES (Str "") (Some sources).

(** The updater that [handleSearch] queues for an event, and whether a
    list of events holds a sources event. *)
Definition updaterOf (event : StreamEvent) : Updater :=
  match event with
  | EvChunk _ => chunkUpdater
  | EvSources sources => sourcesUpdater sources
  end.

Definition isSources (event : StreamEvent) : bool :=
  match event with
  | EvChunk _ => false
  | EvSources _ => true
  end.

Definition hasSources (events : list StreamEvent) : bool := existsb isSources events.

(** The events of a search stream that have been consumed when React
    applies the update queued for the first sources event: the stream up
    to that event and on to the first render that follows; the whole
    stream when it has no sources event.  [seen] tells that a sources
    event was consumed before. *)
Fixpoint shownEvents (events : list StreamEvent) (renders : list bool) (seen : bool)
  : list StreamEvent :=
  match events with
  | [] => []
  | event :: rest =>
      let seen := seen || isSources event in
      event :: if seen && hd false renders then []
               else shownEvents rest (tl renders) seen
  end.

(** The Output line while the queued updaters of [pending] are run with
    the buffer [streamedText], up to the first sources event. *)
Fixpoint outputAfter (pending : list StreamEvent) (streamedText : string) (o : Line)
  : Line :=
  match pending with
  | [] => o
  | EvChunk _ :: rest => outputAfter rest streamedText (withText (Str streamedText) o)
  | EvSources _ :: _ => withText (Arr (JS.split JS.LF streamedText)) o
  end.

(** How the poll loop of the [video] command ends on the answers of the
    backend: with a finished operation, with an exception, or waiting for
    an answer that has not come. *)
Inductive PollEnd : Type :=
  | PollDone (operation : Operation)
  | PollThrew (e : Exn)
  | PollWaiting.

Fixpoint pollEnd (answers : list PollOutcome) (operation : Operation) : PollEnd :=
  if done operation then PollDone operation
  else
    match answers with
    | [] => PollWaiting
    | PollThrows e :: _ => PollThrew e
    | PollOk operation' :: rest => pollEnd rest operation'
    end.

(** The last line of the buffer. *)
Definition lastLineIs (st : State) (l : Line) : Prop :=
  exists before, lines st = (before ++ [l])%list.

(** The two lines that announce a video generation. *)
Definition kickOffLines (prompt : string) : list Line :=
  [ line SYSTEM (Str ("Kicking off video generation for: " ++ JS.DQ ++ prompt ++ JS.DQ));
    line SYSTEM (Str "This can take a few minutes. Status will be checked periodically.") ].

(** The outcome of the poll loop, and what the [video] command makes of
    the result of the loop: the remainder of its [try] block, its [catch]
    block and its [finally] block. *)
Definition pollOutcome (answers : list PollOutcome) (operation : Operation)
  : Outcome Operation :=
  match pollEnd answers operation with
  | PollDone o => Returned o
  | PollThrew e => Raised e
  | PollWaiting => Pending
  end.


Definition afterPolling (b : Backend) (prompt : string) (r : Outcome Operation * State)
  : Outcome Exit * State :=
  match r with
  | (Pending, st3) => (Pending, st3)
  | (Raised e, st3) =>
      (Returned Return,
       setIsLoading false
         (setLines (push (line ERROR (Str ("Error: " ++ errorMessage e)))) st3))
  | (Returned operation, st3) =>
      if JS.truthyOpt (downloadLink operation) then
        let url := JS.str (downloadLink operation) ++ "&key=" ++ API_KEY b in
        let st4 :=
          logCall (CallFetch url)
            (setLines (push (line SYSTEM (Str
               "Video generated! Downloading and preparing for playback..."))) st3) in
        match fetchVideo b url with
        | FetchOk objectUrl =>
            (Returned Return,
             setIsLoading false
               (setLines (push (line VIDEO (Arr [objectUrl; prompt]))) st4))
        | FetchThrows e =>
            (Returned Return,
             setIsLoading false
               (setLines (push (line ERROR (Str ("Error: " ++ errorMessage e)))) st4))
        end
      else
        (Returned Return,
         setIsLoading false
           (setLines (push (line ERROR (Str
              "Video generation finished, but no video was returned. Please try a different prompt.")))
              st3))
  end.


(** An empty text file, and the session after [notes.txt] and then the
    empty file were uploaded. *)
Definition emptyFile : File.t :=
  File.mk "empty.txt" (Some "text/plain") (File.ReadOk "").

Definition twoDocsSession : State :=
  run [FileChange (Some notesFile); FileChange (Some emptyFile)] initialState.

(** The history with its cursor, and the range of the cursor. *)
Definition history (st : State) : list string * Z :=
  (commandHistory st, historyIndex st).

Definition cursorInRange (st : State) : Prop :=
  (-1 <= historyIndex st < Z.of_nat (List.length (commandHistory st)))%Z.

(** The file of an upload has a name. *)
Definition named (e : Event) : Prop :=
  match e with
  | FileChange (Some file) => File.name file <> ""
  | _ => True
  end.

(** The active document, when there is one, has a name. *)
Definition activeNamed (active : option string) : Prop := active <> Some "".


(** The lines after React has run the updaters queued for [pending] with
    the buffer [streamedText]. *)
Definition afterUpdates (pending : list StreamEvent) (streamedText : string)
  (ls : list Line) : list Line :=
  fold_left (fun newLines updater => updater streamedText newLines)
    (map updaterOf pending) ls.

(** The lines React has rendered when the handler has ended, from the
    moment when the events [pending] are queued and [events] are still to
    come. *)
Definition finalLines (events : list StreamEvent) (renders : list bool)
  (streamedText : string) (pending : list StreamEvent) (st : State) : list Line :=
  let '(streamedText', queue, st') :=
    forAwaitEvents events renders streamedText (map updaterOf pending) st in
  lines (flush (queue ++ [finalUpdater])%list streamedText' st').


(** * Vocabulary of the further properties *)

(** The first step of [handleSubmit]: the suggestions, when some are
    shown, are cleared. *)
Definition clearSuggestions (st : State) : State :=
  if Nat.ltb 0 (List.length (suggestions st)) then setSuggestions [] st else st.

(** The state in which [handleSubmit] starts the handler it routes to:
    suggestions cleared and the input echoed as a line of the given type. *)
Definition echoed (lineType : LineType) (st : State) : State :=
  setLines (push (line lineType (Str (JS.trim (inputValue st))))) (clearSuggestions st).

(** The input is enabled: neither busy nor listening. *)
Definition enabled (st : State) : Prop :=
  isLoading st = false /\ isListening st = false.

(** Normal mode. *)
Definition normal (st : State) : Prop :=
  isChatMode st = false /\ isChatDocMode st = false.

(** Ascending order of the indices of a list of index names. *)
Definition ascending : list (N * string) -> Prop :=
  StronglySorted (fun p q => (fst p <= fst q)%N).

(** What belongs to the input field: its value, the suggestions, the
    listening flag and the history with its cursor. *)
Definition inputSide (st : State)
  : string * list string * bool * list string * Z :=
  (inputValue st, suggestions st, isListening st, commandHistory st, historyIndex st).

(** A backend whose one-shot stream breaks after a first fragment. *)
Definition brokenStreamBackend : Backend :=
  {| askGeminiStream := fun _ => mkStream ["par"] (Some (JsError "reset"));
     sendChatMessageStream := sendChatMessageStream sampleBackend;
     sendChatDocMessageStream := sendChatDocMessageStream sampleBackend;
     searchWithGoogleStream := searchWithGoogleStream sampleBackend;
     generateCode := generateCode sampleBackend;
     generateImage := generateImage sampleBackend;
     editImage := editImage sampleBackend;
     generateVideo := generateVideo sampleBackend;
     getVideosOperation := getVideosOperation sampleBackend;
     fetchVideo := fetchVideo sampleBackend;
     API_KEY := API_KEY sampleBackend;
     dateNow := dateNow sampleBackend;
     reactVersion := reactVersion sampleBackend;
     renders := renders sampleBackend |}.

(** A handler takes every state to a state related to it by [R]. *)
Definition steps (R : State -> State -> Prop) {A : Type} (m : Async A) : Prop :=
  forall st, R st (snd (m st)).

(** A list held in the state has only grown at its end. *)
Definition grows {X : Type} (proj : State -> list X) (st st' : State) : Prop :=
  exists added, proj st' = (proj st ++ added)%list.

(** The three ways a handler ends, and a handler that never ends in one
    of them. *)
Inductive Ending : Type := Returns | Rejects | Waits.

Definition ending {A : Type} (o : Outcome A) : Ending :=
  match o with
  | Returned _ => Returns
  | Raised _ => Rejects
  | Pending => Waits
  end.

Definition avoids (x : Ending) {A : Type} (m : Async A) : Prop :=
  forall st, ending (fst (m st)) <> x.

(** Started with the busy flag clear, a handler that returns ends with the
    busy flag clear. *)
Definition settles {A : Type} (m : Async A) : Prop :=
  forall st, isLoading st = false -> ending (fst (m st)) = Returns ->
             isLoading (snd (m st)) = false.

(** A handler that clears the busy flag also when it rejects: its body sits
    in [try ... finally]. *)
Definition clears {A : Type} (m : Async A) : Prop :=
  forall st, ending (fst (m st)) <> Waits -> isLoading (snd (m st)) = false.

(** The four streams of a backend complete without raising. *)
Definition completes (b : Backend) : Prop :=
  (forall prompt, failure (askGeminiStream b prompt) = None)
  /\ (forall prompt, failure (searchWithGoogleStream b prompt) = None)
  /\ (forall message, failure (sendChatMessageStream b message) = None)
  /\ (forall message, failure (sendChatDocMessageStream b message) = None).

(** A backend whose streams all complete and whose video generation is
    refused at once. *)
Definition completeBackend : Backend :=
  {| askGeminiStream := askGeminiStream sampleBackend;
     sendChatMessageStream := fun _ => mkStream ["Hi"; " there"] None;
     sendChatDocMessageStream := sendChatDocMessageStream sampleBackend;
     searchWithGoogleStream := fun _ => mkStream [EvChunk "a"; EvChunk "b"] None;
     generateCode := generateCode sampleBackend;
     generateImage := generateImage sampleBackend;
     editImage := editImage sampleBackend;
     generateVideo := generateVideo refusingBackend;
     getVideosOperation := [];
     fetchVideo := fetchVideo sampleBackend;
     API_KEY := API_KEY sampleBackend;
     dateNow := dateNow sampleBackend;
     reactVersion := reactVersion sampleBackend;
     renders := renders sampleBackend |}.

(** The state in which [handleSubmit] runs a command of Normal mode:
    suggestions cleared, the command echoed and recorded in the history. *)
Definition commandStart (st : State) : State :=
  setHistoryIndex (-1)%Z
    (setCommandHistory (fun prev => JS.trim (inputValue st) :: prev)
       (setLines (push (line COMMAND (Str (JS.trim (inputValue st)))))
          (setSuggestions [] st))).

(** The document table with the selection. *)
Definition docSide (st : State) : Documents.t * option string :=
  (documents st, activeDoc st).

(** The selection can be read: the active name, when there is one, is a
    key of the table or a name that every object inherits. *)
Definition readable (ds : Documents.t * option string) : Prop :=
  forall active, snd ds = Some active -> Documents.get (fst ds) active <> Documents.Undefined.

(** A backend whose image editing answers with an image and a remark. *)
Definition editingBackend : Backend :=
  {| askGeminiStream := askGeminiStream sampleBackend;
     sendChatMessageStream := sendChatMessageStream sampleBackend;
     sendChatDocMessageStream := sendChatDocMessageStream sampleBackend;
     searchWithGoogleStream := searchWithGoogleStream sampleBackend;
     generateCode := generateCode sampleBackend;
     generateImage := generateImage sampleBackend;
     editImage := fun _ _ => mkEdited (Some "R0lGODlh") (Some "Done.");
     generateVideo := generateVideo sampleBackend;
     getVideosOperation := getVideosOperation sampleBackend;
     fetchVideo := fetchVideo sampleBackend;
     API_KEY := API_KEY sampleBackend;
     dateNow := dateNow sampleBackend;
     reactVersion := reactVersion sampleBackend;
     renders := renders sampleBackend |}.

(** The lines a submission has appended are the echo of the command
    followed by [added]. *)
Definition appended (st st' : State) (added : list Line) : Prop :=
  lines st' = (lines st ++ line COMMAND (Str (JS.trim (inputValue st))) :: added)%list.

(** The operations the poll loop asks the backend about, in order: the
    one it was started with, when it is not done, and each answer that is
    not done, up to the first exception or the last answer. *)
Fixpoint polled (answers : list PollOutcome) (operation : Operation) : list Operation :=
  if done operation then []
  else
    operation ::
    match answers with
    | PollOk operation' :: rest => polled rest operation'
    | _ => []
    end.

(** The progress lines of polls [pollCount], [pollCount + 1], ... *)
Definition progressLines (pollCount n : nat) : list Line :=
  map (fun i => line SYSTEM (Str (pollMessage i))) (seq pollCount n).

(** An environment for the examples, with the given key.  Its one-shot
    stream yields a chunk, then a chunk without text, and breaks; its
    search stream has grounding chunks of which one is complete; its
    image and video generations throw; its image editing answers with an
    empty part; its code answer parses to an explanation that is a
    number. *)
Definition sampleEnv (key : option string) : Service.Env :=
  Service.mkEnv key
    (fun request =>
       if Service.googleSearch request then
         mkStream
           [ Service.Chunk.mk (Some "Paris")
               (Some [ Some (Service.Web.mk (Some "https://a.example") (Some "A"));
                       Some (Service.Web.mk None (Some "B"));
                       None ]);
             Service.Chunk.mk (Some " is") (Some [None]) ]
           None
       else
         mkStream [Service.Chunk.mk (Some "Hi") None; Service.Chunk.mk None None]
                  (Some (JsError "quota exceeded")))
    (fun request =>
       match request with
       | Service.CodeRequest _ _ _ =>
           Service.Ok (Service.Response.mk (Some "{}") (Service.Throws JsOther))
       | Service.EditRequest _ _ _ _ =>
           Service.Ok (Service.Response.mk None (Service.Ok [Service.Part.mk None None]))
       end)
    (fun _ _ => Service.Throws (JsError "quota exceeded"))
    (fun _ _ => Service.Throws JsOther)
    []
    (fun _ _ => mkStream [Service.Chunk.mk (Some "ok") None] None)
    (fun _ => Some (Service.Parsed.mk (Some (JsonOther true)) None))
    (fun _ => FetchOk "blob:1")
    "Tue Nov 03 2026"
    "19.0.0"
    [].

(** The sources of a Sources line are complete: there is one at least,
    and each has a link and a title. *)
Definition completeSources (sources : list Source) : Prop :=
  sources <> [] /\ Forall (fun source => uri source <> "" /\ title source <> "") sources.

(** Every conversation mode was entered after its session was asked
    for: the call that starts the session is in the log. *)
Definition sessionsAsked (st : State) : Prop :=
  (isChatMode st = true -> In CallStartChat (calls st))
  /\ (isChatDocMode st = true -> exists content, In (CallStartChatDoc content) (calls st)).

(** A line of type Image or Video holds its data and a prompt that is
    not empty. *)
Definition mediaOk (l : Line) : Prop :=
  type l = IMAGE \/ type l = VIDEO ->
  exists data prompt, text l = Arr [data; prompt] /\ prompt <> "".

Definition breakOk (exit : Exit) : Prop :=
  match exit with
  | Break outputLines => Forall mediaOk outputLines
  | Return => True
  end.

(** A handler keeps the media lines of the buffer well formed, and what
    it returns satisfies [Q]. *)
Definition ensures {A : Type} (Q : A -> Prop) (m : Async A) : Prop :=
  forall st, Forall mediaOk (lines st) ->
    Forall mediaOk (lines (snd (m st)))
    /\ (forall a, fst (m st) = Returned a -> Q a).

(** A name without white space. *)
Definition noWhiteSpace (name : string) : Prop :=
  Forall (fun c => JS.isWhiteSpace c = false) (list_ascii_of_string name).

(** * Properties *)

(** ** Strings and lists *)

Lemma append_nil_r (s : string) : s ++ "" = s.
Proof. induction s as [|c s IH]; simpl; [reflexivity | now rewrite IH]. Qed.

Lemma append_assoc (s t u : string) : (s ++ t) ++ u = s ++ (t ++ u).
Proof. induction s as [|c s IH]; simpl; [reflexivity | now rewrite IH]. Qed.

Lemma concatFragments_app (l r : list string) :
  concatFragments (l ++ r)%list = concatFragments l ++ concatFragments r.
Proof.
  induction l as [|x l IH]; simpl; [reflexivity|].
  now rewrite IH, append_assoc.
Qed.

Lemma split_not_nil (sep : ascii) (s : string) : JS.split sep s <> [].
Proof.
  destruct s as [|c s]; simpl; [discriminate|].
  destruct (Ascii.eqb c sep); [discriminate|].
  destruct (JS.split sep s); discriminate.
Qed.

(** The primitives on the inputs of the examples. *)
Example split_keeps_empty_pieces : JS.split JS.SPACE "a  b" = ["a"; ""; "b"].
Proof. reflexivity. Qed.

Example tokens_drop_blanks : tokens "  HELP   me  " = ["HELP"; "me"].
Proof. reflexivity. Qed.

Example tokens_of_blank_line : tokens "   " = [].
Proof. reflexivity. Qed.

Example lowercase_command : JS.toLowerCase "ChatDoc" = "chatdoc".
Proof. reflexivity. Qed.

Example split_on_line_breaks :
  JS.split JS.LF (concatFragments ["Hel"; "lo" ++ JS.NL ++ "Wor"; "ld"]) = ["Hello"; "World"].
Proof. reflexivity. Qed.

Example inherited_name_is_truthy :
  Documents.truthy (Documents.get Documents.empty "toString") = true
  /\ Documents.truthy (Documents.get [("empty.txt", "")] "empty.txt") = false
  /\ Documents.truthy (Documents.get [("notes.txt", "hello")] "notes.txt") = true
  /\ Documents.truthy (Documents.get [("notes.txt", "hello")] "other.txt") = false.
Proof. repeat split. Qed.

Lemma mutateLast_push (f : Line -> Line) (l : list Line) (x : Line) :
  mutateLast f (l ++ [x])%list = (l ++ [f x])%list.
Proof.
  induction l as [|y l IH]; simpl; [reflexivity|].
  rewrite IH. destruct (l ++ [x])%list eqn:E; [|reflexivity].
  destruct l; discriminate.
Qed.

Lemma mutateLast_compose (f g : Line -> Line) (l : list Line) :
  mutateLast f (mutateLast g l) = mutateLast (fun x => f (g x)) l.
Proof.
  induction l as [|y l IH]; simpl; [reflexivity|].
  destruct l as [|z l]; [reflexivity|].
  change (mutateLast g (y :: z :: l)) with (y :: mutateLast g (z :: l)).
  change (mutateLast (fun x => f (g x)) (y :: z :: l))
    with (y :: mutateLast (fun x => f (g x)) (z :: l)).
  rewrite <- IH.
  destruct (mutateLast g (z :: l)) as [|a m] eqn:E; [|reflexivity].
  destruct l; simpl in E; discriminate.
Qed.

Lemma mutateLast_ext (f g : Line -> Line) (l : list Line) :
  (forall x, f x = g x) -> mutateLast f l = mutateLast g l.
Proof.
  intros H. induction l as [|y l IH]; simpl; [reflexivity|].
  destruct l; [now rewrite H | now rewrite IH].
Qed.

(** ** The streaming loop *)

(** The local variable after the loop is the starting value followed by
    every fragment; a later overwrite of the last line hides the writes of
    the loop. *)
Lemma forAwaitChunks_spec (chunks : list string) :
  forall (streamedText : string) (st : State) (x : Text),
    fst (forAwaitChunks chunks streamedText st) = streamedText ++ concatFragments chunks
    /\ setLines (mutateLast (withText x)) (snd (forAwaitChunks chunks streamedText st))
       = setLines (mutateLast (withText x)) st.
Proof.
  induction chunks as [|c chunks IH]; intros buf st x; simpl.
  - now rewrite append_nil_r.
  - destruct (IH (buf ++ c) (setLines (mutateLast (withText (Str (buf ++ c)))) st) x)
      as [Hb Hs].
    rewrite Hb, Hs, append_assoc. split; [reflexivity|].
    unfold setLines; simpl. f_equal.
    rewrite mutateLast_compose. apply mutateLast_ext. reflexivity.
Qed.

(** The state a streaming handler ends in. *)
Lemma streamResponse_spec (call : Call) (stream : Stream string) (st : State) :
  streamResponse call stream st =
  (completion stream,
   setIsLoading false
     (logCall call
        (setLines
           (push (line OUTPUT (Arr (JS.split JS.LF (concatFragments (yielded stream))))))
           st))).
Proof.
  unfold streamResponse.
  set (st1 := logCall call (setLines (push (line OUTPUT (Str ""))) (setIsLoading true st))).
  destruct (forAwaitChunks (yielded stream) "" st1) as [buf st2] eqn:E.
  destruct (forAwaitChunks_spec (yielded stream) "" st1
              (Arr (JS.split JS.LF (concatFragments (yielded stream))))) as [Hb Hs].
  rewrite E in Hb, Hs. simpl in Hb, Hs. subst buf. rewrite Hs.
  f_equal. unfold st1, setIsLoading, logCall, setLines, push; simpl.
  f_equal. apply mutateLast_push.
Qed.

Lemma streamResponse_finalized (call : Call) (stream : Stream string) (st : State) :
  fst (streamResponse call stream st) = completion stream
  /\ finalized st (snd (streamResponse call stream st)) (yielded stream).
Proof. rewrite streamResponse_spec. repeat split. Qed.

(** C2. Each of the three streaming handlers appends exactly one Output
    line, and when the producer has completed or raised, the content of
    that line is the concatenation of the fragments it yielded, split on
    line breaks; the busy flag is cleared and the handler ends the way the
    producer did.  With no fragment the content is the list holding the
    empty string, and two streams whose fragments have the same
    concatenation leave the same lines, however the text is divided.  For
    [handleChat] and [handleChatDocConversation] the message is not the
    word exit, which leaves the mode instead of streaming. *)
Theorem streaming_finalization (b : Backend) (message : string) (st : State) :
  (fst (handleAsk b message st) = completion (askGeminiStream b message)
   /\ finalized st (snd (handleAsk b message st)) (yielded (askGeminiStream b message)))
  /\ (JS.toLowerCase message <> "exit" ->
      (fst (handleChat b message st) = completion (sendChatMessageStream b message)
       /\ finalized st (snd (handleChat b message st))
            (yielded (sendChatMessageStream b message)))
      /\ (fst (handleChatDocConversation b message st)
          = completion (sendChatDocMessageStream b message)
          /\ finalized st (snd (handleChatDocConversation b message st))
               (yielded (sendChatDocMessageStream b message))))
  /\ JS.split JS.LF (concatFragments []) = [""]
  /\ (forall (call : Call) (stream stream' : Stream string),
        concatFragments (yielded stream) = concatFragments (yielded stream') ->
        lines (snd (streamResponse call stream st))
        = lines (snd (streamResponse call stream' st))).
Proof.
  split; [apply streamResponse_finalized|].
  split.
  - intros Hexit. apply String.eqb_neq in Hexit.
    unfold handleChat, handleChatDocConversation. rewrite Hexit.
    split; apply streamResponse_finalized.
  - split; [reflexivity|].
    intros call stream stream' Heq.
    rewrite !streamResponse_spec. simpl. now rewrite Heq.
Qed.

Lemma streaming_finalization_witness :
  JS.toLowerCase "hi" <> "exit"
  /\ lines (snd (handleChat sampleBackend "hi" initialState))
     = (WELCOME_LINES ++ [line OUTPUT (Arr ["Hello"; "World"])])%list
  /\ fst (handleChat sampleBackend "hi" initialState) = Raised (JsError "network").
Proof.
  assert (H : JS.toLowerCase "hi" <> "exit") by discriminate.
  split; [exact H|].
  destruct (streaming_finalization sampleBackend "hi" initialState) as [_ [Hc _]].
  destruct (Hc H) as [[Ho [Hl _]] _].
  split; [rewrite Hl | rewrite Ho]; vm_compute; reflexivity.
Defined.

(** ** What a handler leaves unchanged *)

Section Keeps.

Context {X : Type} (proj : State -> X).

Lemma keeps_ret {A : Type} (a : A) : keeps proj (ret a).
Proof. intro st. reflexivity. Qed.

Lemma keeps_throw {A : Type} (e : Exn) : keeps proj (@throw A e).
Proof. intro st. reflexivity. Qed.

Lemma keeps_pending {A : Type} : keeps proj (@pending A).
Proof. intro st. reflexivity. Qed.

Lemma keeps_act (f : State -> State) :
  (forall st, proj (f st) = proj st) -> keeps proj (act f).
Proof. intros H st. apply H. Qed.

Lemma keeps_bind {A B : Type} (m : Async A) (k : A -> Async B) :
  keeps proj m -> (forall a, keeps proj (k a)) -> keeps proj (bind m k).
Proof.
  intros Hm Hk st. unfold bind. specialize (Hm st).
  destruct (m st) as [[a|e|] st']; simpl in *; [|assumption|assumption].
  now rewrite Hk.
Qed.

Lemma keeps_tryCatch {A : Type} (body : Async A) (handler : Exn -> Async A) :
  keeps proj body -> (forall e, keeps proj (handler e)) ->
  keeps proj (tryCatch body handler).
Proof.
  intros Hb Hh st. unfold tryCatch. specialize (Hb st).
  destruct (body st) as [[a|e|] st']; simpl in *; [assumption| |assumption].
  now rewrite Hh.
Qed.

Lemma keeps_tryFinally {A : Type} (body : Async A) (fin : Async unit) :
  keeps proj body -> keeps proj fin -> keeps proj (tryFinally body fin).
Proof.
  intros Hb Hf st. unfold tryFinally. specialize (Hb st).
  destruct (body st) as [[a|e|] st']; simpl in *; [| |assumption];
    specialize (Hf st'); destruct (fin st') as [[[]|e'|] st'']; simpl in *; congruence.
Qed.

Hypothesis noLines : ignoresLines proj.
Hypothesis noLoading : ignoresLoading proj.
Hypothesis noCalls : ignoresCalls proj.

Lemma keeps_streamResponse (call : Call) (stream : Stream string) :
  keeps proj (streamResponse call stream).
Proof.
  intro st. rewrite streamResponse_spec. simpl.
  now rewrite noLoading, noCalls, noLines.
Qed.

Lemma forAwaitEvents_keeps (events : list StreamEvent) :
  forall renders streamedText queue st,
    proj (snd (forAwaitEvents events renders streamedText queue st)) = proj st.
Proof.
  induction events as [|event events IH]; intros renders buf queue st; simpl;
    [reflexivity|].
  destruct (hd false renders); rewrite IH; [apply noLines | reflexivity].
Qed.

Lemma keeps_handleSearch (b : Backend) (prompt : string) :
  keeps proj (handleSearch b prompt).
Proof.
  intro st. unfold handleSearch.
  destruct (forAwaitEvents _ _ _ _ _) as [[buf queue] st'] eqn:E. simpl.
  rewrite noLoading. unfold flush. rewrite noLines.
  change st' with (snd (buf, queue, st')). rewrite <- E.
  now rewrite forAwaitEvents_keeps, noCalls, noLines, noLoading.
Qed.

Lemma keeps_pollLoop (answers : list PollOutcome) :
  forall operation pollCount, keeps proj (pollLoop answers operation pollCount).
Proof.
  induction answers as [|a answers IH]; intros op n st; simpl;
    destruct (done op); try reflexivity; unfold bind, act; simpl.
  - now rewrite noCalls, noLines.
  - destruct a as [op'|e]; simpl.
    + now rewrite IH, noCalls, noLines.
    + now rewrite noCalls, noLines.
Qed.

End Keeps.

(** Goals [keeps proj m], by the structure of [m]. *)
Ltac keeps_step :=
  match goal with
  | |- keeps _ (ret _) => apply keeps_ret
  | |- keeps _ (throw _) => apply keeps_throw
  | |- keeps _ pending => apply keeps_pending
  | |- keeps _ (act _) => apply keeps_act; intro; reflexivity
  | |- keeps _ (bind _ _) => apply keeps_bind; [|intro]
  | |- keeps _ (tryCatch _ _) => apply keeps_tryCatch; [|intro]
  | |- keeps _ (tryFinally _ _) => apply keeps_tryFinally
  | |- keeps _ (streamResponse _ _) =>
      apply keeps_streamResponse; intro; intros; reflexivity
  | |- keeps _ (handleSearch _ _) =>
      apply keeps_handleSearch; intro; intros; reflexivity
  | |- keeps _ (pollLoop _ _ _) =>
      apply keeps_pollLoop; intro; intros; reflexivity
  | |- keeps _ (if ?c then _ else _) => destruct c
  | |- keeps _ (match ?x with _ => _ end) => destruct x
  end.

Ltac keeps_tac := repeat keeps_step.

(** ** The mode controller *)

Lemma exclusive_modes (st st' : State) :
  modes st' = modes st -> exclusive st -> exclusive st'.
Proof. unfold modes, exclusive. intros H. injection H as -> ->. auto. Qed.

(** A property of a component after [m ;; k], when [m] leaves the
    component alone. *)
Lemma bind_keeps_elim {X A B : Type} (proj : State -> X) (m : Async A)
  (k : A -> Async B) (st : State) (P : X -> Prop) :
  keeps proj m ->
  P (proj st) ->
  (forall a st1, proj st1 = proj st -> P (proj (snd (k a st1)))) ->
  P (proj (snd (bind m k st))).
Proof.
  intros Hm Hst Hk. unfold bind. specialize (Hm st).
  destruct (m st) as [[a|e|] st1]; simpl in *; [|now rewrite Hm|now rewrite Hm].
  now apply Hk.
Qed.

Lemma bind_tail_keeps {X A B : Type} (proj : State -> X) (m : Async A)
  (k : A -> Async B) (st : State) (P : X -> Prop) :
  (forall a, keeps proj (k a)) ->
  P (proj (snd (m st))) ->
  P (proj (snd (bind m k st))).
Proof.
  intros Hk Hm. unfold bind.
  destruct (m st) as [[a|e|] st1]; simpl in *; try assumption.
  now rewrite Hk.
Qed.

Lemma dispatch_keeps_modes (snap : State) (b : Backend) (command : string)
  (args : list string) :
  switchOn (JS.toLowerCase command) <> case_chat ->
  switchOn (JS.toLowerCase command) <> case_chatdoc ->
  keeps modes (dispatch snap b command args).
Proof.
  intros Hchat Hdoc. unfold dispatch.
  destruct (switchOn (JS.toLowerCase command)); try contradiction;
    unfold handleAsk, videoCommand, docsCommand; keeps_tac.
Qed.

(** The only changes of the mode flags that the switch makes: [chat] sets
    the first flag when the render was not in document chat, [chatdoc] sets
    the second when the render was not in chat. *)
Lemma dispatch_modes (snap : State) (b : Backend) (command : string)
  (args : list string) (st : State) :
  let st' := snd (dispatch snap b command args st) in
  modes st' = modes st
  \/ (isChatDocMode snap = false /\ modes st' = (true, isChatDocMode st))
  \/ (isChatMode snap = false /\ modes st' = (isChatMode st, true)).
Proof.
  destruct (switchOn (JS.toLowerCase command)) eqn:E;
    try (left; apply dispatch_keeps_modes; rewrite E; discriminate).
  - unfold dispatch. rewrite E.
    destruct (isChatDocMode snap) eqn:D; [left; reflexivity|].
    right; left. split; reflexivity.
  - unfold dispatch. rewrite E.
    destruct (isChatMode snap) eqn:C; [left; reflexivity|].
    destruct (negb (JS.truthyOpt (activeDoc snap))); [left; reflexivity|].
    destruct (Nat.ltb 0 (List.length args)); [left; reflexivity|].
    right; right. split; reflexivity.
Qed.

Lemma processCommand_exclusive (snap : State) (b : Backend) (commandStr : string)
  (st : State) :
  modes st = modes snap -> exclusive st ->
  exclusive (snd (processCommand snap b commandStr st)).
Proof.
  intros Hsnap Hex. unfold processCommand.
  destruct (tokens commandStr) as [|command args]; [exact Hex|].
  pose proof (dispatch_modes snap b command args st) as Hd.
  unfold bind. destruct (dispatch snap b command args st) as [[exit|e|] st'];
    simpl in Hd; try destruct exit; simpl;
    change (exclusive st');
    unfold modes, exclusive in *; injection Hsnap as Hc Hdoc;
    destruct Hd as [Hd | [[Hs Hd] | [Hs Hd]]]; injection Hd as -> ->;
    try assumption; try reflexivity.
  all: try (rewrite Hdoc, Hs; reflexivity).
  all: try (rewrite Hc, Hs; reflexivity).
Qed.

Lemma handleChat_exclusive (b : Backend) (message : string) (st : State) :
  exclusive st -> exclusive (snd (handleChat b message st)).
Proof.
  intros Hex. unfold handleChat.
  destruct (JS.toLowerCase message =? "exit").
  - reflexivity.
  - eapply exclusive_modes; [|exact Hex].
    apply keeps_streamResponse; intro; intros; reflexivity.
Qed.

Lemma handleChatDocConversation_exclusive (b : Backend) (message : string) (st : State) :
  exclusive st -> exclusive (snd (handleChatDocConversation b message st)).
Proof.
  intros Hex. unfold handleChatDocConversation.
  destruct (JS.toLowerCase message =? "exit").
  - unfold exclusive. simpl. apply andb_false_r.
  - eapply exclusive_modes; [|exact Hex].
    apply keeps_streamResponse; intro; intros; reflexivity.
Qed.

(** What [handleSubmit] does to a component of the state that its own
    updates of the suggestions, of the line buffer and of the input field
    do not enter: nothing, or what the handler it routes to does. *)
Section SubmitElim.

Context {X : Type} (proj : State -> X) (P : X -> Prop).
Hypothesis noLines : ignoresLines proj.
Hypothesis noSuggestions : forall v st, proj (setSuggestions v st) = proj st.
Hypothesis noInput : forall v st, proj (setInputValue v st) = proj st.

Lemma handleSubmit_elim (st : State) (b : Backend) :
  P (proj st) ->
  (forall st1, proj st1 = proj st ->
     P (proj (snd (handleChat b (JS.trim (inputValue st)) st1)))) ->
  (forall st1, proj st1 = proj st ->
     P (proj (snd (handleChatDocConversation b (JS.trim (inputValue st)) st1)))) ->
  (forall st1, proj st1 = proj st ->
     isChatMode st = false -> isChatDocMode st = false ->
     P (proj (snd (processCommand st b (JS.trim (inputValue st))
          (setHistoryIndex (-1)%Z
             (setCommandHistory (fun prev => JS.trim (inputValue st) :: prev) st1)))))) ->
  P (proj (snd (handleSubmit st b st))).
Proof.
  intros Hst Hchat Hdoc Hcmd. unfold handleSubmit.
  match goal with |- P (proj (snd (bind ?m ?k st))) =>
    apply (bind_keeps_elim proj m k st P)
  end; [ | exact Hst | intros _ st1 H1].
  { destruct (Nat.ltb 0 (List.length (suggestions st)));
      [apply keeps_act; intro; apply noSuggestions | apply keeps_ret]. }
  destruct (isLoading st || isListening st).
  { change (P (proj st1)). now rewrite H1. }
  match goal with |- P (proj (snd (bind ?m ?k st1))) =>
    apply (bind_keeps_elim proj m k st1 P)
  end; [apply keeps_act; intro; apply noLines | now rewrite H1 | intros _ st2 H2].
  rewrite H1 in H2.
  destruct (negb (JS.truthy (JS.trim (inputValue st))) && (isChatMode st || isChatDocMode st)).
  { change (P (proj st2)). now rewrite H2. }
  destruct (negb (JS.truthy (JS.trim (inputValue st)))).
  { change (P (proj (setInputValue "" st2))). now rewrite noInput, H2. }
  apply bind_tail_keeps; [intro; apply keeps_act; intro; apply noInput|].
  destruct (isChatMode st) eqn:C; [now apply Hchat|].
  destruct (isChatDocMode st) eqn:D; [now apply Hdoc|].
  now apply Hcmd.
Qed.

End SubmitElim.

Lemma handleSubmit_exclusive (st : State) (b : Backend) :
  exclusive st -> exclusive (snd (handleSubmit st b st)).
Proof.
  intros Hex.
  apply (handleSubmit_elim modes (fun md => fst md && snd md = false));
    try (intro; intros; reflexivity).
  - exact Hex.
  - intros st1 H1. apply handleChat_exclusive. eapply exclusive_modes; eassumption.
  - intros st1 H1. apply handleChatDocConversation_exclusive.
    eapply exclusive_modes; eassumption.
  - intros st1 H1 _ _. apply processCommand_exclusive; [exact H1|].
    eapply exclusive_modes; [|exact Hex]. exact H1.
Qed.

Lemma step_exclusive (st : State) (e : Event) : exclusive st -> exclusive (step st e).
Proof.
  intros Hex. unfold step. destruct e; simpl handler.
  - now apply handleSubmit_exclusive.
  - eapply exclusive_modes; [|exact Hex].
    assert (K : keeps modes (handleInputChange st value))
      by (unfold handleInputChange; keeps_tac).
    apply K.
  - eapply exclusive_modes; [|exact Hex].
    assert (K : keeps modes (handleKeyDown st key))
      by (unfold handleKeyDown; keeps_tac).
    apply K.
  - eapply exclusive_modes; [|exact Hex].
    assert (K : keeps modes (handleFileChange st selected))
      by (unfold handleFileChange; keeps_tac).
    apply K.
  - eapply exclusive_modes; [|exact Hex].
    assert (K : keeps modes (handleToggleListening st))
      by (unfold handleToggleListening; keeps_tac).
    apply K.
  - exact Hex.
  - exact Hex.
  - exact Hex.
  - exact Hex.
Qed.

Lemma run_exclusive (events : list Event) :
  forall st, exclusive st -> exclusive (run events st).
Proof.
  induction events as [|e events IH]; intros st Hex; simpl; [exact Hex|].
  apply IH. now apply step_exclusive.
Qed.

Lemma bind_act {B : Type} (f : State -> State) (k : unit -> Async B) (st : State) :
  bind (act f) k st = k tt (f st).
Proof. reflexivity. Qed.

Lemma bind_ret {A B : Type} (a : A) (k : A -> Async B) (st : State) :
  bind (ret a) k st = k a st.
Proof. reflexivity. Qed.

Ltac run_binds := repeat first [rewrite bind_act | rewrite bind_ret]; cbv beta.

(** In document chat an input that is neither empty nor the word exit is
    sent to the document conversation. *)
Lemma submit_in_docchat (st : State) (b : Backend) :
  isLoading st = false -> isListening st = false ->
  isChatMode st = false -> isChatDocMode st = true ->
  JS.truthy (JS.trim (inputValue st)) = true ->
  JS.toLowerCase (JS.trim (inputValue st)) <> "exit" ->
  view (step st (Submit b)) =
  (false, true,
   (lines st ++ [line SYSTEM (Str (JS.trim (inputValue st)));
                 line OUTPUT (Arr (JS.split JS.LF (concatFragments
                   (yielded (sendChatDocMessageStream b (JS.trim (inputValue st)))))))])%list,
   (calls st ++ [CallSendChatDocMessageStream (JS.trim (inputValue st))])%list).
Proof.
  intros Hl Hli Hc Hd Ht Hx. apply String.eqb_neq in Hx.
  unfold step, handler, handleSubmit.
  rewrite Hl, Hli, Hc, Hd, Ht. unfold handleChatDocConversation. rewrite Hx.
  cbn [orb negb andb].
  destruct (Nat.ltb 0 (List.length (suggestions st))); run_binds;
    match goal with |- view (snd (bind ?m ?k ?s)) = ?r =>
      apply (bind_tail_keeps view m k s (fun v => v = r)); [intro; keeps_tac|]
    end;
    cbv beta; rewrite streamResponse_spec; unfold view, push; simpl;
    rewrite Hc, Hd, <- app_assoc; reflexivity.
Qed.

(** In chat mode, likewise, the input goes to the chat conversation. *)
Lemma submit_in_chat (st : State) (b : Backend) :
  isLoading st = false -> isListening st = false ->
  isChatMode st = true -> isChatDocMode st = false ->
  JS.truthy (JS.trim (inputValue st)) = true ->
  JS.toLowerCase (JS.trim (inputValue st)) <> "exit" ->
  view (step st (Submit b)) =
  (true, false,
   (lines st ++ [line SYSTEM (Str (JS.trim (inputValue st)));
                 line OUTPUT (Arr (JS.split JS.LF (concatFragments
                   (yielded (sendChatMessageStream b (JS.trim (inputValue st)))))))])%list,
   (calls st ++ [CallSendChatMessageStream (JS.trim (inputValue st))])%list).
Proof.
  intros Hl Hli Hc Hd Ht Hx. apply String.eqb_neq in Hx.
  unfold step, handler, handleSubmit.
  rewrite Hl, Hli, Hc, Hd, Ht. unfold handleChat. rewrite Hx.
  cbn [orb negb andb].
  destruct (Nat.ltb 0 (List.length (suggestions st))); run_binds;
    match goal with |- view (snd (bind ?m ?k ?s)) = ?r =>
      apply (bind_tail_keeps view m k s (fun v => v = r)); [intro; keeps_tac|]
    end;
    cbv beta; rewrite streamResponse_spec; unfold view, push; simpl;
    rewrite Hc, Hd, <- app_assoc; reflexivity.
Qed.

(** The guards of [processCommand], for a render in the other mode. *)
Lemma processCommand_chat_guard (snap : State) (b : Backend) (st : State) :
  isChatDocMode snap = true ->
  processCommand snap b "chat" st =
  (Returned tt,
   setLines (push (line ERROR
     (Str "Already in document chat mode. Type `exit` to leave first."))) st).
Proof.
  intros H. unfold processCommand.
  change (tokens "chat") with ["chat"]. unfold dispatch.
  change (switchOn (JS.toLowerCase "chat")) with case_chat. cbv iota.
  rewrite H. reflexivity.
Qed.

Lemma processCommand_chatdoc_guard (snap : State) (b : Backend) (st : State) :
  isChatMode snap = true ->
  processCommand snap b "chatdoc" st =
  (Returned tt,
   setLines (push (line ERROR
     (Str "Already in regular chat mode. Type `exit` to leave first."))) st).
Proof.
  intros H. unfold processCommand.
  change (tokens "chatdoc") with ["chatdoc"]. unfold dispatch.
  change (switchOn (JS.toLowerCase "chatdoc")) with case_chatdoc. cbv iota.
  rewrite H. reflexivity.
Qed.

(** C1, as stated, fails: [chat] submitted while document chat is active
    is sent to the document conversation; the two lines appended are the
    echo of the input and the streamed answer, neither an Error line. *)
Lemma chat_submitted_in_docchat_appends_no_error :
  isChatDocMode docChatSession = true
  /\ isLoading docChatSession = false
  /\ lines (run (submit "chat" sampleBackend) docChatSession)
     = (lines docChatSession
        ++ [line SYSTEM (Str "chat"); line OUTPUT (Arr ["Hello"; "World"])])%list
  /\ List.length
       (errorLines [line SYSTEM (Str "chat"); line OUTPUT (Arr ["Hello"; "World"])]) <> 1.
Proof. vm_compute. repeat split; discriminate. Qed.

(** C1, amended.  After every sequence of events of a session the two mode
    flags are not both set.  [processCommand] run for [chat] by a render
    in document chat, or for [chatdoc] by a render in chat, changes nothing
    but the line buffer, to which it appends one Error line.  [handleSubmit]
    does not reach these guards: while a chat mode is active it sends the
    input [chat] or [chatdoc] to the active conversation, which keeps the
    flags and appends the echo of the input and the Output line of the
    answer. *)
Theorem mode_exclusion :
  (forall events : list Event, exclusive (run events initialState))
  /\ (forall (snap : State) (b : Backend) (st : State),
        isChatDocMode snap = true ->
        processCommand snap b "chat" st =
        (Returned tt,
         setLines (push (line ERROR
           (Str "Already in document chat mode. Type `exit` to leave first."))) st))
  /\ (forall (snap : State) (b : Backend) (st : State),
        isChatMode snap = true ->
        processCommand snap b "chatdoc" st =
        (Returned tt,
         setLines (push (line ERROR
           (Str "Already in regular chat mode. Type `exit` to leave first."))) st))
  /\ (forall (st : State) (b : Backend),
        isLoading st = false -> isListening st = false ->
        isChatMode st = false -> isChatDocMode st = true ->
        JS.trim (inputValue st) = "chat" ->
        view (step st (Submit b)) =
        (false, true,
         (lines st ++ [line SYSTEM (Str "chat");
                       line OUTPUT (Arr (JS.split JS.LF (concatFragments
                         (yielded (sendChatDocMessageStream b "chat")))))])%list,
         (calls st ++ [CallSendChatDocMessageStream "chat"])%list))
  /\ (forall (st : State) (b : Backend),
        isLoading st = false -> isListening st = false ->
        isChatMode st = true -> isChatDocMode st = false ->
        JS.trim (inputValue st) = "chatdoc" ->
        view (step st (Submit b)) =
        (true, false,
         (lines st ++ [line SYSTEM (Str "chatdoc");
                       line OUTPUT (Arr (JS.split JS.LF (concatFragments
                         (yielded (sendChatMessageStream b "chatdoc")))))])%list,
         (calls st ++ [CallSendChatMessageStream "chatdoc"])%list)).
Proof.
  split; [intro events; apply run_exclusive; reflexivity|].
  split; [exact processCommand_chat_guard|].
  split; [exact processCommand_chatdoc_guard|].
  split.
  - intros st b Hl Hli Hc Hd Ht.
    rewrite (submit_in_docchat st b Hl Hli Hc Hd); rewrite Ht;
      [reflexivity | reflexivity | discriminate].
  - intros st b Hl Hli Hc Hd Ht.
    rewrite (submit_in_chat st b Hl Hli Hc Hd); rewrite Ht;
      [reflexivity | reflexivity | discriminate].
Qed.

Lemma mode_exclusion_witness :
  isChatDocMode docChatSession = true
  /\ isChatMode chatSession = true
  /\ snd (processCommand docChatSession sampleBackend "chat" docChatSession)
     = setLines (push (line ERROR
         (Str "Already in document chat mode. Type `exit` to leave first.")))
         docChatSession
  /\ snd (processCommand chatSession sampleBackend "chatdoc" chatSession)
     = setLines (push (line ERROR
         (Str "Already in regular chat mode. Type `exit` to leave first.")))
         chatSession
  /\ isChatMode (step (step docChatSession (InputChange "chat")) (Submit sampleBackend))
     = false
  /\ isChatDocMode (step (step chatSession (InputChange "chatdoc")) (Submit sampleBackend))
     = false.
Proof.
  assert (Hd : isChatDocMode docChatSession = true) by (vm_compute; reflexivity).
  assert (Hc : isChatMode chatSession = true) by (vm_compute; reflexivity).
  destruct mode_exclusion as [_ [G1 [G2 [F1 F2]]]].
  split; [exact Hd|]. split; [exact Hc|].
  split; [rewrite (G1 docChatSession sampleBackend docChatSession Hd); reflexivity|].
  split; [rewrite (G2 chatSession sampleBackend chatSession Hc); reflexivity|].
  split.
  - assert (V := F1 (step docChatSession (InputChange "chat")) sampleBackend).
    unfold view in V.
    assert (E : isChatMode (step (step docChatSession (InputChange "chat"))
                  (Submit sampleBackend)) = false).
    { refine (f_equal (fun v => fst (fst (fst v))) (V _ _ _ _ _));
        vm_compute; reflexivity. }
    exact E.
  - assert (V := F2 (step chatSession (InputChange "chatdoc")) sampleBackend).
    unfold view in V.
    assert (E : isChatDocMode (step (step chatSession (InputChange "chatdoc"))
                  (Submit sampleBackend)) = false).
    { refine (f_equal (fun v => snd (fst (fst v))) (V _ _ _ _ _));
        vm_compute; reflexivity. }
    exact E.
Defined.

(** ** The search stream *)

Lemma forAwaitEvents_buffer (events : list StreamEvent) :
  forall renders streamedText queue st,
    fst (fst (forAwaitEvents events renders streamedText queue st))
    = streamedText ++ concatFragments (chunkTexts events).
Proof.
  induction events as [|[text|srcs] events IH]; intros renders buf queue st; simpl.
  - now rewrite append_nil_r.
  - destruct (hd false renders); now rewrite IH, append_assoc.
  - destruct (hd false renders); apply IH.
Qed.

Lemma setTextIfOutput_twice (x y : Text) (l : Line) :
  setTextIfOutput x (setTextIfOutput y l) = setTextIfOutput x l.
Proof.
  unfold setTextIfOutput. destruct (LineType_eqb (type l) OUTPUT) eqn:E; simpl.
  - rewrite E. reflexivity.
  - rewrite E. reflexivity.
Qed.

Lemma mutateLast_sources_tail (x : Text) (l m : list Line) :
  m <> [] -> Forall (fun s => type s = SOURCES) m ->
  mutateLast (setTextIfOutput x) (l ++ m)%list = (l ++ m)%list.
Proof.
  intros Hm Hall. destruct (exists_last Hm) as [m' [s ->]].
  rewrite app_assoc, mutateLast_push. f_equal. f_equal.
  apply Forall_app in Hall. destruct Hall as [_ Hs].
  inversion Hs as [|? ? Hty _]; subst.
  unfold setTextIfOutput. rewrite Hty. reflexivity.
Qed.

Lemma chunkTexts_chunks (texts : list string) : chunkTexts (map EvChunk texts) = texts.
Proof. induction texts as [|t texts IH]; simpl; [reflexivity | now rewrite IH]. Qed.

Lemma chunkTexts_app (events events' : list StreamEvent) :
  chunkTexts (events ++ events')%list = (chunkTexts events ++ chunkTexts events')%list.
Proof.
  induction events as [|[t|s] events IH]; simpl; [reflexivity | now rewrite IH | exact IH].
Qed.

Lemma sourceLists_app (events events' : list StreamEvent) :
  sourceLists (events ++ events')%list = (sourceLists events ++ sourceLists events')%list.
Proof.
  induction events as [|[text|srcs] events IH]; simpl; [reflexivity | exact IH|].
  now rewrite IH.
Qed.

Lemma sourceLists_chunks (texts : list string) : sourceLists (map EvChunk texts) = [].
Proof. induction texts as [|t texts IH]; simpl; [reflexivity | exact IH]. Qed.

Lemma hasSources_lists (events : list StreamEvent) :
  hasSources events = false <-> sourceLists events = [].
Proof.
  induction events as [|[text|srcs] events IH]; simpl; [tauto | exact IH|].
  split; discriminate.
Qed.

Lemma hasSources_app (events events' : list StreamEvent) :
  hasSources (events ++ events')%list = hasSources events || hasSources events'.
Proof. apply existsb_app. Qed.

(** *** The queued updaters, run *)

Lemma all_sources_lines (lists : list (list Source)) :
  Forall (fun s => type s = SOURCES) (map sourcesLine lists).
Proof.
  apply Forall_forall. intros x Hx. apply in_map_iff in Hx.
  destruct Hx as [y [<- _]]. reflexivity.
Qed.

(** Once the last line is a Sources line, the updater of a chunk event
    writes nothing and that of a sources event appends its line. *)
Lemma afterUpdates_sources (pending : list StreamEvent) (streamedText : string) :
  forall l s, type s = SOURCES ->
    afterUpdates pending streamedText (l ++ [s])%list
    = ((l ++ [s]) ++ map sourcesLine (sourceLists pending))%list.
Proof.
  unfold afterUpdates.
  induction pending as [|[text|srcs] pending IH]; intros l s Hs; simpl.
  - now rewrite app_nil_r.
  - unfold chunkUpdater at 1. rewrite mutateLast_push. unfold setTextIfOutput at 1.
    rewrite Hs. cbn [LineType_eqb]. now apply IH.
  - unfold sourcesUpdater at 1. rewrite mutateLast_push. unfold setTextIfOutput at 1.
    rewrite Hs. cbn [LineType_eqb].
    change (mkLine SOURCES (Str "") (Some srcs)) with (sourcesLine srcs).
    rewrite (IH (l ++ [s])%list (sourcesLine srcs) eq_refl).
    now rewrite <- !app_assoc.
Qed.

Lemma outputAfter_type (pending : list StreamEvent) (streamedText : string) :
  forall o, type (outputAfter pending streamedText o) = type o
            /\ sources (outputAfter pending streamedText o) = sources o.
Proof.
  induction pending as [|[text|srcs] pending IH]; intro o; simpl.
  - now split.
  - destruct (IH (withText (Str streamedText) o)) as [H1 H2]. now rewrite H1, H2.
  - now split.
Qed.

Lemma outputAfter_sources (pending : list StreamEvent) (streamedText : string) :
  forall o, hasSources pending = true ->
    outputAfter pending streamedText o
    = mkLine (type o) (Arr (JS.split JS.LF streamedText)) (sources o).
Proof.
  induction pending as [|[text|srcs] pending IH]; intros o H; simpl in *.
  - discriminate H.
  - now rewrite (IH _ H).
  - reflexivity.
Qed.

(** While the last line is the Output line, the updaters of chunk events
    write the buffer to it, and the updater of the first sources event
    writes the buffer split on line breaks and appends its line. *)
Lemma afterUpdates_output (pending : list StreamEvent) (streamedText : string) :
  forall base o, type o = OUTPUT ->
    afterUpdates pending streamedText (base ++ [o])%list
    = (base ++ outputAfter pending streamedText o
       :: map sourcesLine (sourceLists pending))%list.
Proof.
  induction pending as [|[text|srcs] pending IH]; intros base o Ho.
  - reflexivity.
  - unfold afterUpdates. cbn [map updaterOf fold_left].
    unfold chunkUpdater at 1. rewrite mutateLast_push. unfold setTextIfOutput at 1.
    rewrite Ho. cbn [LineType_eqb].
    exact (IH base (withText (Str streamedText) o) Ho).
  - unfold afterUpdates. cbn [map updaterOf fold_left].
    unfold sourcesUpdater at 1. rewrite mutateLast_push. unfold setTextIfOutput at 1.
    rewrite Ho. cbn [LineType_eqb].
    change (mkLine SOURCES (Str "") (Some srcs)) with (sourcesLine srcs).
    pose proof (afterUpdates_sources pending streamedText
                  (base ++ [withText (Arr (JS.split JS.LF streamedText)) o])%list
                  (sourcesLine srcs) eq_refl) as A.
    unfold afterUpdates in A. rewrite A. cbn [sourceLists map outputAfter].
    now rewrite <- !app_assoc.
Qed.

Lemma afterUpdates_app (pending pending' : list StreamEvent) (streamedText : string)
  (ls : list Line) :
  afterUpdates (pending ++ pending')%list streamedText ls
  = afterUpdates pending' streamedText (afterUpdates pending streamedText ls).
Proof. unfold afterUpdates. now rewrite map_app, fold_left_app. Qed.

(** *** The lines at the end of a search *)

Lemma finalLines_nil (renders : list bool) (streamedText : string)
  (pending : list StreamEvent) (st : State) :
  finalLines [] renders streamedText pending st
  = finalUpdater streamedText (afterUpdates pending streamedText (lines st)).
Proof.
  unfold finalLines, flush, afterUpdates. cbn [forAwaitEvents lines setLines].
  now rewrite fold_left_app.
Qed.

Lemma finalLines_cons (event : StreamEvent) (events : list StreamEvent)
  (renders : list bool) (streamedText : string) (pending : list StreamEvent) (st : State) :
  finalLines (event :: events) renders streamedText pending st
  = let streamedText' :=
      match event with
      | EvChunk text => streamedText ++ text
      | EvSources _ => streamedText
      end in
    if hd false renders
    then finalLines events (tl renders) streamedText' []
           (setLines (afterUpdates (pending ++ [event]) streamedText') st)
    else finalLines events (tl renders) streamedText' (pending ++ [event])%list st.
Proof.
  unfold finalLines. cbn [forAwaitEvents]. cbv zeta.
  replace (map updaterOf pending ++ [match event with
                                      | EvChunk _ => chunkUpdater
                                      | EvSources sources => sourcesUpdater sources
                                      end])%list
    with (map updaterOf (pending ++ [event])%list)
    by (rewrite map_app; destruct event; reflexivity).
  destruct (hd false renders); reflexivity.
Qed.

(** After the update of a sources event was applied, nothing is written
    to the Output line any more. *)
Lemma finalLines_after_sources (events : list StreamEvent) :
  forall renders streamedText pending st l s,
    lines st = (l ++ [s])%list -> type s = SOURCES ->
    finalLines events renders streamedText pending st
    = (lines st ++ map sourcesLine (sourceLists pending ++ sourceLists events))%list.
Proof.
  induction events as [|event events IH]; intros renders buf pending st l s Hl Hs.
  - rewrite finalLines_nil, Hl, (afterUpdates_sources pending buf l s Hs).
    rewrite app_nil_r. unfold finalUpdater.
    destruct (sourceLists pending) as [|srcs lists] eqn:E.
    + cbn [map]. rewrite app_nil_r, mutateLast_push. unfold setTextIfOutput.
      now rewrite Hs.
    + rewrite <- app_assoc. apply mutateLast_sources_tail; [destruct l; discriminate|].
      apply Forall_app. split; [now repeat constructor | apply all_sources_lines].
  - rewrite finalLines_cons. cbv zeta.
    set (buf' := match event with EvChunk text => buf ++ text | EvSources _ => buf end).
    destruct (hd false renders).
    + pose proof (afterUpdates_sources (pending ++ [event]) buf' l s Hs) as A.
      rewrite <- Hl in A.
      destruct (exists_last (l := (lines st
                  ++ map sourcesLine (sourceLists (pending ++ [event])))%list))
        as [l' [s' E']]; [rewrite Hl; destruct l; discriminate|].
      assert (Hs' : type s' = SOURCES).
      { assert (F : Forall (fun x => type x = SOURCES)
                      ([s] ++ map sourcesLine (sourceLists (pending ++ [event])))%list).
        { apply Forall_app. split; [now repeat constructor | apply all_sources_lines]. }
        rewrite Hl, <- app_assoc in E'.
        destruct (exists_last (l := ([s] ++ map sourcesLine
                                       (sourceLists (pending ++ [event])))%list))
          as [m [x Em]]; [discriminate|].
        rewrite Em in E', F. rewrite app_assoc in E'.
        apply app_inj_tail in E' as [_ <-].
        apply Forall_app in F as [_ F]. now inversion F. }
      rewrite (IH (tl renders) buf' [] _ l' s'); [| cbn [lines setLines]; rewrite A; exact E'
                                                  | exact Hs'].
      cbn [lines setLines sourceLists app]. rewrite A, sourceLists_app.
      rewrite <- app_assoc, <- map_app, <- app_assoc. destruct event; reflexivity.
    + rewrite (IH (tl renders) buf' (pending ++ [event])%list st l s Hl Hs).
      rewrite sourceLists_app, <- app_assoc. destruct event; reflexivity.
Qed.

(** While no update of a sources event was applied, the Output line ends
    with the buffer as it is when React applies the first such update,
    or with the whole buffer when there is none. *)
Lemma finalLines_output (events : list StreamEvent) :
  forall renders streamedText pending st base o,
    lines st = (base ++ [o])%list -> type o = OUTPUT ->
    finalLines events renders streamedText pending st
    = (base
       ++ mkLine OUTPUT
            (Arr (JS.split JS.LF
               (streamedText
                ++ concatFragments
                     (chunkTexts (shownEvents events renders (hasSources pending))))))
            (sources o)
       :: map sourcesLine (sourceLists pending ++ sourceLists events))%list.
Proof.
  induction events as [|event events IH]; intros renders buf pending st base o Hl Ho.
  - rewrite finalLines_nil, Hl, (afterUpdates_output pending buf base o Ho).
    cbn [shownEvents chunkTexts concatFragments fold_right]. rewrite append_nil_r, app_nil_r.
    unfold finalUpdater.
    destruct (outputAfter_type pending buf o) as [T S].
    destruct (hasSources pending) eqn:H.
    + rewrite (outputAfter_sources pending buf o H), Ho.
      destruct (sourceLists pending) as [|srcs lists] eqn:E.
      { apply hasSources_lists in E. congruence. }
      change (base ++ ?x :: ?m)%list with (base ++ [x] ++ m)%list.
      rewrite app_assoc. apply mutateLast_sources_tail; [discriminate|].
      apply (all_sources_lines (srcs :: lists)).
    + apply hasSources_lists in H. rewrite H. cbn [map].
      rewrite mutateLast_push. unfold setTextIfOutput. rewrite T, Ho. cbn [LineType_eqb].
      unfold withText. now rewrite T, S, Ho.
  - rewrite finalLines_cons. cbv zeta.
    set (buf' := match event with EvChunk text => buf ++ text | EvSources _ => buf end).
    assert (Hbuf : forall shown,
              buf ++ concatFragments (chunkTexts (event :: shown))
              = buf' ++ concatFragments (chunkTexts shown)).
    { intro shown. unfold buf'. destruct event; cbn [chunkTexts concatFragments fold_right];
        [now rewrite append_assoc | reflexivity]. }
    assert (Hseen : hasSources (pending ++ [event]) = hasSources pending || isSources event).
    { rewrite hasSources_app. unfold hasSources at 2. cbn [existsb]. now rewrite orb_false_r. }
    cbn [shownEvents]. cbv zeta. rewrite <- Hseen.
    destruct (hd false renders).
    + pose proof (afterUpdates_output (pending ++ [event]) buf' base o Ho) as A.
      rewrite <- Hl in A.
      destruct (outputAfter_type (pending ++ [event]) buf' o) as [T S].
      destruct (hasSources (pending ++ [event])) eqn:H; cbn [andb].
      * (* the update of a sources event is applied now *)
        rewrite (outputAfter_sources _ buf' o H), Ho in A.
        destruct (sourceLists (pending ++ [event])) as [|srcs lists] eqn:E.
        { apply hasSources_lists in E. congruence. }
        destruct (exists_last (l := (sourcesLine srcs :: map sourcesLine lists)))
          as [m [s' Em]]; [discriminate|].
        assert (Hs' : type s' = SOURCES).
        { pose proof (all_sources_lines (srcs :: lists)) as F. cbn [map] in F.
          rewrite Em in F. apply Forall_app in F as [_ F]. now inversion F. }
        cbn [map] in A. rewrite Em in A.
        rewrite (finalLines_after_sources events (tl renders) buf' [] _
                   (base ++ mkLine OUTPUT (Arr (JS.split JS.LF buf')) (sources o) :: m)%list
                   s');
          [ | cbn [lines setLines]; rewrite A;
              now rewrite <- !app_assoc, <- app_comm_cons
            | exact Hs'].
        cbn [lines setLines sourceLists app]. rewrite A, Hbuf.
        cbn [chunkTexts concatFragments fold_right]. rewrite append_nil_r.
        match goal with |- _ = (_ ++ _ :: map sourcesLine ?x)%list =>
          assert (X : x = ((srcs :: lists) ++ sourceLists events)%list)
            by (rewrite <- E, sourceLists_app, <- app_assoc; destruct event; reflexivity);
          rewrite X
        end.
        rewrite map_app. change (map sourcesLine (srcs :: lists))
          with (sourcesLine srcs :: map sourcesLine lists).
        rewrite Em, <- app_assoc. reflexivity.
      * (* only updates of chunk events are applied *)
        assert (E : sourceLists (pending ++ [event]) = []) by now apply hasSources_lists.
        rewrite E in A. cbn [map] in A.
        rewrite (IH (tl renders) buf' [] _ base (outputAfter (pending ++ [event]) buf' o));
          [ | cbn [lines setLines]; exact A | now rewrite T].
        cbn [hasSources existsb sourceLists app]. rewrite S, Hbuf.
        rewrite sourceLists_app in E. apply app_eq_nil in E as [E1 E2].
        rewrite E1. destruct event; [reflexivity | discriminate E2].
    + rewrite (IH (tl renders) buf' (pending ++ [event])%list st base o Hl Ho).
      rewrite andb_false_r, Hbuf, sourceLists_app, <- app_assoc.
      destruct event; reflexivity.
Qed.

(** Only the lines change during the loop. *)
Lemma forAwaitEvents_frame (events : list StreamEvent) :
  forall renders streamedText queue st f,
    setLines f (snd (forAwaitEvents events renders streamedText queue st))
    = setLines
        (fun _ => f (lines (snd (forAwaitEvents events renders streamedText queue st))))
        st.
Proof.
  induction events as [|event events IH]; intros renders buf queue st f; cbn [forAwaitEvents].
  - reflexivity.
  - cbv zeta. destruct (hd false renders); rewrite IH; reflexivity.
Qed.

(** The state a search ends in. *)
Lemma handleSearch_spec (b : Backend) (prompt : string) (st : State) :
  handleSearch b prompt st =
  (completion (searchWithGoogleStream b prompt),
   setIsLoading false
     (logCall (CallSearchWithGoogleStream prompt)
        (setLines
           (fun prev =>
              (prev
               ++ line OUTPUT
                    (Arr (JS.split JS.LF
                       (concatFragments
                          (chunkTexts
                             (shownEvents (yielded (searchWithGoogleStream b prompt))
                                (renders b) false)))))
               :: map sourcesLine
                    (sourceLists (yielded (searchWithGoogleStream b prompt))))%list)
           st))).
Proof.
  unfold handleSearch.
  set (st1 := logCall (CallSearchWithGoogleStream prompt)
                (setLines (push (line OUTPUT (Str ""))) (setIsLoading true st))).
  set (events := yielded (searchWithGoogleStream b prompt)).
  pose proof (finalLines_output events (renders b) "" [] st1 (lines st)
                (line OUTPUT (Str "")) eq_refl eq_refl) as F.
  unfold finalLines in F. cbn [map] in F.
  pose proof (forAwaitEvents_frame events (renders b) "" [] st1) as Fr.
  destruct (forAwaitEvents events (renders b) "" [] st1) as [[buf queue] st2].
  cbn [snd] in Fr. f_equal. unfold flush in *. rewrite Fr.
  cbn [lines setLines] in F. rewrite F. reflexivity.
Qed.

Lemma handleSearch_clears_busy (b : Backend) (prompt : string) (st : State) :
  isLoading (snd (handleSearch b prompt st)) = false.
Proof. now rewrite handleSearch_spec. Qed.

Lemma shownEvents_prefix (events : list StreamEvent) :
  forall renders seen, exists later,
    events = (shownEvents events renders seen ++ later)%list.
Proof.
  induction events as [|event events IH]; intros renders seen; cbn [shownEvents].
  - now exists [].
  - cbv zeta. destruct ((seen || isSources event) && hd false renders).
    + now exists events.
    + destruct (IH (tl renders) (seen || isSources event)) as [later E].
      exists later. cbn [app]. now rewrite <- E.
Qed.

(** Without a sources event everything is shown. *)
Lemma shownEvents_chunks (texts : list string) :
  forall renders, shownEvents (map EvChunk texts) renders false = map EvChunk texts.
Proof.
  induction texts as [|t texts IH]; intro renders; cbn [map shownEvents]; [reflexivity|].
  cbv zeta. cbn [isSources orb andb]. now rewrite IH.
Qed.

(** With a sources event, the chunks before it are shown, and with them
    the events consumed until React renders. *)
Lemma shownEvents_sources (texts : list string) (srcs : list Source)
  (rest : list StreamEvent) :
  forall renders,
    shownEvents (map EvChunk texts ++ EvSources srcs :: rest) renders false
    = (map EvChunk texts
       ++ EvSources srcs
          :: if nth (List.length texts) renders false then []
             else shownEvents rest (skipn (S (List.length texts)) renders) true)%list.
Proof.
  induction texts as [|t texts IH]; intro renders.
  - cbn [map app shownEvents List.length]. cbv zeta. cbn [isSources orb andb].
    destruct renders as [|r renders]; [reflexivity|]. cbn [hd tl nth skipn].
    destruct r; reflexivity.
  - cbn [map app shownEvents List.length]. cbv zeta. cbn [isSources orb andb].
    rewrite IH. destruct renders as [|r renders]; cbn [tl nth skipn]; [|reflexivity].
    destruct (List.length texts); reflexivity.
Qed.

(** Once a sources event was consumed, the events shown end at the first
    render. *)
Lemma shownEvents_seen_rendered (events : list StreamEvent) (renders : list bool) :
  hd false renders = true -> shownEvents events renders true = firstn 1 events.
Proof.
  intros H. destruct events as [|event events]; [reflexivity|].
  cbn [shownEvents firstn]. cbv zeta. now rewrite H.
Qed.

Lemma shownEvents_never_rendered (events : list StreamEvent) :
  forall seen, shownEvents events [] seen = events.
Proof.
  induction events as [|event events IH]; intro seen; cbn [shownEvents]; [reflexivity|].
  cbv zeta. cbn [hd tl]. now rewrite andb_false_r, IH.
Qed.

(** C3, as stated, fails: when React renders between the events, the
    chunk [b] that follows the sources event enters the running buffer,
    which ends as [ab], but neither a later event nor the end of the
    stream writes that buffer to the Output line, which keeps the content
    [a] it had when the update of the sources event was applied. *)
Lemma search_chunk_after_sources_not_shown :
  yielded (searchWithGoogleStream sampleBackend "q")
  = [EvChunk "a"; EvSources [mkSource "t" "u"]; EvChunk "b"]
  /\ renders sampleBackend = [true; true; true]
  /\ fst (fst (forAwaitEvents (yielded (searchWithGoogleStream sampleBackend "q"))
                 (renders sampleBackend) "" [] initialState)) = "ab"
  /\ lines (snd (handleSearch sampleBackend "q" initialState))
     = (lines initialState
        ++ [line OUTPUT (Arr ["a"]); sourcesLine [mkSource "t" "u"]])%list
  /\ Arr (JS.split JS.LF "ab") <> Arr ["a"].
Proof. vm_compute. repeat split; discriminate. Qed.

(** C3, amended.  A search appends one Output line and, after it, one
    Sources line for each sources event of the stream, in order; every
    chunk extends the same running buffer.  The Output line is written
    for the last time when React applies the update queued for the first
    sources event, with the buffer as it is at that moment, split on line
    breaks: this is the text of the chunks before that event and of the
    chunks consumed until React renders, none when React renders right
    after the event, all of them when the events come back to back.  The
    Output line is not written again: a later sources event appends its
    Sources line only, and the end of the stream writes the whole buffer,
    split on line breaks, to the Output line only when the stream had no
    sources event.  The busy flag is cleared in every case. *)
Theorem search_sources_finalization (b : Backend) (prompt : string) (st : State) :
  let events := yielded (searchWithGoogleStream b prompt) in
  let shown := shownEvents events (renders b) false in
  lines (snd (handleSearch b prompt st))
  = (lines st
     ++ line OUTPUT (Arr (JS.split JS.LF (concatFragments (chunkTexts shown))))
        :: map sourcesLine (sourceLists events))%list
  /\ isLoading (snd (handleSearch b prompt st)) = false
  /\ (forall queue st1,
        fst (fst (forAwaitEvents events (renders b) "" queue st1))
        = concatFragments (chunkTexts events))
  /\ (exists later, events = (shown ++ later)%list)
  /\ (forall texts, events = map EvChunk texts -> shown = events)
  /\ (forall texts srcs rest,
        events = (map EvChunk texts ++ EvSources srcs :: rest)%list ->
        exists more,
          shown = (map EvChunk texts ++ EvSources srcs :: more)%list
          /\ (nth (List.length texts) (renders b) false = true -> more = [])
          /\ (renders b = [] -> more = rest)).
Proof.
  intros events shown.
  split; [rewrite handleSearch_spec; reflexivity|].
  split; [apply handleSearch_clears_busy|].
  split; [intros queue st1; now rewrite forAwaitEvents_buffer|].
  split; [apply shownEvents_prefix|].
  split.
  - intros texts E. unfold shown. rewrite E. apply shownEvents_chunks.
  - intros texts srcs rest E. unfold shown. rewrite E, shownEvents_sources.
    eexists. split; [reflexivity|]. split.
    + intros R. now rewrite R.
    + intros R. rewrite R. destruct (List.length texts); cbn [nth skipn];
        apply shownEvents_never_rendered.
Qed.

Lemma search_sources_finalization_witness :
  yielded (searchWithGoogleStream sampleBackend "q")
  = (map EvChunk ["a"] ++ EvSources [mkSource "t" "u"] :: [EvChunk "b"])%list
  /\ nth 1 (renders sampleBackend) false = true
  /\ lines (snd (handleSearch sampleBackend "q" initialState))
     = (WELCOME_LINES ++ [line OUTPUT (Arr ["a"]); sourcesLine [mkSource "t" "u"]])%list
  /\ renders batchedBackend = []
  /\ lines (snd (handleSearch batchedBackend "q" initialState))
     = (WELCOME_LINES ++ [line OUTPUT (Arr ["ab"]); sourcesLine [mkSource "t" "u"]])%list
  /\ yielded (searchWithGoogleStream sampleBackend "plain") = map EvChunk ["a"; "b"]
  /\ lines (snd (handleSearch sampleBackend "plain" initialState))
     = (WELCOME_LINES ++ [line OUTPUT (Arr ["ab"])])%list.
Proof.
  assert (H : yielded (searchWithGoogleStream sampleBackend "q")
              = (map EvChunk ["a"] ++ EvSources [mkSource "t" "u"] :: [EvChunk "b"])%list)
    by reflexivity.
  assert (R : nth 1 (renders sampleBackend) false = true) by reflexivity.
  assert (B : renders batchedBackend = []) by reflexivity.
  assert (P : yielded (searchWithGoogleStream sampleBackend "plain")
              = map EvChunk ["a"; "b"]) by reflexivity.
  destruct (search_sources_finalization sampleBackend "q" initialState)
    as [L1 [_ [_ [_ [_ S1]]]]].
  destruct (S1 ["a"] [mkSource "t" "u"] [EvChunk "b"] H) as [more1 [E1 [M1 _]]].
  rewrite E1, (M1 R) in L1.
  destruct (search_sources_finalization batchedBackend "q" initialState)
    as [L2 [_ [_ [_ [_ S2]]]]].
  destruct (S2 ["a"] [mkSource "t" "u"] [EvChunk "b"] H) as [more2 [E2 [_ M2]]].
  rewrite E2, (M2 B) in L2.
  destruct (search_sources_finalization sampleBackend "plain" initialState)
    as [L3 [_ [_ [_ [N3 _]]]]].
  rewrite (N3 ["a"; "b"] P) in L3.
  split; [exact H|]. split; [exact R|].
  split; [rewrite L1; vm_compute; reflexivity|].
  split; [exact B|].
  split; [rewrite L2; vm_compute; reflexivity|].
  split; [exact P|].
  rewrite L3. vm_compute. reflexivity.
Defined.

(** ** The video command *)

Lemma pollLoop_end (answers : list PollOutcome) :
  forall operation pollCount st,
    fst (pollLoop answers operation pollCount st) = pollOutcome answers operation.
Proof.
  unfold pollOutcome.
  induction answers as [|a answers IH]; intros op n st; simpl;
    destruct (done op) eqn:D; try reflexivity.
  destruct a as [op'|e]; [|reflexivity].
  unfold bind, act; simpl. apply IH.
Qed.

Lemma videoCommand_started (b : Backend) (prompt : string) (st : State)
  (operation : Operation) :
  JS.truthy prompt = true ->
  generateVideo b prompt = StartOk operation ->
  videoCommand b prompt st =
  afterPolling b prompt
    (pollLoop (getVideosOperation b) operation 0
       (logCall (CallGenerateVideo prompt)
          (setLines (fun prev => (prev ++ kickOffLines prompt)%list)
             (setIsLoading true st)))).
Proof.
  intros Hp G. unfold videoCommand, kickOffLines, afterPolling. rewrite Hp, G. cbn [negb].
  cbv beta iota delta [bind tryFinally tryCatch act ret throw].
  destruct (pollLoop (getVideosOperation b) operation 0 _) as [[op'|e|] st3];
    try reflexivity.
  destruct (JS.truthyOpt (downloadLink op')); [|reflexivity].
  destruct (fetchVideo b _); reflexivity.
Qed.

(** C4. The [video] command never rejects: it returns or it is still
    waiting for the backend.  Whenever it returns with a prompt, the busy
    flag is false.  When the backend fails at once, with an error string or
    with an exception at submission, one Error line follows the two lines
    that announce the generation and the only call made is the submission:
    the poll loop does not run.  After a submission that gave an operation,
    the command waits exactly when the answers of the backend run out
    before the operation is done; an exception while polling or while
    fetching the media ends the command with an Error line that carries its
    message, a finished operation with a download link and a successful
    fetch ends it with the Video line, and a finished operation with no
    link ends it with an Error line.  Without a prompt the command appends
    the usage line and does not touch the busy flag. *)
Theorem video_clears_busy_flag (b : Backend) (prompt : string) (st : State) :
  (forall (snap : State) (command : string) (args : list string),
     JS.toLowerCase command = "video" ->
     dispatch snap b command args = videoCommand b (JS.join " " args))
  /\ (JS.truthy prompt = false ->
      videoCommand b prompt st =
      (Returned Return,
       setLines (push (line ERROR (Str "Usage: video <a description of the video>"))) st))
  /\ (JS.truthy prompt = true ->
      let r := videoCommand b prompt st in
      (fst r = Returned Return \/ fst r = Pending)
      /\ (fst r = Returned Return -> isLoading (snd r) = false)
      /\ (forall message : string,
            generateVideo b prompt = StartFailed message ->
            fst r = Returned Return
            /\ isLoading (snd r) = false
            /\ lines (snd r)
               = (lines st ++ kickOffLines prompt ++ [line ERROR (Str message)])%list
            /\ calls (snd r) = (calls st ++ [CallGenerateVideo prompt])%list)
      /\ (forall e : Exn,
            generateVideo b prompt = StartThrows e ->
            fst r = Returned Return
            /\ isLoading (snd r) = false
            /\ lines (snd r)
               = (lines st ++ kickOffLines prompt
                  ++ [line ERROR (Str ("Error: " ++ errorMessage e))])%list
            /\ calls (snd r) = (calls st ++ [CallGenerateVideo prompt])%list)
      /\ (forall operation : Operation,
            generateVideo b prompt = StartOk operation ->
            match pollEnd (getVideosOperation b) operation with
            | PollWaiting => fst r = Pending
            | PollThrew e =>
                fst r = Returned Return
                /\ lastLineIs (snd r) (line ERROR (Str ("Error: " ++ errorMessage e)))
            | PollDone operation' =>
                fst r = Returned Return
                /\ lastLineIs (snd r)
                     (if JS.truthyOpt (downloadLink operation') then
                        match fetchVideo b
                                (JS.str (downloadLink operation') ++ "&key=" ++ API_KEY b)
                        with
                        | FetchOk objectUrl => line VIDEO (Arr [objectUrl; prompt])
                        | FetchThrows e =>
                            line ERROR (Str ("Error: " ++ errorMessage e))
                        end
                      else line ERROR (Str
                        "Video generation finished, but no video was returned. Please try a different prompt."))
            end)).
Proof.
  split.
  { intros snap command args H. unfold dispatch. rewrite H. reflexivity. }
  split.
  { intros Hp. unfold videoCommand. rewrite Hp. reflexivity. }
  intros Hp r.
  assert (Hfailed : forall message, generateVideo b prompt = StartFailed message ->
            r = (Returned Return,
                 setIsLoading false (setLines (push (line ERROR (Str message)))
                   (logCall (CallGenerateVideo prompt)
                     (setLines (fun prev => (prev ++ kickOffLines prompt)%list)
                        (setIsLoading true st)))))).
  { intros message G. unfold r, videoCommand. rewrite Hp, G. reflexivity. }
  assert (Hthrows : forall e, generateVideo b prompt = StartThrows e ->
            r = (Returned Return,
                 setIsLoading false
                   (setLines (push (line ERROR (Str ("Error: " ++ errorMessage e))))
                   (logCall (CallGenerateVideo prompt)
                     (setLines (fun prev => (prev ++ kickOffLines prompt)%list)
                        (setIsLoading true st)))))).
  { intros e G. unfold r, videoCommand. rewrite Hp, G. reflexivity. }
  assert (Hstarted : forall operation, generateVideo b prompt = StartOk operation ->
            r = afterPolling b prompt
                  (pollLoop (getVideosOperation b) operation 0
                     (logCall (CallGenerateVideo prompt)
                        (setLines (fun prev => (prev ++ kickOffLines prompt)%list)
                           (setIsLoading true st))))).
  { intros operation G. now apply videoCommand_started. }
  split; [|split; [|split; [|split]]].
  - destruct (generateVideo b prompt) as [message|operation|e] eqn:G.
    + rewrite (Hfailed message eq_refl). left; reflexivity.
    + rewrite (Hstarted operation eq_refl).
      destruct (pollLoop _ _ _ _) as [[op'|e|] st3]; unfold afterPolling;
        [|left; reflexivity|right; reflexivity].
      destruct (JS.truthyOpt (downloadLink op')); [|left; reflexivity].
      destruct (fetchVideo b _); left; reflexivity.
    + rewrite (Hthrows e eq_refl). left; reflexivity.
  - destruct (generateVideo b prompt) as [message|operation|e] eqn:G.
    + rewrite (Hfailed message eq_refl). reflexivity.
    + rewrite (Hstarted operation eq_refl).
      destruct (pollLoop _ _ _ _) as [[op'|e|] st3]; unfold afterPolling;
        [|reflexivity|discriminate].
      destruct (JS.truthyOpt (downloadLink op')); [|reflexivity].
      destruct (fetchVideo b _); reflexivity.
    + rewrite (Hthrows e eq_refl). reflexivity.
  - intros message G. rewrite (Hfailed message G). simpl.
    repeat split. unfold push. now rewrite <- app_assoc.
  - intros e G. rewrite (Hthrows e G). simpl.
    repeat split. unfold push. now rewrite <- app_assoc.
  - intros operation G. rewrite (Hstarted operation G).
    set (st2 := logCall _ _).
    pose proof (pollLoop_end (getVideosOperation b) operation 0 st2) as He.
    unfold pollOutcome in He.
    destruct (pollLoop (getVideosOperation b) operation 0 st2) as [o st3].
    simpl in He. subst o.
    destruct (pollEnd (getVideosOperation b) operation) as [op'|e|]; unfold afterPolling.
    + destruct (JS.truthyOpt (downloadLink op')).
      * destruct (fetchVideo b _); (split; [reflexivity|]); eexists; reflexivity.
      * split; [reflexivity|]. eexists; reflexivity.
    + split; [reflexivity|]. eexists; reflexivity.
    + reflexivity.
Qed.

Lemma video_clears_busy_flag_witness :
  JS.truthy "a cat" = true
  /\ isLoading (snd (videoCommand sampleBackend "a cat" initialState)) = false
  /\ lastLineIs (snd (videoCommand sampleBackend "a cat" initialState))
       (line VIDEO (Arr ["blob:1"; "a cat"]))
  /\ calls (snd (videoCommand refusingBackend "a cat" initialState))
     = [CallGenerateVideo "a cat"]
  /\ lastLineIs (snd (videoCommand failingPollBackend "a cat" initialState))
       (line ERROR (Str "Error: 503"))
  /\ JS.truthy "" = false
  /\ fst (videoCommand sampleBackend "" initialState) = Returned Return.
Proof.
  assert (Hp : JS.truthy "a cat" = true) by reflexivity.
  assert (He : JS.truthy "" = false) by reflexivity.
  destruct (video_clears_busy_flag sampleBackend "a cat" initialState)
    as [_ [_ V]].
  destruct (V Hp) as [_ [Hbusy [_ [_ Hstarted]]]].
  pose proof (Hstarted (mkOperation false None) eq_refl) as Hdone.
  destruct (video_clears_busy_flag refusingBackend "a cat" initialState)
    as [_ [_ R]].
  destruct (R Hp) as [_ [_ [Hrefused _]]].
  destruct (Hrefused "Error: API_KEY is not configured." eq_refl) as [_ [_ [_ Hcalls]]].
  destruct (video_clears_busy_flag failingPollBackend "a cat" initialState)
    as [_ [_ F]].
  destruct (F Hp) as [_ [_ [_ [_ Hfailing]]]].
  pose proof (Hfailing (mkOperation false None) eq_refl) as Hthrew.
  destruct (video_clears_busy_flag sampleBackend "" initialState) as [_ [U _]].
  split; [exact Hp|].
  split; [apply Hbusy; apply Hdone|].
  split; [apply Hdone|].
  split; [rewrite Hcalls; reflexivity|].
  split; [apply Hthrew|].
  split; [exact He|].
  rewrite (U He). reflexivity.
Defined.

(** ** The document table *)

Lemma own_set_same (d : Documents.t) (k v : string) :
  Documents.own (Documents.set d k v) k = Some v.
Proof.
  induction d as [|[k' v'] d IH]; simpl.
  - now rewrite String.eqb_refl.
  - destruct (k' =? k) eqn:E; simpl; rewrite E; [reflexivity | exact IH].
Qed.

Lemma own_set_other (d : Documents.t) (k v k' : string) :
  k' <> k -> Documents.own (Documents.set d k v) k' = Documents.own d k'.
Proof.
  intros Hne. induction d as [|[k0 v0] d IH]; simpl.
  - destruct (k =? k') eqn:E; [|reflexivity].
    apply String.eqb_eq in E. congruence.
  - destruct (k0 =? k) eqn:E; simpl.
    + apply String.eqb_eq in E. subst k0.
      destruct (k =? k') eqn:E'; [|reflexivity].
      apply String.eqb_eq in E'. congruence.
    + now rewrite IH.
Qed.

(** What [docs select] does, whatever the name. *)
Lemma docs_select_spec (snap : State) (b : Backend) (name : string) (st : State) :
  JS.truthy name = true ->
  dispatch snap b "docs" ["select"; name] st =
  if Documents.truthy (Documents.get (documents snap) name)
  then (Returned (Break [line SYSTEM (Str ("Active document set to '" ++ name ++ "'."))]),
        setActiveDoc (Some name) st)
  else (Returned (Break [line ERROR (Str ("Document '" ++ name ++ "' not found."))]), st).
Proof.
  intros Hn. unfold dispatch.
  change (switchOn (JS.toLowerCase "docs")) with case_docs. cbv iota.
  unfold docsCommand. cbn [nth_error].
  change ("select" =? "list") with false. change ("select" =? "select") with true.
  cbv iota. rewrite Hn. cbn [negb].
  destruct (Documents.truthy (Documents.get (documents snap) name)); reflexivity.
Qed.

(** C5, the code at the failing inputs.  With [notes.txt] active and the
    empty file [empty.txt] in the table, [docs select empty.txt] answers
    that the document is not found and leaves the selection on
    [notes.txt], because the test [documents[docToSelect]] is the
    truthiness of the content and not the presence of the key.  The same
    test takes a name inherited from [Object.prototype] for a document:
    with an empty table, [docs select constructor] makes [constructor]
    the active document. *)
Theorem docs_select_tests_truthiness :
  Documents.own (documents twoDocsSession) "empty.txt" = Some ""
  /\ Documents.keys (documents twoDocsSession) = ["notes.txt"; "empty.txt"]
  /\ activeDoc twoDocsSession = Some "notes.txt"
  /\ activeDoc (run (submit "docs select empty.txt" sampleBackend) twoDocsSession)
     = Some "notes.txt"
  /\ lines (run (submit "docs select empty.txt" sampleBackend) twoDocsSession)
     = (lines twoDocsSession
        ++ [line COMMAND (Str "docs select empty.txt");
            line ERROR (Str "Document 'empty.txt' not found.")])%list
  /\ Documents.own (documents initialState) "constructor" = None
  /\ activeDoc (run (submit "docs select constructor" sampleBackend) initialState)
     = Some "constructor"
  /\ lines (run (submit "docs select constructor" sampleBackend) initialState)
     = (lines initialState
        ++ [line COMMAND (Str "docs select constructor");
            line SYSTEM (Str "Active document set to 'constructor'.")])%list.
Proof. vm_compute. repeat split. Qed.

(** A file that passes the type guard and is read is stored under its
    name, the other entries of the table being kept; it becomes the
    active document when none is active, and the active document is left
    as it is otherwise.  The active name is not the empty string, which
    the test [!activeDoc] would take for no selection: no session whose
    files have names reaches such a state (lemma [activeDoc_never_empty]
    below). *)
Lemma upload_stores_and_activates (st : State) (file : File.t) (content : string) :
  mimeGuard file = false ->
  File.read file = File.ReadOk content ->
  let st' := step st (FileChange (Some file)) in
  documents st' = Documents.set (documents st) (File.name file) content
  /\ Documents.own (documents st') (File.name file) = Some content
  /\ (forall other, other <> File.name file ->
        Documents.own (documents st') other = Documents.own (documents st) other)
  /\ (activeDoc st = None -> activeDoc st' = Some (File.name file))
  /\ (forall active, activeDoc st = Some active -> active <> "" ->
        activeDoc st' = Some active).
Proof.
  intros Hg Hr st'.
  assert (Hd : documents st' = Documents.set (documents st) (File.name file) content).
  { unfold st', step, handler, handleFileChange. rewrite Hg, Hr.
    destruct (negb (JS.truthyOpt (activeDoc st))); reflexivity. }
  split; [exact Hd|].
  split; [rewrite Hd; apply own_set_same|].
  split; [intros other Hne; rewrite Hd; now apply own_set_other|].
  split.
  - intros Hn. unfold st', step, handler, handleFileChange.
    rewrite Hg, Hr, Hn. reflexivity.
  - intros active Ha Hne. unfold st', step, handler, handleFileChange.
    rewrite Hg, Hr, Ha.
    assert (Ht : JS.truthyOpt (Some active) = true).
    { simpl. unfold JS.truthy. apply String.eqb_neq in Hne. now rewrite Hne. }
    rewrite Ht. simpl. exact Ha.
Qed.

(** C6, the code at the failing input.  With an empty table,
    [docs select constructor] makes [constructor] the active document
    (claim C5).  The upload of [notes.txt] that follows is the first of the
    session: it stores the document, and it leaves [constructor] selected,
    because the test [!activeDoc] asks whether a name is selected and not
    whether the table is empty.  The code's comment on that test reads: if
    it's the first document, make it active.  The same upload in the
    initial state makes [notes.txt] the active document. *)
Theorem first_upload_not_activated :
  let st := run (submit "docs select constructor" sampleBackend) initialState in
  let st' := step st (FileChange (Some notesFile)) in
  documents st = Documents.empty
  /\ activeDoc st = Some "constructor"
  /\ mimeGuard notesFile = false
  /\ File.read notesFile = File.ReadOk "hello"
  /\ Documents.keys (documents st') = ["notes.txt"]
  /\ Documents.own (documents st') "notes.txt" = Some "hello"
  /\ activeDoc st' = Some "constructor"
  /\ activeDoc (step initialState (FileChange (Some notesFile))) = Some "notes.txt".
Proof. vm_compute. repeat split. Qed.

(** ** History recall *)

(** C7. From an empty history with the cursor at -1, in Normal mode and
    with the input enabled, submitting [a], [b] and [c], then pressing
    ArrowUp three times and ArrowDown once, leaves [b] in the input field:
    the history is [c], [b], [a], the three ArrowUp move the cursor to 0,
    1 and 2, and ArrowDown moves it back to 1. *)
Theorem history_recall (st : State) (b1 b2 b3 : Backend) :
  commandHistory st = [] -> historyIndex st = (-1)%Z ->
  isChatMode st = false -> isChatDocMode st = false ->
  isLoading st = false -> isListening st = false ->
  let typed := (submit "a" b1 ++ submit "b" b2 ++ submit "c" b3)%list in
  let keys := [KeyDown "ArrowUp"; KeyDown "ArrowUp"; KeyDown "ArrowUp";
               KeyDown "ArrowDown"] in
  commandHistory (run typed st) = ["c"; "b"; "a"]
  /\ historyIndex (run typed st) = (-1)%Z
  /\ inputValue (run (typed ++ keys)%list st) = "b"
  /\ historyIndex (run (typed ++ keys)%list st) = 1%Z.
Proof.
  intros Hh Hi Hc Hd Hl Hli.
  destruct st as [ls hist idx input sugg busy chat docchat listening docs active img log].
  cbn [commandHistory historyIndex isChatMode isChatDocMode isLoading isListening]
    in Hh, Hi, Hc, Hd, Hl, Hli.
  subst. destruct sugg as [|s sugg]; vm_compute; repeat split.
Qed.

Lemma history_recall_witness :
  commandHistory initialState = []
  /\ historyIndex initialState = (-1)%Z
  /\ inputValue
       (run (submit "a" sampleBackend ++ submit "b" sampleBackend
             ++ submit "c" sampleBackend
             ++ [KeyDown "ArrowUp"; KeyDown "ArrowUp"; KeyDown "ArrowUp";
                 KeyDown "ArrowDown"])%list initialState) = "b".
Proof.
  split; [reflexivity|]. split; [reflexivity|].
  destruct (history_recall initialState sampleBackend sampleBackend sampleBackend
              eq_refl eq_refl eq_refl eq_refl eq_refl eq_refl) as [_ [_ [H _]]].
  rewrite <- H. vm_compute. reflexivity.
Defined.

(** ** The image chain *)

Lemma tokens_nonempty_truthy (s : string) (command : string) (args : list string) :
  tokens s = command :: args -> JS.truthy s = true.
Proof.
  destruct s as [|c s]; [discriminate | reflexivity].
Qed.








(** ** Dispatch on the command token *)

Lemma switchOn_known (lowered : string) :
  switchOn lowered <> case_default <-> In lowered COMMANDS.
Proof.
  split.
  - unfold switchOn, COMMANDS. intros H.
    repeat match goal with
    | H : context [if ?x =? ?y then _ else _] |- _ =>
        destruct (String.eqb_spec x y); [subst; simpl; tauto|]
    end.
    contradiction.
  - unfold COMMANDS. intros H. simpl in H.
    repeat (destruct H as [<-|H]; [vm_compute; discriminate|]).
    contradiction.
Qed.

(** C9. The switch of [processCommand] is on the lowercased command
    token: two tokens that are equal once lowercased run the same command
    with the same effect, whenever that lowercased token is one of the
    sixteen command names; so [HELP] prints the help text and [Chat]
    enters chat mode.  For any other token the one line appended is the
    Error line [command not found:] followed by the token as it was typed,
    not lowercased.  The last two parts are the same facts for a line
    submitted in Normal mode at the start of a session. *)
Theorem command_token_case_insensitive (snap : State) (b : Backend) (st : State) :
  (forall (command command' : string) (args : list string),
     JS.toLowerCase command = JS.toLowerCase command' ->
     In (JS.toLowerCase command) COMMANDS ->
     dispatch snap b command args = dispatch snap b command' args)
  /\ processCommand snap b "HELP" st = processCommand snap b "help" st
  /\ processCommand snap b "HELP" st
     = (Returned tt, setLines (fun prev => (prev ++ [line OUTPUT (Arr HELP_TEXT)])%list) st)
  /\ processCommand snap b "Chat" st = processCommand snap b "chat" st
  /\ (isChatDocMode snap = false ->
      isChatMode (snd (processCommand snap b "Chat" st)) = true)
  /\ (forall (command : string) (args : list string),
        ~ In (JS.toLowerCase command) COMMANDS ->
        dispatch snap b command args st
        = (Returned (Break [line ERROR (Str ("command not found: " ++ command))]), st))
  /\ processCommand snap b "FooBar --now" st
     = (Returned tt,
        setLines (fun prev =>
          (prev ++ [line ERROR (Str "command not found: FooBar")])%list) st)
  /\ lines (run (submit "HELP" b) initialState)
     = (WELCOME_LINES ++ [line COMMAND (Str "HELP"); line OUTPUT (Arr HELP_TEXT)])%list
  /\ lines (run (submit "FooBar --now" b) initialState)
     = (WELCOME_LINES ++ [line COMMAND (Str "FooBar --now");
                          line ERROR (Str "command not found: FooBar")])%list.
Proof.
  split.
  { intros command command' args Heq Hin. apply switchOn_known in Hin.
    unfold dispatch. rewrite <- Heq.
    destruct (switchOn (JS.toLowerCase command)); try reflexivity. contradiction. }
  split; [reflexivity|].
  split; [reflexivity|].
  split; [reflexivity|].
  split.
  { intros Hd. unfold processCommand.
    change (tokens "Chat") with ["Chat"]. unfold dispatch.
    change (switchOn (JS.toLowerCase "Chat")) with case_chat. cbv iota.
    rewrite Hd. reflexivity. }
  split.
  { intros command args Hnot. unfold dispatch.
    destruct (switchOn (JS.toLowerCase command)) eqn:E; try reflexivity;
      exfalso; apply Hnot; apply switchOn_known; rewrite E; discriminate. }
  split; [reflexivity|].
  split; vm_compute; reflexivity.
Qed.

Lemma command_token_case_insensitive_witness :
  JS.toLowerCase "HELP" = JS.toLowerCase "help"
  /\ In (JS.toLowerCase "HELP") COMMANDS
  /\ dispatch initialState sampleBackend "HELP" [] initialState
     = (Returned (Break [line OUTPUT (Arr HELP_TEXT)]), initialState)
  /\ isChatDocMode initialState = false
  /\ isChatMode (snd (processCommand initialState sampleBackend "Chat" initialState)) = true
  /\ ~ In (JS.toLowerCase "FooBar") COMMANDS
  /\ dispatch initialState sampleBackend "FooBar" ["--now"] initialState
     = (Returned (Break [line ERROR (Str "command not found: FooBar")]), initialState).
Proof.
  assert (Heq : JS.toLowerCase "HELP" = JS.toLowerCase "help") by reflexivity.
  assert (Hin : In (JS.toLowerCase "HELP") COMMANDS) by (vm_compute; tauto).
  assert (Hnot : ~ In (JS.toLowerCase "FooBar") COMMANDS).
  { vm_compute. intros H.
    repeat (destruct H as [H|H]; [discriminate H|]). exact H. }
  destruct (command_token_case_insensitive initialState sampleBackend initialState)
    as [Hsame [_ [_ [_ [Hchat [Hunknown _]]]]]].
  split; [exact Heq|]. split; [exact Hin|].
  split; [rewrite (Hsame "HELP" "help" [] Heq Hin); reflexivity|].
  split; [reflexivity|].
  split; [exact (Hchat eq_refl)|].
  split; [exact Hnot|].
  exact (Hunknown "FooBar" ["--now"] Hnot).
Defined.

(** ** The type guard of the upload *)

Lemma mimeGuard_spec (file : File.t) :
  mimeGuard file = true <->
  exists type, File.type file = Some type /\ type <> ""
               /\ JS.startsWith type "text/" = false.
Proof.
  unfold mimeGuard. destruct (File.type file) as [type|].
  - split.
    + intros H. apply andb_true_iff in H. destruct H as [Ht Hs].
      exists type. split; [reflexivity|]. split.
      * unfold JS.truthy in Ht. apply negb_true_iff in Ht.
        now apply String.eqb_neq in Ht.
      * now apply negb_true_iff in Hs.
    + intros [t [Heq [Hne Hs]]]. injection Heq as <-.
      apply andb_true_iff. split.
      * unfold JS.truthy. apply negb_true_iff. now apply String.eqb_neq.
      * now apply negb_true_iff.
  - split; [discriminate|]. intros [t [Heq _]]. discriminate.
Qed.

(** C10. The guard of [handleFileChange] is true exactly when the
    reported type is a string that is not empty and does not start with
    [text/].  A file stopped by the guard gets one Error line and is not
    read: nothing else changes, whatever reading it would have given.  A
    file whose type is the empty string or is undefined passes the guard
    and is handled as the same file reported as [text/plain] is: it is
    read, and its content, when the read succeeds, is stored under its
    name. *)
Theorem mime_guard (snap st : State) (file : File.t) :
  (mimeGuard file = true <->
   exists type, File.type file = Some type /\ type <> ""
                /\ JS.startsWith type "text/" = false)
  /\ (mimeGuard file = true ->
      handleFileChange snap (Some file) st
      = (Returned tt,
         setLines (push (line ERROR (Str
           ("Error: Cannot upload file of type '" ++ typeText file
            ++ "'. Please select a text file.")))) st))
  /\ (File.type file = None \/ File.type file = Some "" ->
      mimeGuard file = false
      /\ handleFileChange snap (Some file) st
         = handleFileChange snap
             (Some (File.mk (File.name file) (Some "text/plain") (File.read file))) st
      /\ calls (snd (handleFileChange snap (Some file) st))
         = (calls st ++ [CallReadAsText (File.name file)])%list
      /\ (forall content, File.read file = File.ReadOk content ->
            documents (snd (handleFileChange snap (Some file) st))
            = Documents.set (documents st) (File.name file) content)).
Proof.
  split; [apply mimeGuard_spec|].
  split.
  { intros Hg. unfold handleFileChange. rewrite Hg. reflexivity. }
  intros Hty.
  assert (Hg : mimeGuard file = false).
  { unfold mimeGuard. destruct Hty as [-> | ->]; reflexivity. }
  split; [exact Hg|].
  unfold handleFileChange. rewrite Hg.
  change (mimeGuard (File.mk (File.name file) (Some "text/plain") (File.read file)))
    with false.
  cbn [File.name File.read].
  split; [reflexivity|].
  split.
  - destruct (File.read file); destruct (negb (JS.truthyOpt (activeDoc snap))); reflexivity.
  - intros content Hr. rewrite Hr.
    destruct (negb (JS.truthyOpt (activeDoc snap))); reflexivity.
Qed.

Lemma mime_guard_witness :
  mimeGuard (File.mk "photo.png" (Some "image/png") (File.ReadOk "bytes")) = true
  /\ documents (snd (handleFileChange initialState
       (Some (File.mk "photo.png" (Some "image/png") (File.ReadOk "bytes")))
       initialState)) = Documents.empty
  /\ File.type (File.mk "Makefile" (Some "") (File.ReadOk "all:")) = Some ""
  /\ documents (snd (handleFileChange initialState
       (Some (File.mk "Makefile" (Some "") (File.ReadOk "all:"))) initialState))
     = [("Makefile", "all:")]
  /\ documents (snd (handleFileChange initialState
       (Some (File.mk "LICENSE" None (File.ReadOk "MIT"))) initialState))
     = [("LICENSE", "MIT")].
Proof.
  set (png := File.mk "photo.png" (Some "image/png") (File.ReadOk "bytes")).
  set (mk := File.mk "Makefile" (Some "") (File.ReadOk "all:")).
  set (lic := File.mk "LICENSE" None (File.ReadOk "MIT")).
  assert (Hg : mimeGuard png = true) by reflexivity.
  destruct (mime_guard initialState initialState png) as [_ [Hrej _]].
  destruct (mime_guard initialState initialState mk) as [_ [_ Hmk]].
  destruct (Hmk (or_intror eq_refl)) as [_ [_ [_ Hstore1]]].
  destruct (mime_guard initialState initialState lic) as [_ [_ Hlic]].
  destruct (Hlic (or_introl eq_refl)) as [_ [_ [_ Hstore2]]].
  split; [exact Hg|].
  split; [rewrite (Hrej Hg); reflexivity|].
  split; [reflexivity|].
  split; [rewrite (Hstore1 "all:" eq_refl); reflexivity|].
  rewrite (Hstore2 "MIT" eq_refl); reflexivity.
Defined.

(** ** The cursor of the history stays in range *)

Lemma dispatch_keeps_history (snap : State) (b : Backend) (command : string)
  (args : list string) :
  keeps history (dispatch snap b command args).
Proof.
  unfold dispatch.
  destruct (switchOn (JS.toLowerCase command));
    unfold handleAsk, videoCommand, docsCommand; keeps_tac.
Qed.

Lemma processCommand_keeps_history (snap : State) (b : Backend) (commandStr : string) :
  keeps history (processCommand snap b commandStr).
Proof.
  unfold processCommand. destruct (tokens commandStr); [keeps_tac|].
  apply keeps_bind; [apply dispatch_keeps_history | intro; keeps_tac].
Qed.

Lemma handleSubmit_history (st : State) (b : Backend) :
  history (snd (handleSubmit st b st)) = history st
  \/ history (snd (handleSubmit st b st))
     = (JS.trim (inputValue st) :: commandHistory st, (-1)%Z).
Proof.
  apply (handleSubmit_elim history
           (fun h => h = history st
                     \/ h = (JS.trim (inputValue st) :: commandHistory st, (-1)%Z)));
    try (intro; intros; reflexivity).
  - left; reflexivity.
  - intros st1 H1. left. rewrite <- H1.
    assert (K : keeps history (handleChat b (JS.trim (inputValue st))))
      by (unfold handleChat; keeps_tac).
    apply K.
  - intros st1 H1. left. rewrite <- H1.
    assert (K : keeps history (handleChatDocConversation b (JS.trim (inputValue st))))
      by (unfold handleChatDocConversation; keeps_tac).
    apply K.
  - intros st1 H1 _ _. right. rewrite processCommand_keeps_history.
    unfold history in *. simpl. injection H1 as -> _. reflexivity.
Qed.

Lemma step_cursorInRange (st : State) (e : Event) :
  cursorInRange st -> cursorInRange (step st e).
Proof.
  unfold cursorInRange. intros Hin.
  assert (Hkeep : forall m : Async unit, keeps history m ->
            (-1 <= historyIndex (snd (m st))
             < Z.of_nat (List.length (commandHistory (snd (m st)))))%Z).
  { intros m K. specialize (K st). unfold history in K. injection K as -> ->. exact Hin. }
  unfold step. destruct e; simpl handler; try (apply Hkeep; keeps_tac; fail).
  - destruct (handleSubmit_history st b) as [H|H]; unfold history in H;
      injection H as -> ->; [exact Hin|].
    simpl List.length. lia.
  - apply Hkeep. unfold handleInputChange. keeps_tac.
  - unfold handleKeyDown.
    destruct ((key =? "ArrowUp") && negb (isChatMode st || isChatDocMode st)).
    { destruct (Z.ltb_spec (historyIndex st)
                  (Z.of_nat (List.length (commandHistory st)) - 1)); simpl; lia. }
    destruct ((key =? "ArrowDown") && negb (isChatMode st || isChatDocMode st)).
    { destruct (Z.ltb_spec 0 (historyIndex st)); simpl; lia. }
    apply Hkeep. keeps_tac.
  - apply Hkeep. unfold handleFileChange. keeps_tac.
  - apply Hkeep. unfold handleToggleListening. keeps_tac.
  - apply Hkeep. unfold recognitionOnError. keeps_tac.
Qed.

(** In every session the cursor is -1 or the index of an entry of the
    history. *)
Lemma historyIndex_in_range (events : list Event) :
  forall st, cursorInRange st -> cursorInRange (run events st).
Proof.
  induction events as [|e events IH]; intros st H; simpl; [exact H|].
  apply IH. now apply step_cursorInRange.
Qed.

(** Hence the entry that ArrowUp or ArrowDown reads exists. *)
Lemma historyAt_defined (st : State) :
  cursorInRange st ->
  ((historyIndex st <? Z.of_nat (List.length (commandHistory st)) - 1)%Z = true ->
   nth_error (commandHistory st) (Z.to_nat (historyIndex st + 1))
   = Some (historyAt (commandHistory st) (historyIndex st + 1)))
  /\ ((0 <? historyIndex st)%Z = true ->
      nth_error (commandHistory st) (Z.to_nat (historyIndex st - 1))
      = Some (historyAt (commandHistory st) (historyIndex st - 1))).
Proof.
  unfold cursorInRange, historyAt. intros Hin. split; intros H.
  - apply Z.ltb_lt in H. apply nth_error_nth'. lia.
  - apply Z.ltb_lt in H. apply nth_error_nth'. lia.
Qed.

(** ** The active document has a name *)

Lemma dispatch_keeps_activeDoc (snap : State) (b : Backend) (command : string)
  (args : list string) :
  switchOn (JS.toLowerCase command) <> case_docs ->
  keeps activeDoc (dispatch snap b command args).
Proof.
  intros Hdocs. unfold dispatch.
  destruct (switchOn (JS.toLowerCase command)); try contradiction;
    unfold handleAsk, videoCommand; keeps_tac.
Qed.

Lemma truthy_named (s : string) : JS.truthy s = true -> s <> "".
Proof.
  unfold JS.truthy. intros H. apply negb_true_iff in H. now apply String.eqb_neq.
Qed.

Lemma docsCommand_activeDoc (snap : State) (args : list string) (st : State) :
  activeNamed (activeDoc st) ->
  activeNamed (activeDoc (snd (docsCommand snap args st))).
Proof.
  intros Hst. unfold docsCommand.
  destruct (nth_error args 0) as [subCommand|]; [|exact Hst].
  destruct (subCommand =? "list").
  { destruct (Nat.eqb _ 0); exact Hst. }
  destruct (subCommand =? "select").
  { destruct (nth_error args 1) as [docToSelect|]; [|exact Hst].
    destruct (JS.truthy docToSelect) eqn:T; [|exact Hst]. cbn [negb].
    destruct (Documents.truthy _); [|exact Hst].
    simpl. unfold activeNamed. intros E. injection E as ->. discriminate T. }
  destruct (subCommand =? "clear"); [discriminate | exact Hst].
Qed.

Lemma processCommand_activeDoc (snap : State) (b : Backend) (commandStr : string)
  (st : State) :
  activeNamed (activeDoc st) ->
  activeNamed (activeDoc (snd (processCommand snap b commandStr st))).
Proof.
  intros Hst. unfold processCommand.
  destruct (tokens commandStr) as [|command args]; [exact Hst|].
  apply bind_tail_keeps; [intros [outputLines|]; keeps_tac|].
  destruct (switchOn (JS.toLowerCase command)) eqn:E;
    try (rewrite dispatch_keeps_activeDoc; [exact Hst | rewrite E; discriminate]).
  unfold dispatch. rewrite E. now apply docsCommand_activeDoc.
Qed.

Lemma step_activeNamed (st : State) (e : Event) :
  named e -> activeNamed (activeDoc st) -> activeNamed (activeDoc (step st e)).
Proof.
  intros Hn Hst.
  assert (Hkeep : forall m : Async unit, keeps activeDoc m ->
            activeNamed (activeDoc (snd (m st)))).
  { intros m K. now rewrite K. }
  unfold step. destruct e; simpl handler; try (apply Hkeep; keeps_tac; fail).
  - apply (handleSubmit_elim activeDoc activeNamed); try (intro; intros; reflexivity).
    + exact Hst.
    + intros st1 H1.
      assert (K : keeps activeDoc (handleChat b (JS.trim (inputValue st))))
        by (unfold handleChat; keeps_tac).
      now rewrite K, H1.
    + intros st1 H1.
      assert (K : keeps activeDoc (handleChatDocConversation b (JS.trim (inputValue st))))
        by (unfold handleChatDocConversation; keeps_tac).
      now rewrite K, H1.
    + intros st1 H1 _ _. apply processCommand_activeDoc. simpl. now rewrite H1.
  - apply Hkeep. unfold handleInputChange. keeps_tac.
  - apply Hkeep. unfold handleKeyDown. keeps_tac.
  - unfold handleFileChange. destruct selected as [file|]; [|exact Hst].
    destruct (mimeGuard file); [exact Hst|].
    destruct (File.read file); [|exact Hst].
    destruct (negb (JS.truthyOpt (activeDoc st))); simpl; [|exact Hst].
    unfold activeNamed. intros E. injection E as E. exact (Hn E).
  - apply Hkeep. unfold handleToggleListening. keeps_tac.
  - apply Hkeep. unfold recognitionOnError. keeps_tac.
Qed.

(** In every session whose uploaded files have names, the active
    document is unset or has a name that is not empty. *)
Lemma activeDoc_never_empty (events : list Event) :
  forall st, Forall named events -> activeNamed (activeDoc st) ->
             activeNamed (activeDoc (run events st)).
Proof.
  induction events as [|e events IH]; intros st Hn H; simpl; [exact H|].
  inversion Hn as [|? ? He Hrest]; subst.
  apply IH; [exact Hrest|]. now apply step_activeNamed.
Qed.

(** * Further properties of the component *)

(** ** The keyboard: recall and completion *)

Lemma commands_are_single_tokens (cmd : string) :
  In cmd COMMANDS -> tokens (cmd ++ " ") = [cmd] /\ JS.toLowerCase cmd = cmd.
Proof.
  unfold COMMANDS. simpl. intros H.
  repeat (destruct H as [<-|H]; [split; reflexivity|]). contradiction.
Qed.

(** X1. Tab in Normal mode completes on the first token of the trimmed
    input, compared as typed with the command names.  With an empty token
    or no command that starts with it, nothing changes.  With one such
    command the input becomes that command followed by one space, which
    parses to that command alone, and the suggestions are cleared.  With
    several, the suggestions become those commands, in the order of the
    registry, and the input is kept.  The commands proposed are all the
    registered commands that start with the token and no other. *)
Theorem tab_completion (st : State) :
  isChatMode st = false -> isChatDocMode st = false ->
  let token := hd "" (JS.split JS.SPACE (JS.trim (inputValue st))) in
  let matches := filter (fun cmd => JS.startsWith cmd token) COMMANDS in
  let st' := step st (KeyDown "Tab") in
  (forall cmd, In cmd matches <-> In cmd COMMANDS /\ JS.startsWith cmd token = true)
  /\ (token = "" \/ matches = [] -> st' = st)
  /\ (forall cmd, token <> "" -> matches = [cmd] ->
        st' = setSuggestions [] (setInputValue (cmd ++ " ") st)
        /\ tokens (inputValue st') = [cmd]
        /\ switchOn (JS.toLowerCase cmd) <> case_default)
  /\ (token <> "" -> (1 < List.length matches)%nat ->
        st' = setSuggestions matches st).
Proof.
  intros Hc Hd token matches st'.
  assert (Hst : st' =
    if negb (JS.truthy token) then st
    else if Nat.eqb (List.length matches) 1
         then setSuggestions [] (setInputValue (hd "" matches ++ " ") st)
         else if Nat.ltb 1 (List.length matches) then setSuggestions matches st
         else st).
  { unfold st', step, handler, handleKeyDown. rewrite Hc, Hd.
    change ("Tab" =? "ArrowUp") with false. change ("Tab" =? "ArrowDown") with false.
    change ("Tab" =? "Tab") with true. cbn [andb orb negb].
    fold token. destruct (negb (JS.truthy token)); [reflexivity|].
    fold matches. destruct (Nat.eqb (List.length matches) 1); [reflexivity|].
    destruct (Nat.ltb 1 (List.length matches)); reflexivity. }
  split; [intro cmd; exact (filter_In (fun c => JS.startsWith c token) cmd COMMANDS)|].
  split.
  { intros [Ht | Hm]; rewrite Hst.
    - rewrite Ht. reflexivity.
    - rewrite Hm. destruct (negb (JS.truthy token)); reflexivity. }
  split.
  { intros cmd Ht Hm.
    assert (Htr : JS.truthy token = true).
    { unfold JS.truthy. apply String.eqb_neq in Ht. now rewrite Ht. }
    assert (E : st' = setSuggestions [] (setInputValue (cmd ++ " ") st)).
    { rewrite Hst, Htr, Hm. reflexivity. }
    assert (Hin : In cmd COMMANDS).
    { assert (In cmd matches) by (rewrite Hm; now left).
      unfold matches in H. apply filter_In in H. tauto. }
    split; [exact E|]. rewrite E. cbn [inputValue setSuggestions setInputValue].
    destruct (commands_are_single_tokens cmd Hin) as [Htok Hlow].
    split; [exact Htok|]. rewrite Hlow. now apply switchOn_known. }
  intros Ht Hlen.
  assert (Htr : JS.truthy token = true).
  { unfold JS.truthy. apply String.eqb_neq in Ht. now rewrite Ht. }
  rewrite Hst, Htr. cbn [negb].
  destruct (Nat.eqb_spec (List.length matches) 1) as [E|E]; [lia|].
  apply Nat.ltb_lt in Hlen. now rewrite Hlen.
Qed.

Lemma tab_completion_witness :
  tokens (inputValue (step (step initialState (InputChange "se")) (KeyDown "Tab")))
  = ["search"]
  /\ suggestions (step (step initialState (InputChange "chat")) (KeyDown "Tab"))
     = ["chat"; "chatdoc"]
  /\ step (step initialState (InputChange "xyz")) (KeyDown "Tab")
     = step initialState (InputChange "xyz").
Proof.
  destruct (tab_completion (step initialState (InputChange "se")) eq_refl eq_refl)
    as [_ [_ [One _]]].
  assert (N1 : hd "" (JS.split JS.SPACE (JS.trim "se")) <> "") by discriminate.
  destruct (One "search" N1 eq_refl) as [_ [T _]].
  destruct (tab_completion (step initialState (InputChange "chat")) eq_refl eq_refl)
    as [_ [_ [_ Many]]].
  assert (N2 : hd "" (JS.split JS.SPACE (JS.trim "chat")) <> "") by discriminate.
  assert (L2 : (1 < List.length
             (filter (fun cmd => JS.startsWith cmd "chat") COMMANDS))%nat)
    by (vm_compute; lia).
  pose proof (Many N2 L2) as M.
  destruct (tab_completion (step initialState (InputChange "xyz")) eq_refl eq_refl)
    as [_ [Zero _]].
  pose proof (Zero (or_intror eq_refl)) as Z.
  split; [exact T|]. split; [rewrite M; reflexivity | exact Z].
Defined.

(** X2. While Chat or DocChat is active the history is out of reach:
    no key changes anything, neither recall nor completion, and no event
    at all, a submitted message included, changes the history or its
    cursor. *)
Theorem history_untouched_in_chat_modes (st : State) :
  isChatMode st || isChatDocMode st = true ->
  (forall key, step st (KeyDown key) = st)
  /\ (forall e, history (step st e) = history st).
Proof.
  intros H.
  assert (K : forall key, step st (KeyDown key) = st).
  { intro key. unfold step, handler, handleKeyDown. rewrite H. cbn [negb].
    rewrite !andb_false_r. reflexivity. }
  split; [exact K|].
  assert (Hkeep : forall m : Async unit, keeps history m ->
            history (snd (m st)) = history st) by (intros m Km; apply Km).
  intros e. destruct e; try (apply Hkeep; unfold handler; keeps_tac; fail).
  - unfold step, handler.
    apply (handleSubmit_elim history (fun h => h = history st));
      try (intro; intros; reflexivity).
    + reflexivity.
    + intros st1 H1. rewrite <- H1.
      assert (Kc : keeps history (handleChat b (JS.trim (inputValue st))))
        by (unfold handleChat; keeps_tac).
      apply Kc.
    + intros st1 H1. rewrite <- H1.
      assert (Kd : keeps history (handleChatDocConversation b (JS.trim (inputValue st))))
        by (unfold handleChatDocConversation; keeps_tac).
      apply Kd.
    + intros st1 _ Hc Hd. rewrite Hc, Hd in H. discriminate H.
  - apply Hkeep. unfold handler, handleInputChange. keeps_tac.
  - now rewrite K.
  - apply Hkeep. unfold handler, handleFileChange. keeps_tac.
  - apply Hkeep. unfold handler, handleToggleListening. keeps_tac.
  - apply Hkeep. unfold handler, recognitionOnError. keeps_tac.
Qed.

Lemma history_untouched_in_chat_modes_witness :
  isChatMode chatSession || isChatDocMode chatSession = true
  /\ step chatSession (KeyDown "ArrowUp") = chatSession
  /\ commandHistory (run (submit "hello" sampleBackend) chatSession) = ["chat"].
Proof.
  assert (H : isChatMode chatSession || isChatDocMode chatSession = true)
    by (vm_compute; reflexivity).
  destruct (history_untouched_in_chat_modes chatSession H) as [K _].
  split; [exact H|]. split; [exact (K "ArrowUp")|].
  assert (H1 : isChatMode (step chatSession (InputChange "hello"))
               || isChatDocMode (step chatSession (InputChange "hello")) = true)
    by (vm_compute; reflexivity).
  destruct (history_untouched_in_chat_modes _ H1) as [_ E].
  pose proof (f_equal fst (E (Submit sampleBackend))) as E1.
  unfold history in E1. cbn [fst] in E1.
  unfold run, submit. cbn [fold_left]. rewrite E1. vm_compute. reflexivity.
Defined.

(** X3. Recall in Normal mode, with the cursor in range.  ArrowUp moves
    the cursor one entry towards the oldest and shows that entry, and does
    nothing at the oldest entry.  ArrowDown from an entry older than the
    newest moves one entry back and shows it; from the newest entry, or
    when not browsing, it empties the input and stops browsing.  ArrowUp
    followed by ArrowDown, from an entry that is not the oldest, comes back
    to that entry. *)
Theorem arrow_recall (st : State) :
  isChatMode st = false -> isChatDocMode st = false ->
  cursorInRange st ->
  let i := historyIndex st in
  let oldest := (Z.of_nat (List.length (commandHistory st)) - 1)%Z in
  let up := step st (KeyDown "ArrowUp") in
  let down := step st (KeyDown "ArrowDown") in
  (i = oldest -> up = st)
  /\ ((i < oldest)%Z ->
      historyIndex up = (i + 1)%Z
      /\ nth_error (commandHistory st) (Z.to_nat (i + 1)) = Some (inputValue up)
      /\ commandHistory up = commandHistory st)
  /\ ((0 < i)%Z ->
      historyIndex down = (i - 1)%Z
      /\ nth_error (commandHistory st) (Z.to_nat (i - 1)) = Some (inputValue down))
  /\ ((i <= 0)%Z -> historyIndex down = (-1)%Z /\ inputValue down = "")
  /\ ((0 <= i < oldest)%Z ->
      historyIndex (step up (KeyDown "ArrowDown")) = i
      /\ nth_error (commandHistory st) (Z.to_nat i)
         = Some (inputValue (step up (KeyDown "ArrowDown")))).
Proof.
  intros Hc Hd Hin i oldest up down.
  assert (Hup : up = if (i <? oldest)%Z
                     then setInputValue (historyAt (commandHistory st) (i + 1))
                            (setHistoryIndex (i + 1)%Z st)
                     else st).
  { unfold up, step, handler, handleKeyDown. rewrite Hc, Hd.
    change ("ArrowUp" =? "ArrowUp") with true. cbn [andb orb negb].
    fold i. fold oldest. destruct (i <? oldest)%Z; reflexivity. }
  assert (Hdown : forall s, isChatMode s = false -> isChatDocMode s = false ->
            step s (KeyDown "ArrowDown")
            = if (0 <? historyIndex s)%Z
              then setInputValue (historyAt (commandHistory s) (historyIndex s - 1))
                     (setHistoryIndex (historyIndex s - 1)%Z s)
              else setInputValue "" (setHistoryIndex (-1)%Z s)).
  { intros s Hsc Hsd. unfold step, handler, handleKeyDown. rewrite Hsc, Hsd.
    change ("ArrowDown" =? "ArrowUp") with false.
    change ("ArrowDown" =? "ArrowDown") with true. cbn [andb orb negb].
    destruct (0 <? historyIndex s)%Z; reflexivity. }
  unfold cursorInRange in Hin. fold i in Hin.
  split; [|split; [|split; [|split]]].
  - intros E. rewrite Hup. destruct (Z.ltb_spec i oldest); [lia | reflexivity].
  - intros L. rewrite Hup. destruct (Z.ltb_spec i oldest); [|lia].
    cbn [historyIndex inputValue commandHistory setInputValue setHistoryIndex].
    repeat split. unfold historyAt. apply nth_error_nth'. unfold oldest in L. lia.
  - intros L. unfold down. rewrite (Hdown st Hc Hd). fold i.
    destruct (Z.ltb_spec 0 i); [|lia].
    cbn [historyIndex inputValue setInputValue setHistoryIndex].
    split; [reflexivity|]. unfold historyAt. apply nth_error_nth'. lia.
  - intros L. unfold down. rewrite (Hdown st Hc Hd). fold i.
    destruct (Z.ltb_spec 0 i); [lia|]. split; reflexivity.
  - intros L. rewrite Hup. destruct (Z.ltb_spec i oldest); [|lia].
    rewrite Hdown; [|exact Hc|exact Hd].
    cbn [historyIndex inputValue commandHistory setInputValue setHistoryIndex].
    destruct (Z.ltb_spec 0 (i + 1)); [|lia].
    cbn [historyIndex inputValue commandHistory setInputValue setHistoryIndex].
    replace (i + 1 - 1)%Z with i by lia.
    split; [reflexivity|]. unfold historyAt. apply nth_error_nth'. unfold oldest in L. lia.
Qed.

Lemma arrow_recall_witness :
  let st := run (submit "a" sampleBackend ++ submit "b" sampleBackend
                 ++ [KeyDown "ArrowUp"])%list initialState in
  cursorInRange st
  /\ historyIndex st = 0%Z
  /\ historyIndex (step st (KeyDown "ArrowUp")) = 1%Z
  /\ historyIndex (step (step st (KeyDown "ArrowUp")) (KeyDown "ArrowDown")) = 0%Z
  /\ inputValue (step st (KeyDown "ArrowDown")) = "".
Proof.
  intro st.
  assert (Hc : isChatMode st = false) by (vm_compute; reflexivity).
  assert (Hd : isChatDocMode st = false) by (vm_compute; reflexivity).
  assert (Hi : historyIndex st = 0%Z) by (vm_compute; reflexivity).
  assert (Hl : Z.of_nat (List.length (commandHistory st)) = 2%Z)
    by (vm_compute; reflexivity).
  assert (Hin : cursorInRange st) by (unfold cursorInRange; rewrite Hi, Hl; lia).
  destruct (arrow_recall st Hc Hd Hin) as [_ [Up [_ [Down Round]]]].
  rewrite Hi, Hl in Up, Round. rewrite Hi in Down.
  split; [exact Hin|]. split; [exact Hi|].
  split; [apply Up; lia|].
  split; [apply Round; lia|].
  apply Down. lia.
Defined.

(** X4. The cursor of the history is always -1 or the index of an entry:
    whatever the events of a session, a cursor in range stays in range, so
    that recall never reads outside the history. *)
Theorem history_cursor_invariant (events : list Event) (st : State) :
  cursorInRange st ->
  cursorInRange (run events st)
  /\ ((historyIndex (run events st)
       <? Z.of_nat (List.length (commandHistory (run events st))) - 1)%Z = true ->
      nth_error (commandHistory (run events st))
        (Z.to_nat (historyIndex (run events st) + 1)) <> None)
  /\ ((0 <? historyIndex (run events st))%Z = true ->
      nth_error (commandHistory (run events st))
        (Z.to_nat (historyIndex (run events st) - 1)) <> None).
Proof.
  intros H. pose proof (historyIndex_in_range events st H) as Hr.
  destruct (historyAt_defined _ Hr) as [U D].
  split; [exact Hr|]. split; intros G.
  - rewrite (U G). discriminate.
  - rewrite (D G). discriminate.
Qed.

Lemma history_cursor_invariant_witness :
  cursorInRange initialState
  /\ cursorInRange (run (submit "a" sampleBackend ++ [KeyDown "ArrowUp"; KeyDown "ArrowUp"])%list
                      initialState).
Proof.
  assert (H : cursorInRange initialState) by (unfold cursorInRange; simpl; lia).
  split; [exact H|].
  exact (proj1 (history_cursor_invariant
                  (submit "a" sampleBackend ++ [KeyDown "ArrowUp"; KeyDown "ArrowUp"])%list
                  initialState H)).
Defined.

(** ** Submission *)

(** The three routes of [handleSubmit] for an input that is not blank. *)
Lemma handleSubmit_normal (st : State) (b : Backend) :
  enabled st -> normal st -> JS.truthy (JS.trim (inputValue st)) = true ->
  handleSubmit st b st
  = (processCommand st b (JS.trim (inputValue st)) ;; act (setInputValue ""))
      (setHistoryIndex (-1)%Z
         (setCommandHistory (fun prev => JS.trim (inputValue st) :: prev)
            (echoed COMMAND st))).
Proof.
  intros [Hl Hli] [Hc Hd] Ht. unfold handleSubmit, echoed, clearSuggestions.
  rewrite Hl, Hli, Hc, Hd, Ht. cbn [orb negb andb].
  destruct (Nat.ltb 0 (List.length (suggestions st))); reflexivity.
Qed.

Lemma handleSubmit_chat (st : State) (b : Backend) :
  enabled st -> isChatMode st = true -> JS.truthy (JS.trim (inputValue st)) = true ->
  handleSubmit st b st
  = (handleChat b (JS.trim (inputValue st)) ;; act (setInputValue "")) (echoed SYSTEM st).
Proof.
  intros [Hl Hli] Hc Ht. unfold handleSubmit, echoed, clearSuggestions.
  rewrite Hl, Hli, Hc, Ht. cbn [orb negb andb].
  destruct (Nat.ltb 0 (List.length (suggestions st))); reflexivity.
Qed.

Lemma handleSubmit_docchat (st : State) (b : Backend) :
  enabled st -> isChatMode st = false -> isChatDocMode st = true ->
  JS.truthy (JS.trim (inputValue st)) = true ->
  handleSubmit st b st
  = (handleChatDocConversation b (JS.trim (inputValue st)) ;; act (setInputValue ""))
      (echoed SYSTEM st).
Proof.
  intros [Hl Hli] Hc Hd Ht. unfold handleSubmit, echoed, clearSuggestions.
  rewrite Hl, Hli, Hc, Hd, Ht. cbn [orb negb andb].
  destruct (Nat.ltb 0 (List.length (suggestions st))); reflexivity.
Qed.

Lemma clearSuggestions_spec (st : State) : clearSuggestions st = setSuggestions [] st.
Proof.
  unfold clearSuggestions. destruct st as [ls h i v sg l c d li docs a img cs].
  cbn [suggestions]. destruct sg; reflexivity.
Qed.

(** No command and no conversation touches the input field, the
    suggestions, the listening flag or the history. *)
Lemma processCommand_keeps_inputSide (snap : State) (b : Backend) (commandStr : string) :
  keeps inputSide (processCommand snap b commandStr).
Proof.
  unfold processCommand. destruct (tokens commandStr) as [|command args]; [keeps_tac|].
  apply keeps_bind; [|intro; keeps_tac].
  unfold dispatch.
  destruct (switchOn (JS.toLowerCase command));
    unfold handleAsk, videoCommand, docsCommand; keeps_tac.
Qed.

Lemma handleChat_keeps_inputSide (b : Backend) (message : string) :
  keeps inputSide (handleChat b message).
Proof. unfold handleChat. keeps_tac. Qed.

Lemma handleChatDocConversation_keeps_inputSide (b : Backend) (message : string) :
  keeps inputSide (handleChatDocConversation b message).
Proof. unfold handleChatDocConversation. keeps_tac. Qed.

Lemma busy_submit (st : State) (b : Backend) :
  isLoading st || isListening st = true ->
  step st (Submit b) = setSuggestions [] st.
Proof.
  intros H. unfold step, handler, handleSubmit. rewrite H.
  rewrite <- clearSuggestions_spec. unfold clearSuggestions.
  destruct (Nat.ltb 0 (List.length (suggestions st))); reflexivity.
Qed.

(** X5. While the busy flag or the listening flag is set, submissions
    are ignored: any number of them changes nothing but the suggestions,
    which are cleared; no line is appended, no call is made and nothing
    is recorded in the history. *)
Theorem submissions_ignored_while_busy (st : State) (backends : list Backend) :
  isLoading st || isListening st = true ->
  run (map Submit backends) st
  = match backends with [] => st | _ :: _ => setSuggestions [] st end.
Proof.
  intros H. destruct backends as [|b backends]; [reflexivity|].
  simpl. rewrite (busy_submit st b H).
  induction backends as [|b' backends IH]; [reflexivity|].
  simpl. rewrite busy_submit; [exact IH | exact H].
Qed.

Lemma submissions_ignored_while_busy_witness :
  isLoading (step initialState RecognitionStart)
  || isListening (step initialState RecognitionStart) = true
  /\ lines (run (map Submit [sampleBackend; refusingBackend])
              (step (step initialState RecognitionStart) (InputChange "help")))
     = WELCOME_LINES.
Proof.
  split; [reflexivity|].
  rewrite (submissions_ignored_while_busy
             (step (step initialState RecognitionStart) (InputChange "help"))
             [sampleBackend; refusingBackend] eq_refl).
  reflexivity.
Defined.

Lemma blank_submission_states (st : State) (b : Backend) :
  enabled st -> JS.trim (inputValue st) = "" ->
  (normal st ->
   step st (Submit b)
   = setInputValue "" (setLines (push (line COMMAND (Str ""))) (setSuggestions [] st)))
  /\ (isChatMode st || isChatDocMode st = true ->
      step st (Submit b)
      = setLines (push (line SYSTEM (Str ""))) (setSuggestions [] st)).
Proof.
  intros [Hl Hli] Ht. split.
  - intros [Hc Hd]. unfold step, handler, handleSubmit.
    rewrite Hl, Hli, Hc, Hd, Ht. cbn [orb negb andb JS.truthy String.eqb].
    rewrite <- clearSuggestions_spec. unfold clearSuggestions.
    destruct (Nat.ltb 0 (List.length (suggestions st))); reflexivity.
  - intros Hm. unfold step, handler, handleSubmit.
    rewrite Hl, Hli, Hm, Ht. cbn [orb negb andb JS.truthy String.eqb].
    rewrite <- clearSuggestions_spec. unfold clearSuggestions.
    destruct (Nat.ltb 0 (List.length (suggestions st))); reflexivity.
Qed.

(** X6. A blank input, when the input is enabled, is echoed as one blank
    line and nothing else happens: no call, no entry in the history, no
    change of mode.  In Normal mode the line is a Command line and the
    input field is emptied; in Chat or DocChat mode it is a System line and
    the input field keeps its blanks. *)
Theorem blank_submission (st : State) (b : Backend) :
  enabled st -> JS.trim (inputValue st) = "" ->
  (normal st ->
   step st (Submit b)
   = setInputValue "" (setLines (push (line COMMAND (Str ""))) (setSuggestions [] st)))
  /\ (isChatMode st || isChatDocMode st = true ->
      step st (Submit b)
      = setLines (push (line SYSTEM (Str ""))) (setSuggestions [] st)).
Proof. exact (blank_submission_states st b). Qed.

Lemma blank_submission_witness :
  enabled chatSession
  /\ JS.trim (inputValue (step chatSession (InputChange "   "))) = ""
  /\ inputValue (step (step chatSession (InputChange "   ")) (Submit sampleBackend))
     = "   "
  /\ calls (step (step chatSession (InputChange "   ")) (Submit sampleBackend))
     = calls chatSession
  /\ inputValue (step (step initialState (InputChange "   ")) (Submit sampleBackend))
     = "".
Proof.
  assert (E : enabled (step chatSession (InputChange "   ")))
    by (split; vm_compute; reflexivity).
  assert (T : JS.trim (inputValue (step chatSession (InputChange "   "))) = "")
    by (vm_compute; reflexivity).
  destruct (blank_submission _ sampleBackend E T) as [_ C].
  assert (M : isChatMode (step chatSession (InputChange "   "))
              || isChatDocMode (step chatSession (InputChange "   ")) = true)
    by (vm_compute; reflexivity).
  assert (E0 : enabled (step initialState (InputChange "   ")))
    by (split; reflexivity).
  destruct (blank_submission (step initialState (InputChange "   ")) sampleBackend E0
              eq_refl) as [N _].
  split; [split; vm_compute; reflexivity|]. split; [exact T|].
  rewrite (C M). split; [vm_compute; reflexivity|]. split; [vm_compute; reflexivity|].
  rewrite (N (conj eq_refl eq_refl)). reflexivity.
Defined.

Lemma bind_then_clear_input (m : Async unit) (st : State) :
  keeps inputSide m ->
  inputSide (snd ((m ;; act (setInputValue "")) st))
  = match fst (m st) with
    | Returned _ =>
        ("", suggestions st, isListening st, commandHistory st, historyIndex st)
    | _ => inputSide st
    end.
Proof.
  intros K. unfold bind. specialize (K st).
  destruct (m st) as [[[]|e|] st1]; cbn [fst snd] in *; try exact K.
  unfold inputSide in *. cbn [act snd inputValue suggestions isListening commandHistory
    historyIndex setInputValue].
  injection K as _ -> -> -> ->. reflexivity.
Qed.

Lemma submit_normal_inputSide (st : State) (b : Backend) :
  enabled st -> normal st -> JS.truthy (JS.trim (inputValue st)) = true ->
  let st' := step st (Submit b) in
  commandHistory st' = JS.trim (inputValue st) :: commandHistory st
  /\ historyIndex st' = (-1)%Z
  /\ suggestions st' = []
  /\ (fst (handleSubmit st b st) = Returned tt -> inputValue st' = "")
  /\ (fst (handleSubmit st b st) <> Returned tt -> inputValue st' = inputValue st).
Proof.
  intros He Hn Ht st'.
  pose proof (handleSubmit_normal st b He Hn Ht) as Hs.
  unfold echoed in Hs. rewrite clearSuggestions_spec in Hs.
  set (st0 := setHistoryIndex (-1)%Z
                (setCommandHistory (fun prev => JS.trim (inputValue st) :: prev)
                   (setLines (push (line COMMAND (Str (JS.trim (inputValue st)))))
                      (setSuggestions [] st)))) in Hs.
  pose proof (bind_then_clear_input (processCommand st b (JS.trim (inputValue st))) st0
                (processCommand_keeps_inputSide _ _ _)) as Hb.
  assert (Hfst : fst (handleSubmit st b st)
                 = match fst (processCommand st b (JS.trim (inputValue st)) st0) with
                   | Returned _ => Returned tt
                   | Raised e => Raised e
                   | Pending => Pending
                   end).
  { rewrite Hs. unfold bind.
    destruct (processCommand st b (JS.trim (inputValue st)) st0) as [[[]|e|] s1];
      reflexivity. }
  unfold st', step, handler. rewrite Hfst, Hs. unfold inputSide in Hb.
  destruct (fst (processCommand st b (JS.trim (inputValue st)) st0)) as [[]|e|];
    injection Hb as H1 H2 _ H4 H5; rewrite H1, H2, H4, H5;
    repeat split; try reflexivity; try discriminate; try (intros C; now elim C).
Qed.


(** X7. An input that is not blank, submitted in Normal mode while the
    input is enabled, is recorded trimmed at the head of the history and
    the cursor is reset to -1, whatever the command is and however its
    handler ends.  The input field is emptied when the handler returns,
    and only then: it keeps its value when the handler rejects or is
    still waiting.  The suggestions are cleared in every case. *)
Theorem submission_is_recorded (st : State) (b : Backend) :
  enabled st -> normal st -> JS.truthy (JS.trim (inputValue st)) = true ->
  let st' := step st (Submit b) in
  commandHistory st' = JS.trim (inputValue st) :: commandHistory st
  /\ historyIndex st' = (-1)%Z
  /\ suggestions st' = []
  /\ (fst (handleSubmit st b st) = Returned tt -> inputValue st' = "")
  /\ (fst (handleSubmit st b st) <> Returned tt -> inputValue st' = inputValue st).
Proof. exact (submit_normal_inputSide st b). Qed.

Lemma submission_is_recorded_witness :
  commandHistory (run (submit "  whoami " sampleBackend) initialState) = ["whoami"]
  /\ inputValue (run (submit "  whoami " sampleBackend) initialState) = ""
  /\ fst (handleSubmit (step initialState (InputChange " ask hi "))
            brokenStreamBackend (step initialState (InputChange " ask hi ")))
     = Raised (JsError "reset")
  /\ inputValue (run (submit " ask hi " brokenStreamBackend) initialState) = " ask hi ".
Proof.
  assert (E : forall v, enabled (step initialState (InputChange v)))
    by (intro v; split; reflexivity).
  assert (N : forall v, normal (step initialState (InputChange v)))
    by (intro v; split; reflexivity).
  destruct (submission_is_recorded (step initialState (InputChange "  whoami "))
              sampleBackend (E _) (N _) eq_refl) as [H1 [_ [_ [H2 _]]]].
  assert (R : fst (handleSubmit (step initialState (InputChange " ask hi "))
                     brokenStreamBackend (step initialState (InputChange " ask hi ")))
              = Raised (JsError "reset")) by (vm_compute; reflexivity).
  destruct (submission_is_recorded (step initialState (InputChange " ask hi "))
              brokenStreamBackend (E _) (N _) eq_refl) as [_ [_ [_ [_ H3]]]].
  unfold run, submit. cbn [fold_left].
  split; [rewrite H1; reflexivity|].
  split; [apply H2; vm_compute; reflexivity|].
  split; [exact R|].
  rewrite H3; [reflexivity | rewrite R; discriminate].
Defined.

Lemma falsy_is_empty (s : string) : JS.truthy s = false -> s = "".
Proof.
  unfold JS.truthy. intros H. apply negb_false_iff in H. now apply String.eqb_eq.
Qed.

(** X8. Every submission and every change of the input clears the
    suggestions, in every mode and also while the input is disabled. *)
Theorem suggestions_cleared (st : State) (b : Backend) (value : string) :
  suggestions (step st (Submit b)) = []
  /\ suggestions (step st (InputChange value)) = []
  /\ inputValue (step st (InputChange value)) = value.
Proof.
  split; [|split].
  - destruct (isLoading st || isListening st) eqn:Hbusy.
    { now rewrite busy_submit. }
    apply orb_false_iff in Hbusy.
    assert (He : enabled st) by exact Hbusy.
    destruct (JS.truthy (JS.trim (inputValue st))) eqn:Ht.
    + destruct (isChatMode st) eqn:Hc; [|destruct (isChatDocMode st) eqn:Hd].
      * unfold step, handler. rewrite (handleSubmit_chat st b He Hc Ht).
        pose proof (bind_then_clear_input _ (echoed SYSTEM st)
                      (handleChat_keeps_inputSide b (JS.trim (inputValue st)))) as Hb.
        unfold echoed in Hb. rewrite clearSuggestions_spec in Hb.
        unfold echoed. rewrite clearSuggestions_spec.
        destruct (fst (handleChat b (JS.trim (inputValue st)) _));
          unfold inputSide in Hb; injection Hb as _ -> _ _ _; reflexivity.
      * unfold step, handler. rewrite (handleSubmit_docchat st b He Hc Hd Ht).
        pose proof (bind_then_clear_input _ (echoed SYSTEM st)
                      (handleChatDocConversation_keeps_inputSide b
                         (JS.trim (inputValue st)))) as Hb.
        unfold echoed in Hb. rewrite clearSuggestions_spec in Hb.
        unfold echoed. rewrite clearSuggestions_spec.
        destruct (fst (handleChatDocConversation b (JS.trim (inputValue st)) _));
          unfold inputSide in Hb; injection Hb as _ -> _ _ _; reflexivity.
      * apply (submit_normal_inputSide st b He (conj Hc Hd) Ht).
    + apply falsy_is_empty in Ht.
      destruct (blank_submission_states st b He Ht) as [Hn Hm].
      destruct (isChatMode st) eqn:Hc; [rewrite Hm; reflexivity|].
      destruct (isChatDocMode st) eqn:Hd; [rewrite Hm; reflexivity|].
      rewrite (Hn (conj Hc Hd)). reflexivity.
  - unfold step, handler, handleInputChange.
    destruct st as [ls h i v sg l c d li docs a img cs]. cbn [suggestions].
    destruct sg; reflexivity.
  - unfold step, handler, handleInputChange.
    destruct (Nat.ltb 0 (List.length (suggestions st))); reflexivity.
Qed.

(** X9. The word exit, in any case and with blanks around it, submitted
    while a chat mode is active and the input is enabled, ends that mode:
    the echo of the input and one System line are appended, the flag of
    the mode is cleared, the input field is emptied and no call is made to
    the backend.  With the other flag clear, the session is back in Normal
    mode. *)
Theorem exit_leaves_chat_mode (st : State) (b : Backend) :
  enabled st -> JS.toLowerCase (JS.trim (inputValue st)) = "exit" ->
  (isChatMode st = true ->
   step st (Submit b)
   = setInputValue ""
       (setLines (push (line SYSTEM (Str "Exited chat mode.")))
          (setIsChatMode false
             (setLines (push (line SYSTEM (Str (JS.trim (inputValue st)))))
                (setSuggestions [] st))))
   /\ (isChatDocMode st = false -> normal (step st (Submit b))))
  /\ (isChatMode st = false -> isChatDocMode st = true ->
      step st (Submit b)
      = setInputValue ""
          (setLines (push (line SYSTEM (Str "Exited document chat mode.")))
             (setIsChatDocMode false
                (setLines (push (line SYSTEM (Str (JS.trim (inputValue st)))))
                   (setSuggestions [] st))))
      /\ normal (step st (Submit b))).
Proof.
  intros He Hx.
  assert (Ht : JS.truthy (JS.trim (inputValue st)) = true).
  { destruct (JS.trim (inputValue st)); [discriminate Hx | reflexivity]. }
  split.
  - intros Hc.
    assert (E : step st (Submit b)
                = setInputValue ""
                    (setLines (push (line SYSTEM (Str "Exited chat mode.")))
                       (setIsChatMode false
                          (setLines (push (line SYSTEM (Str (JS.trim (inputValue st)))))
                             (setSuggestions [] st))))).
    { unfold step, handler. rewrite (handleSubmit_chat st b He Hc Ht).
      unfold handleChat, echoed. rewrite Hx, clearSuggestions_spec. reflexivity. }
    split; [exact E|]. intros Hd. rewrite E. split; [reflexivity | exact Hd].
  - intros Hc Hd.
    assert (E : step st (Submit b)
                = setInputValue ""
                    (setLines (push (line SYSTEM (Str "Exited document chat mode.")))
                       (setIsChatDocMode false
                          (setLines (push (line SYSTEM (Str (JS.trim (inputValue st)))))
                             (setSuggestions [] st))))).
    { unfold step, handler. rewrite (handleSubmit_docchat st b He Hc Hd Ht).
      unfold handleChatDocConversation, echoed. rewrite Hx, clearSuggestions_spec.
      reflexivity. }
    split; [exact E|]. rewrite E. split; [exact Hc | reflexivity].
Qed.

Lemma exit_leaves_chat_mode_witness :
  enabled (step chatSession (InputChange " Exit "))
  /\ JS.toLowerCase (JS.trim (inputValue (step chatSession (InputChange " Exit "))))
     = "exit"
  /\ normal (run (submit " Exit " sampleBackend) chatSession)
  /\ normal (run (submit "EXIT" sampleBackend) docChatSession)
  /\ calls (run (submit " Exit " sampleBackend) chatSession) = calls chatSession.
Proof.
  assert (E1 : enabled (step chatSession (InputChange " Exit ")))
    by (split; vm_compute; reflexivity).
  assert (X1 : JS.toLowerCase (JS.trim (inputValue (step chatSession
                 (InputChange " Exit ")))) = "exit") by (vm_compute; reflexivity).
  destruct (exit_leaves_chat_mode _ sampleBackend E1 X1) as [C _].
  assert (C1 : isChatMode (step chatSession (InputChange " Exit ")) = true)
    by (vm_compute; reflexivity).
  destruct (C C1) as [S1 N1].
  assert (E2 : enabled (step docChatSession (InputChange "EXIT")))
    by (split; vm_compute; reflexivity).
  assert (X2 : JS.toLowerCase (JS.trim (inputValue (step docChatSession
                 (InputChange "EXIT")))) = "exit") by (vm_compute; reflexivity).
  destruct (exit_leaves_chat_mode _ sampleBackend E2 X2) as [_ D].
  assert (C2 : isChatMode (step docChatSession (InputChange "EXIT")) = false)
    by (vm_compute; reflexivity).
  assert (D2 : isChatDocMode (step docChatSession (InputChange "EXIT")) = true)
    by (vm_compute; reflexivity).
  destruct (D C2 D2) as [_ N2].
  split; [exact E1|]. split; [exact X1|].
  split; [apply N1; vm_compute; reflexivity|].
  split; [exact N2|].
  unfold run, submit. cbn [fold_left]. rewrite S1. vm_compute. reflexivity.
Defined.

(** X10. The command [clear], in any case and with any arguments,
    submitted in Normal mode while the input is enabled, leaves the line
    buffer empty: the earlier lines and the echo of the command itself are
    gone.  The command is recorded in the history, the input field is
    emptied, and nothing else changes. *)
Theorem clear_empties_the_buffer (st : State) (b : Backend) (command : string)
  (args : list string) :
  enabled st -> normal st ->
  tokens (JS.trim (inputValue st)) = command :: args ->
  JS.toLowerCase command = "clear" ->
  step st (Submit b)
  = setInputValue ""
      (setLines (fun _ => [])
         (setHistoryIndex (-1)%Z
            (setCommandHistory (fun prev => JS.trim (inputValue st) :: prev)
               (setSuggestions [] st)))).
Proof.
  intros He Hn Htok Hcmd.
  pose proof (tokens_nonempty_truthy _ _ _ Htok) as Ht.
  unfold step, handler. rewrite (handleSubmit_normal st b He Hn Ht).
  unfold processCommand. rewrite Htok. unfold dispatch. rewrite Hcmd.
  change (switchOn "clear") with case_clear. cbv iota.
  unfold echoed. rewrite clearSuggestions_spec. reflexivity.
Qed.

Lemma clear_empties_the_buffer_witness :
  tokens (JS.trim " CLEAR all ") = ["CLEAR"; "all"]
  /\ lines (run (submit " CLEAR all " sampleBackend) initialState) = []
  /\ commandHistory (run (submit " CLEAR all " sampleBackend) initialState)
     = ["CLEAR all"].
Proof.
  assert (E : enabled (step initialState (InputChange " CLEAR all ")))
    by (split; reflexivity).
  assert (N : normal (step initialState (InputChange " CLEAR all ")))
    by (split; reflexivity).
  assert (T : tokens (JS.trim (inputValue (step initialState (InputChange " CLEAR all "))))
              = ["CLEAR"; "all"]) by reflexivity.
  pose proof (clear_empties_the_buffer _ sampleBackend "CLEAR" ["all"] E N T eq_refl) as C.
  split; [exact T|].
  unfold run, submit. cbn [fold_left]. rewrite C. split; reflexivity.
Defined.

(** ** What only grows: the call log and the line buffer *)

Section Steps.

Context (R : State -> State -> Prop).
Hypothesis Rrefl : forall st, R st st.
Hypothesis Rtrans : forall st1 st2 st3, R st1 st2 -> R st2 st3 -> R st1 st3.

Lemma steps_ret {A : Type} (a : A) : steps R (ret a).
Proof. intro st. apply Rrefl. Qed.

Lemma steps_throw {A : Type} (e : Exn) : steps R (@throw A e).
Proof. intro st. apply Rrefl. Qed.

Lemma steps_pending {A : Type} : steps R (@pending A).
Proof. intro st. apply Rrefl. Qed.

Lemma steps_act (f : State -> State) : (forall st, R st (f st)) -> steps R (act f).
Proof. intros H st. apply H. Qed.

Lemma steps_bind {A B : Type} (m : Async A) (k : A -> Async B) :
  steps R m -> (forall a, steps R (k a)) -> steps R (bind m k).
Proof.
  intros Hm Hk st. unfold bind. specialize (Hm st).
  destruct (m st) as [[a|e|] st']; cbn [snd] in *; try assumption.
  eapply Rtrans; [exact Hm | apply Hk].
Qed.

Lemma steps_tryCatch {A : Type} (body : Async A) (handler : Exn -> Async A) :
  steps R body -> (forall e, steps R (handler e)) -> steps R (tryCatch body handler).
Proof.
  intros Hb Hh st. unfold tryCatch. specialize (Hb st).
  destruct (body st) as [[a|e|] st']; cbn [snd] in *; try assumption.
  eapply Rtrans; [exact Hb | apply Hh].
Qed.

Lemma steps_tryFinally {A : Type} (body : Async A) (fin : Async unit) :
  steps R body -> steps R fin -> steps R (tryFinally body fin).
Proof.
  intros Hb Hf st. unfold tryFinally. specialize (Hb st).
  destruct (body st) as [[a|e|] st']; cbn [snd] in *; try assumption;
    specialize (Hf st'); destruct (fin st') as [[[]|e'|] st'']; cbn [snd] in *;
    eapply Rtrans; eassumption.
Qed.

Hypothesis Rpush : forall l st, R st (setLines (push l) st).
Hypothesis Rlog : forall c st, R st (logCall c st).

Lemma steps_pollLoop (answers : list PollOutcome) :
  forall operation pollCount, steps R (pollLoop answers operation pollCount).
Proof.
  induction answers as [|a answers IH]; intros op n; simpl;
    destruct (done op); try apply steps_ret;
    (apply steps_bind; [apply steps_act; intro; apply Rpush | intros _]);
    (apply steps_bind; [apply steps_act; intro; apply Rlog | intros _]).
  - apply steps_pending.
  - destruct a; [apply IH | apply steps_throw].
Qed.

End Steps.

Lemma grows_refl {X : Type} (proj : State -> list X) (st : State) : grows proj st st.
Proof. exists []. now rewrite app_nil_r. Qed.

Lemma grows_trans {X : Type} (proj : State -> list X) (st1 st2 st3 : State) :
  grows proj st1 st2 -> grows proj st2 st3 -> grows proj st1 st3.
Proof.
  intros [l1 H1] [l2 H2]. exists (l1 ++ l2)%list. now rewrite H2, H1, app_assoc.
Qed.

Lemma grows_same {X : Type} (proj : State -> list X) (st st' : State) :
  proj st' = proj st -> grows proj st st'.
Proof. intros H. exists []. now rewrite app_nil_r. Qed.

Lemma mutateLast_app (f : Line -> Line) (base tail : list Line) :
  tail <> [] -> mutateLast f (base ++ tail)%list = (base ++ mutateLast f tail)%list.
Proof.
  intros Ht. destruct (exists_last Ht) as [t [x ->]].
  now rewrite app_assoc, !mutateLast_push, app_assoc.
Qed.

Lemma mutateLast_not_nil (f : Line -> Line) (tail : list Line) :
  tail <> [] -> mutateLast f tail <> [].
Proof.
  intros Ht. destruct (exists_last Ht) as [t [x ->]]. rewrite mutateLast_push.
  destruct t; discriminate.
Qed.

Lemma handleSearch_grows_lines (b : Backend) (prompt : string) :
  steps (grows lines) (handleSearch b prompt).
Proof. intro st. rewrite handleSearch_spec. eexists; reflexivity. Qed.

Lemma handleSearch_grows_calls (b : Backend) (prompt : string) :
  steps (grows calls) (handleSearch b prompt).
Proof.
  intro st. rewrite handleSearch_spec.
  exists [CallSearchWithGoogleStream prompt]. reflexivity.
Qed.

Lemma streamResponse_grows_lines (call : Call) (stream : Stream string) :
  steps (grows lines) (streamResponse call stream).
Proof. intro st. rewrite streamResponse_spec. eexists; reflexivity. Qed.

Lemma streamResponse_grows_calls (call : Call) (stream : Stream string) :
  steps (grows calls) (streamResponse call stream).
Proof. intro st. rewrite streamResponse_spec. exists [call]; reflexivity. Qed.

(** Goals [steps (grows proj) m], by the structure of [m]. *)
Ltac grows_act :=
  intros;
  first [ apply grows_same; reflexivity
        | eexists; reflexivity ].

Ltac grows_step :=
  match goal with
  | |- steps _ (ret _) => apply steps_ret; apply grows_refl
  | |- steps _ (throw _) => apply steps_throw; apply grows_refl
  | |- steps _ pending => apply steps_pending; apply grows_refl
  | |- steps _ (act _) => apply steps_act; grows_act
  | |- steps _ (bind _ _) => apply steps_bind; [apply grows_trans | | intro]
  | |- steps _ (tryCatch _ _) =>
      apply steps_tryCatch; [apply grows_trans | | intro]
  | |- steps _ (tryFinally _ _) => apply steps_tryFinally; [apply grows_trans | | ]
  | |- steps (grows lines) (streamResponse _ _) => apply streamResponse_grows_lines
  | |- steps (grows calls) (streamResponse _ _) => apply streamResponse_grows_calls
  | |- steps (grows lines) (handleSearch _ _) => apply handleSearch_grows_lines
  | |- steps (grows calls) (handleSearch _ _) => apply handleSearch_grows_calls
  | |- steps _ (pollLoop _ _ _) =>
      apply steps_pollLoop; [apply grows_refl | apply grows_trans | grows_act | grows_act]
  | |- steps _ (if ?c then _ else _) => destruct c
  | |- steps _ (match ?x with _ => _ end) => destruct x
  end.

Ltac grows_tac := repeat grows_step.

Lemma dispatch_grows_calls (snap : State) (b : Backend) (command : string)
  (args : list string) :
  steps (grows calls) (dispatch snap b command args).
Proof.
  unfold dispatch.
  destruct (switchOn (JS.toLowerCase command));
    unfold handleAsk, videoCommand, docsCommand; grows_tac.
Qed.


Lemma processCommand_grows_calls (snap : State) (b : Backend) (commandStr : string) :
  steps (grows calls) (processCommand snap b commandStr).
Proof.
  unfold processCommand. destruct (tokens commandStr) as [|command args]; [grows_tac|].
  apply steps_bind; [apply grows_trans | apply dispatch_grows_calls | intro; grows_tac].
Qed.

Lemma handleSubmit_grows_calls (snap : State) (b : Backend) :
  steps (grows calls) (handleSubmit snap b).
Proof.
  unfold handleSubmit, handleChat, handleChatDocConversation.
  repeat first [ apply processCommand_grows_calls | grows_step ].
Qed.

Lemma step_grows_calls (st : State) (e : Event) : grows calls st (step st e).
Proof.
  unfold step.
  assert (H : steps (grows calls) (handler e st)).
  { destruct e; simpl handler;
      unfold handleInputChange, handleKeyDown, handleFileChange, handleToggleListening,
        recognitionOnError;
      first [apply handleSubmit_grows_calls | grows_tac]. }
  apply H.
Qed.






(** ** How handlers end *)

Section Avoids.

Context (x : Ending).

Lemma avoids_ret {A : Type} (a : A) : x <> Returns -> avoids x (ret a).
Proof. intros H st. cbn. congruence. Qed.

Lemma avoids_act (f : State -> State) : x <> Returns -> avoids x (act f).
Proof. intros H st. cbn. congruence. Qed.

Lemma avoids_throw {A : Type} (e : Exn) : x <> Rejects -> avoids x (@throw A e).
Proof. intros H st. cbn. congruence. Qed.

Lemma avoids_pending {A : Type} : x <> Waits -> avoids x (@pending A).
Proof. intros H st. cbn. congruence. Qed.

Lemma avoids_bind {A B : Type} (m : Async A) (k : A -> Async B) :
  avoids x m -> (forall a, avoids x (k a)) -> avoids x (bind m k).
Proof.
  intros Hm Hk st. unfold bind. specialize (Hm st).
  destruct (m st) as [[a|e|] st']; cbn [fst ending] in *; [apply Hk | exact Hm | exact Hm].
Qed.

Lemma avoids_tryFinally {A : Type} (body : Async A) (fin : Async unit) :
  avoids x body -> avoids x fin -> avoids x (tryFinally body fin).
Proof.
  intros Hb Hf st. unfold tryFinally. specialize (Hb st).
  destruct (body st) as [[a|e|] st']; cbn [fst ending] in *; try exact Hb;
    specialize (Hf st'); destruct (fin st') as [[[]|e'|] st'']; cbn [fst ending] in *;
    assumption.
Qed.

Lemma avoids_tryCatch {A : Type} (body : Async A) (handler : Exn -> Async A) :
  avoids x body \/ x = Rejects -> (forall e, avoids x (handler e)) ->
  x <> Returns ->
  avoids x (tryCatch body handler).
Proof.
  intros Hb Hh Hr st. unfold tryCatch.
  destruct (body st) as [[a|e|] st'] eqn:E; cbn [fst ending].
  - congruence.
  - apply Hh.
  - destruct Hb as [Hb | ->]; [|discriminate].
    specialize (Hb st). rewrite E in Hb. exact Hb.
Qed.

End Avoids.

Lemma streamResponse_never_waits (call : Call) (stream : Stream string) :
  avoids Waits (streamResponse call stream).
Proof.
  intro st. rewrite streamResponse_spec. cbn [fst]. unfold completion.
  destruct (failure stream); discriminate.
Qed.

Lemma streamResponse_never_rejects (call : Call) (stream : Stream string) :
  failure stream = None -> avoids Rejects (streamResponse call stream).
Proof.
  intros H st. rewrite streamResponse_spec. cbn [fst]. unfold completion.
  rewrite H. discriminate.
Qed.

Lemma handleSearch_ending (b : Backend) (prompt : string) (st : State) :
  fst (handleSearch b prompt st) = completion (searchWithGoogleStream b prompt).
Proof. now rewrite handleSearch_spec. Qed.

Lemma handleSearch_never_waits (b : Backend) (prompt : string) :
  avoids Waits (handleSearch b prompt).
Proof.
  intro st. rewrite handleSearch_ending. unfold completion.
  destruct (failure _); discriminate.
Qed.

Lemma handleSearch_never_rejects (b : Backend) (prompt : string) :
  completes b -> avoids Rejects (handleSearch b prompt).
Proof.
  intros [_ [H _]] st. rewrite handleSearch_ending. unfold completion.
  rewrite H. discriminate.
Qed.

Ltac avoids_step :=
  match goal with
  | |- avoids _ (ret _) => apply avoids_ret; discriminate
  | |- avoids _ (act _) => apply avoids_act; discriminate
  | |- avoids _ (throw _) => apply avoids_throw; discriminate
  | |- avoids _ pending => apply avoids_pending; discriminate
  | |- avoids _ (bind _ _) => apply avoids_bind; [|intro]
  | |- avoids _ (tryFinally _ _) => apply avoids_tryFinally
  | |- avoids Rejects (tryCatch _ _) =>
      apply avoids_tryCatch; [right; reflexivity | intro | discriminate]
  | |- avoids Waits (streamResponse _ _) => apply streamResponse_never_waits
  | |- avoids Waits (handleSearch _ _) => apply handleSearch_never_waits
  | |- avoids _ (if ?c then _ else _) => destruct c
  | |- avoids _ (match ?x with _ => _ end) => destruct x
  end.

Ltac avoids_tac := repeat avoids_step.

(** Only the [video] command can be left waiting. *)
Lemma dispatch_never_waits (snap : State) (b : Backend) (command : string)
  (args : list string) :
  switchOn (JS.toLowerCase command) <> case_video ->
  avoids Waits (dispatch snap b command args).
Proof.
  intros Hv. unfold dispatch.
  destruct (switchOn (JS.toLowerCase command)); try contradiction;
    unfold handleAsk, docsCommand; avoids_tac.
Qed.

Lemma settles_bind {A B : Type} (m : Async A) (k : A -> Async B) :
  settles m -> (forall a, settles (k a)) -> settles (bind m k).
Proof.
  intros Hm Hk st H N. unfold bind in *. specialize (Hm st H).
  destruct (m st) as [[a|e|] st']; cbn [fst snd ending] in *.
  - apply Hk; [apply Hm; reflexivity | exact N].
  - discriminate N.
  - discriminate N.
Qed.

Lemma settles_streamResponse (call : Call) (stream : Stream string) :
  settles (streamResponse call stream).
Proof. intros st _ _. rewrite streamResponse_spec. reflexivity. Qed.

Lemma settles_handleSearch (b : Backend) (prompt : string) :
  settles (handleSearch b prompt).
Proof. intros st _ _. apply handleSearch_clears_busy. Qed.

Lemma settles_videoCommand (b : Backend) (prompt : string) :
  settles (videoCommand b prompt).
Proof.
  intros st H N. destruct (JS.truthy prompt) eqn:Hp.
  - destruct (generateVideo b prompt) as [message|operation|e] eqn:G.
    + unfold videoCommand. rewrite Hp, G. reflexivity.
    + rewrite (videoCommand_started b prompt st operation Hp G) in *.
      destruct (pollLoop _ _ _ _) as [[op'|e|] st3]; unfold afterPolling in *;
        [|reflexivity|discriminate N].
      destruct (JS.truthyOpt (downloadLink op')); [|reflexivity].
      destruct (fetchVideo b _); reflexivity.
    + unfold videoCommand. rewrite Hp, G. reflexivity.
  - unfold videoCommand. rewrite Hp. exact H.
Qed.

Ltac settles_step :=
  match goal with
  | |- settles (if ?c then _ else _) => destruct c
  | |- settles (match ?x with _ => _ end) => destruct x
  | |- settles (streamResponse _ _) => apply settles_streamResponse
  | |- settles (handleSearch _ _) => apply settles_handleSearch
  | |- settles (videoCommand _ _) => apply settles_videoCommand
  | |- settles _ => solve [intros ? ? ?; first [assumption | reflexivity]]
  | |- settles (bind _ _) => apply settles_bind; [|intro]
  end.

Ltac settles_tac := repeat settles_step.

Lemma dispatch_settles (snap : State) (b : Backend) (command : string)
  (args : list string) :
  settles (dispatch snap b command args).
Proof.
  unfold dispatch.
  destruct (switchOn (JS.toLowerCase command)); unfold handleAsk, docsCommand;
    try solve [settles_tac].
  - destruct (negb (JS.truthy (JS.join " " args))); [settles_tac|].
    intros st H N. cbv beta iota zeta delta [bind act ret snd fst] in *.
    destruct (truthyJson (explanation _)); [|reflexivity].
    destruct (explanation _); [reflexivity | discriminate N | discriminate N].
  - destruct (negb (JS.truthy (JS.join " " args))); [settles_tac|].
    intros st H N. cbv beta iota zeta delta [bind act ret snd fst].
    destruct (JS.startsWith _ _); reflexivity.
  - destruct (negb (JS.truthy (JS.join " " args))); [settles_tac|].
    destruct (negb (JS.truthyOpt (lastImage snap))); [settles_tac|].
    intros st H N. cbv beta iota zeta delta [bind act ret snd fst].
    destruct (JS.truthyOpt (image _)); [reflexivity|].
    destruct (negb (JS.truthyOpt (editedText _))); reflexivity.
Qed.

Lemma processCommand_settles (snap : State) (b : Backend) (commandStr : string) :
  settles (processCommand snap b commandStr).
Proof.
  unfold processCommand. destruct (tokens commandStr) as [|command args]; [settles_tac|].
  apply settles_bind; [apply dispatch_settles | intro; settles_tac].
Qed.

Lemma handleSubmit_settles (snap : State) (b : Backend) :
  isLoading snap = false -> settles (handleSubmit snap b).
Proof.
  intros H. unfold handleSubmit, handleChat, handleChatDocConversation. rewrite H.
  repeat first [ apply processCommand_settles | settles_step ].
Qed.

Lemma clears_then {A : Type} (m : Async A) (f : State -> State) (st : State) :
  (forall st1, isLoading (f st1) = isLoading st1) ->
  isLoading (snd (m st)) = false ->
  isLoading (snd ((m ;; act f) st)) = false.
Proof.
  intros Hf H. unfold bind. destruct (m st) as [[a|e|] st1]; cbn [snd act] in *;
    [now rewrite Hf | exact H | exact H].
Qed.

Lemma clears_streamResponse (call : Call) (stream : Stream string) :
  clears (streamResponse call stream).
Proof. intros st _. rewrite streamResponse_spec. reflexivity. Qed.

Lemma clears_handleSearch (b : Backend) (prompt : string) :
  clears (handleSearch b prompt).
Proof. intros st _. apply handleSearch_clears_busy. Qed.

Lemma then_clear_input_ending (m : Async unit) (st : State) :
  ending (fst ((m ;; act (setInputValue "")) st)) = ending (fst (m st)).
Proof. unfold bind. destruct (m st) as [[[]|e|] s]; reflexivity. Qed.

Lemma handleChat_clears_busy (b : Backend) (message : string) (st : State) :
  isLoading st = false -> isLoading (snd (handleChat b message st)) = false.
Proof.
  intros H. unfold handleChat.
  destruct (_ =? _); [exact H | now rewrite streamResponse_spec].
Qed.

Lemma handleChatDocConversation_clears_busy (b : Backend) (message : string) (st : State) :
  isLoading st = false -> isLoading (snd (handleChatDocConversation b message st)) = false.
Proof.
  intros H. unfold handleChatDocConversation.
  destruct (_ =? _); [exact H | now rewrite streamResponse_spec].
Qed.

(** X13. The busy flag after a submission.  When the input is enabled and
    the handler of the submission returns, the busy flag is false
    afterwards.  The handlers of the streams clear it in a [finally]
    block: in a conversation mode, and for the commands [ask] and [search]
    of Normal mode, it is false afterwards also when the stream raised and
    the handler rejects. *)
Theorem busy_flag_cleared (st : State) (b : Backend) :
  enabled st ->
  (ending (fst (handleSubmit st b st)) = Returns ->
   isLoading (step st (Submit b)) = false)
  /\ (isChatMode st = true \/ isChatDocMode st = true ->
      isLoading (step st (Submit b)) = false)
  /\ (forall command args,
        normal st ->
        tokens (JS.trim (inputValue st)) = command :: args ->
        In (JS.toLowerCase command) ["ask"; "search"] ->
        isLoading (step st (Submit b)) = false).
Proof.
  intros He. pose proof He as [Hl _].
  split; [intros N; now apply (handleSubmit_settles st b Hl st)|].
  split.
  - intros M. unfold step, handler.
    apply (handleSubmit_elim isLoading (fun busy => busy = false));
      try (intros ? ?; reflexivity).
    + exact Hl.
    + intros st1 H1. apply handleChat_clears_busy. now rewrite H1.
    + intros st1 H1. apply handleChatDocConversation_clears_busy. now rewrite H1.
    + intros st1 _ Hc Hd. destruct M as [M|M]; congruence.
  - intros command args Hn Htok Hin. unfold step, handler.
    apply (handleSubmit_elim isLoading (fun busy => busy = false));
      try (intros ? ?; reflexivity).
    + exact Hl.
    + intros st1 H1. apply handleChat_clears_busy. now rewrite H1.
    + intros st1 H1. apply handleChatDocConversation_clears_busy. now rewrite H1.
    + intros st1 H1 _ _. unfold processCommand. rewrite Htok. unfold dispatch.
      destruct Hin as [E|[E|[]]]; rewrite <- E.
      * change (switchOn "ask") with case_ask. cbv zeta.
        destruct (negb _); [cbn; now rewrite H1|].
        unfold handleAsk, bind. rewrite streamResponse_spec.
        destruct (completion _) as [[]|e|]; reflexivity.
      * change (switchOn "search") with case_search. cbv zeta.
        destruct (negb _); [cbn; now rewrite H1|].
        unfold bind. rewrite handleSearch_spec.
        destruct (completion _) as [[]|e|]; reflexivity.
Qed.

Lemma busy_flag_cleared_witness :
  isLoading (run (submit "video a cat" failingPollBackend) initialState) = false
  /\ ending (fst (handleSubmit (step initialState (InputChange "ask hi"))
                    brokenStreamBackend (step initialState (InputChange "ask hi"))))
     = Rejects
  /\ isLoading (run (submit "ask hi" brokenStreamBackend) initialState) = false.
Proof.
  assert (E : forall v, enabled (step initialState (InputChange v)))
    by (intro v; split; reflexivity).
  destruct (busy_flag_cleared (step initialState (InputChange "video a cat"))
              failingPollBackend (E _)) as [V _].
  destruct (busy_flag_cleared (step initialState (InputChange "ask hi"))
              brokenStreamBackend (E _)) as [_ [_ A]].
  unfold run, submit. cbn [fold_left].
  split; [apply V; vm_compute; reflexivity|].
  split; [vm_compute; reflexivity|].
  apply (A "ask" ["hi"]); [split; reflexivity | reflexivity | now left].
Defined.

(** X14. A rejection outside the streams.  The command [code] calls
    [split] on the explanation of the answer when this is truthy, outside
    any [try]: when the explanation is truthy and not a string, the
    handler rejects after the busy flag was set and the call was made.
    The flag then stays set, the input keeps its text, only the echo of
    the command was written, and every later submission is ignored. *)
Theorem code_rejection_leaves_busy (st : State) (b : Backend) (command : string)
  (args : list string) :
  enabled st -> normal st ->
  tokens (JS.trim (inputValue st)) = command :: args ->
  JS.toLowerCase command = "code" ->
  JS.truthy (JS.join " " args) = true ->
  truthyJson (explanation (generateCode b (JS.join " " args))) = true ->
  (forall s, explanation (generateCode b (JS.join " " args)) <> JsonString s) ->
  let st' := step st (Submit b) in
  ending (fst (handleSubmit st b st)) = Rejects
  /\ isLoading st' = true
  /\ lines st' = (lines st ++ [line COMMAND (Str (JS.trim (inputValue st)))])%list
  /\ calls st' = (calls st ++ [CallGenerateCode (JS.join " " args)])%list
  /\ inputValue st' = inputValue st
  /\ forall b', step st' (Submit b') = st'.
Proof.
  intros He Hn Htok Hlow Hp Ht Hs st'.
  pose proof (tokens_nonempty_truthy _ _ _ Htok) as Hi.
  assert (R : handleSubmit st b st
              = (Raised (JsError "aiResponse.explanation.split is not a function"),
                 logCall (CallGenerateCode (JS.join " " args))
                   (setIsLoading true (commandStart st)))).
  { rewrite (handleSubmit_normal st b He Hn Hi).
    unfold echoed. rewrite clearSuggestions_spec. fold (commandStart st).
    unfold processCommand. rewrite Htok. unfold dispatch. rewrite Hlow.
    change (switchOn "code") with case_code. cbv zeta. rewrite Hp, Ht. cbn [negb].
    destruct (explanation (generateCode b (JS.join " " args))) as [s| |] eqn:X;
      [now elim (Hs s) | reflexivity | reflexivity]. }
  assert (S : st' = logCall (CallGenerateCode (JS.join " " args))
                      (setIsLoading true (commandStart st)))
    by (unfold st', step, handler; now rewrite R).
  rewrite R, S. repeat (split; [reflexivity|]).
  intro b'. reflexivity.
Qed.

Lemma code_rejection_leaves_busy_witness :
  let b := Service.backend (sampleEnv (Some "key")) Service.noSessions in
  let st := run (submit "code sort a list" b) initialState in
  isLoading st = true
  /\ inputValue st = "code sort a list"
  /\ step st (Submit b) = st.
Proof.
  intros b st.
  assert (E : enabled (step initialState (InputChange "code sort a list")))
    by (split; reflexivity).
  destruct (code_rejection_leaves_busy (step initialState (InputChange "code sort a list"))
              b "code" ["sort"; "a"; "list"] E)
    as [_ [L [_ [_ [V S]]]]];
    [split; reflexivity | reflexivity | reflexivity | reflexivity | reflexivity
    | intros s; discriminate |].
  split; [exact L|]. split; [exact V | exact (S b)].
Defined.

(** ** Commands of Normal mode, run from a submission *)

(** A command whose case of the switch ends with [break]. *)
Lemma submit_command (st : State) (b : Backend) (command : string) (args : list string)
  (outputLines : list Line) (st1 : State) :
  enabled st -> normal st ->
  tokens (JS.trim (inputValue st)) = command :: args ->
  dispatch st b command args (commandStart st) = (Returned (Break outputLines), st1) ->
  step st (Submit b)
  = setInputValue "" (setLines (fun prev => (prev ++ outputLines)%list) st1).
Proof.
  intros He Hn Htok Hd.
  pose proof (tokens_nonempty_truthy _ _ _ Htok) as Ht.
  unfold step, handler. rewrite (handleSubmit_normal st b He Hn Ht).
  unfold echoed. rewrite clearSuggestions_spec. fold (commandStart st).
  unfold processCommand. rewrite Htok. unfold bind at 2. unfold bind at 1.
  rewrite Hd. reflexivity.
Qed.

(** ** The document table *)

Lemma names_set (d : Documents.t) (k v : string) :
  Documents.names (Documents.set d k v)
  = match Documents.own d k with
    | Some _ => Documents.names d
    | None => (Documents.names d ++ [k])%list
    end.
Proof.
  unfold Documents.names.
  induction d as [|[k' v'] d IH]; simpl; [reflexivity|].
  destruct (k' =? k); simpl; [reflexivity|].
  rewrite IH. destruct (Documents.own d k); reflexivity.
Qed.

Lemma own_names (d : Documents.t) (k : string) :
  In k (Documents.names d) <-> Documents.own d k <> None.
Proof.
  induction d as [|[k' v'] d IH]; simpl.
  - split; [contradiction | congruence].
  - destruct (String.eqb_spec k' k) as [->|Hne].
    + split; [discriminate | now left].
    + rewrite <- IH. split; [intros [H|H]; [contradiction | exact H] | now right].
Qed.

Lemma arrayIndex_inj (k k' : string) (n : N) :
  Documents.arrayIndex k = Some n -> Documents.arrayIndex k' = Some n -> k = k'.
Proof.
  unfold Documents.arrayIndex. intros H H'.
  destruct (NilEmpty.uint_of_string k) as [u|]; [|discriminate].
  destruct (NilEmpty.uint_of_string k') as [u'|]; [|discriminate].
  destruct (_ && _) eqn:E in H; [|discriminate].
  destruct (_ && _) eqn:E' in H'; [|discriminate].
  apply andb_prop in E as [E _], E' as [E' _].
  apply String.eqb_eq in E, E'. congruence.
Qed.

Lemma In_insertIndex (n : N) (k : string) (sorted : list (N * string)) (p : N * string) :
  In p (Documents.insertIndex n k sorted) <-> p = (n, k) \/ In p sorted.
Proof.
  induction sorted as [|[m k'] sorted IH]; simpl.
  - split; [intros [H|[]]; now left | intros [H|[]]; now left].
  - destruct (N.ltb n m); simpl; [|rewrite IH];
      split; intros H; decompose [or] H; auto.
Qed.

Lemma In_indexKeysFrom (names : list string) (p : N * string) :
  forall sorted,
    In p (fold_left Documents.addIndex names sorted)
    <-> In p sorted \/ (In (snd p) names /\ Documents.arrayIndex (snd p) = Some (fst p)).
Proof.
  induction names as [|k names IH]; intros sorted; simpl.
  - split; [now left | intros [H|[[] _]]; exact H].
  - rewrite IH. unfold Documents.addIndex.
    destruct (Documents.arrayIndex k) as [n|] eqn:E.
    + rewrite In_insertIndex. split.
      * intros [[->|H]|[H A]]; [right; split; [now left | exact E] | now left
                               | right; split; [now right | exact A]].
      * intros [H|[[Hk|H] A]]; [left; now right | | right; now split].
        left; left. destruct p as [m k']; simpl in *. congruence.
    + split.
      * intros [H|[H A]]; [now left | right; split; [now right | exact A]].
      * intros [H|[[Hk|H] A]]; [now left | congruence | right; now split].
Qed.

Lemma In_keys (d : Documents.t) (k : string) :
  In k (Documents.keys d) <-> In k (Documents.names d).
Proof.
  unfold Documents.keys, Documents.stringKeys, Documents.indexKeys.
  rewrite in_app_iff, in_map_iff, filter_In. split.
  - intros [[p [<- H]]|[H _]]; [|exact H].
    apply In_indexKeysFrom in H as [[]|[H _]]. exact H.
  - intros H. destruct (Documents.arrayIndex k) as [n|] eqn:E.
    + left. exists (n, k). split; [reflexivity|].
      apply In_indexKeysFrom. right. now split.
    + right. now split.
Qed.

Lemma own_keys (d : Documents.t) (k : string) :
  In k (Documents.keys d) <-> Documents.own d k <> None.
Proof. rewrite In_keys. apply own_names. Qed.

Lemma insertIndex_ascending (n : N) (k : string) (sorted : list (N * string)) :
  ascending sorted -> ascending (Documents.insertIndex n k sorted).
Proof.
  unfold ascending. induction sorted as [|[m k'] sorted IH]; intros H; simpl.
  - repeat constructor.
  - inversion H as [|? ? Hs Hf]; subst. destruct (N.ltb_spec n m) as [L|L].
    + constructor; [exact H|]. constructor; [simpl; lia|].
      revert Hf. apply Forall_impl. simpl. intros q Hq. lia.
    + constructor; [now apply IH|]. apply Forall_forall. intros p Hp.
      apply In_insertIndex in Hp as [->|Hp]; [exact L|].
      rewrite Forall_forall in Hf. now apply Hf.
Qed.

Lemma indexKeysFrom_ascending (names : list string) :
  forall sorted, ascending sorted -> ascending (fold_left Documents.addIndex names sorted).
Proof.
  induction names as [|k names IH]; intros sorted H; simpl; [exact H|].
  apply IH. unfold Documents.addIndex. destruct (Documents.arrayIndex k); [now apply insertIndex_ascending | exact H].
Qed.

Lemma insertIndex_split (n : N) (k : string) (sorted : list (N * string)) :
  ascending sorted ->
  exists before after,
    sorted = (before ++ after)%list
    /\ Documents.insertIndex n k sorted = (before ++ (n, k) :: after)%list
    /\ Forall (fun p => (fst p <= n)%N) before
    /\ Forall (fun p => (n < fst p)%N) after.
Proof.
  unfold ascending. induction sorted as [|[m k'] sorted IH]; intros H; simpl.
  - exists [], []. repeat split; constructor.
  - inversion H as [|? ? Hs Hf]; subst. destruct (N.ltb_spec n m) as [L|L].
    + exists [], ((m, k') :: sorted). repeat split; [constructor|].
      constructor; [exact L|]. revert Hf. apply Forall_impl. simpl. intros q Hq. lia.
    + destruct (IH Hs) as (before & after & -> & E & Hb & Ha).
      exists ((m, k') :: before), after. simpl. rewrite E.
      repeat split; [|exact Ha]. constructor; [exact L | exact Hb].
Qed.

Lemma keys_set_known (d : Documents.t) (k v : string) :
  In k (Documents.keys d) -> Documents.keys (Documents.set d k v) = Documents.keys d.
Proof.
  intros H. apply own_keys in H.
  unfold Documents.keys, Documents.indexKeys, Documents.stringKeys.
  rewrite names_set. destruct (Documents.own d k); [reflexivity | now elim H].
Qed.

Lemma keys_set_new (d : Documents.t) (k v : string) :
  ~ In k (Documents.keys d) ->
  Documents.keys (Documents.set d k v)
  = match Documents.arrayIndex k with
    | Some n =>
        (map snd (Documents.insertIndex n k (Documents.indexKeys d))
           ++ Documents.stringKeys d)%list
    | None => (Documents.keys d ++ [k])%list
    end.
Proof.
  intros H.
  assert (O : Documents.own d k = None).
  { destruct (Documents.own d k) eqn:E; [|reflexivity].
    elim H. apply own_keys. rewrite E. discriminate. }
  unfold Documents.keys, Documents.indexKeys, Documents.stringKeys.
  rewrite names_set, O, fold_left_app, filter_app. simpl.
  unfold Documents.addIndex.
  destruct (Documents.arrayIndex k); [now rewrite app_nil_r | now rewrite app_assoc].
Qed.

Lemma keys_set_index (d : Documents.t) (k v : string) (n : N) :
  ~ In k (Documents.keys d) -> Documents.arrayIndex k = Some n ->
  exists before after,
    Documents.keys d = (before ++ after)%list
    /\ Documents.keys (Documents.set d k v) = (before ++ k :: after)%list
    /\ (forall k', In k' before ->
          exists m, Documents.arrayIndex k' = Some m /\ (m < n)%N)
    /\ (forall k' m, In k' after -> Documents.arrayIndex k' = Some m -> (n < m)%N).
Proof.
  intros H A. rewrite (keys_set_new d k v H), A.
  assert (I : forall p, In p (Documents.indexKeys d) ->
                        In (snd p) (Documents.keys d)
                        /\ Documents.arrayIndex (snd p) = Some (fst p)).
  { intros p Hp. unfold Documents.indexKeys in Hp.
    apply In_indexKeysFrom in Hp as [[]|[Hp Ha]]. split; [now apply In_keys | exact Ha]. }
  destruct (insertIndex_split n k (Documents.indexKeys d))
    as (before & after & E & E' & Hb & Ha).
  { apply (indexKeysFrom_ascending (Documents.names d) []). constructor. }
  exists (map snd before), (map snd after ++ Documents.stringKeys d)%list.
  unfold Documents.keys. rewrite E', E, !map_app, <- !app_assoc. simpl.
  split; [reflexivity|]. split; [reflexivity|]. split.
  - intros k' Hk. apply in_map_iff in Hk as [p [<- Hp]].
    destruct (I p) as [Hin Hp']; [rewrite E; apply in_or_app; now left|].
    exists (fst p). split; [exact Hp'|].
    rewrite Forall_forall in Hb. specialize (Hb p Hp).
    assert (fst p <> n).
    { intros Heq. rewrite Heq in Hp'. elim H.
      now rewrite (arrayIndex_inj k (snd p) n A Hp'). }
    lia.
  - intros k' m Hk Hm. apply in_app_or in Hk as [Hk|Hk].
    + apply in_map_iff in Hk as [p [<- Hp]].
      destruct (I p) as [_ Hp']; [rewrite E; apply in_or_app; now right|].
      rewrite Forall_forall in Ha. specialize (Ha p Hp). congruence.
    + unfold Documents.stringKeys in Hk. apply filter_In in Hk as [_ Hk].
      rewrite Hm in Hk. discriminate.
Qed.

Lemma keys_set_NoDup (d : Documents.t) (k v : string) :
  NoDup (Documents.keys d) -> NoDup (Documents.keys (Documents.set d k v)).
Proof.
  intros Hnd. destruct (in_dec String.string_dec k (Documents.keys d)) as [H|H].
  - now rewrite keys_set_known.
  - destruct (Documents.arrayIndex k) as [n|] eqn:A.
    + destruct (keys_set_index d k v n H A) as (before & after & E & -> & _).
      apply (Permutation_NoDup (Permutation_middle before after k)).
      constructor; rewrite <- E; assumption.
    + rewrite (keys_set_new d k v H), A.
      apply (Permutation_NoDup (Permutation_cons_append (Documents.keys d) k)).
      now constructor.
Qed.

Lemma set_set (d : Documents.t) (k v v' : string) :
  Documents.set (Documents.set d k v) k v' = Documents.set d k v'.
Proof.
  induction d as [|[k0 v0] d IH]; simpl.
  - now rewrite String.eqb_refl.
  - destruct (k0 =? k) eqn:E; simpl; rewrite E; [reflexivity | now rewrite IH].
Qed.

(** X15. Storing a document and reading the table.  After [k] is set to
    [v], reading [k] gives [v] and every other name reads as before.  A
    name that was a key keeps its place in the list of keys.  A new name
    that is not an array index goes to the end.  A new name that is an
    array index goes among the array indices, after those of a smaller
    index and before those of a greater index and all other names.  The
    keys stay without duplicates, and setting the same name again replaces
    the content. *)
Theorem document_table_set_and_read (d : Documents.t) (k v : string) :
  Documents.own (Documents.set d k v) k = Some v
  /\ (forall k', k' <> k -> Documents.own (Documents.set d k v) k' = Documents.own d k')
  /\ (In k (Documents.keys d) ->
      Documents.keys (Documents.set d k v) = Documents.keys d)
  /\ (~ In k (Documents.keys d) -> Documents.arrayIndex k = None ->
      Documents.keys (Documents.set d k v) = (Documents.keys d ++ [k])%list)
  /\ (forall n, ~ In k (Documents.keys d) -> Documents.arrayIndex k = Some n ->
      exists before after,
        Documents.keys d = (before ++ after)%list
        /\ Documents.keys (Documents.set d k v) = (before ++ k :: after)%list
        /\ (forall k', In k' before ->
              exists m, Documents.arrayIndex k' = Some m /\ (m < n)%N)
        /\ (forall k' m, In k' after -> Documents.arrayIndex k' = Some m -> (n < m)%N))
  /\ (NoDup (Documents.keys d) -> NoDup (Documents.keys (Documents.set d k v)))
  /\ (forall v', Documents.set (Documents.set d k v) k v' = Documents.set d k v').
Proof.
  split; [apply own_set_same|].
  split; [intros k' H; now apply own_set_other|].
  split; [apply keys_set_known|].
  split; [intros H A; now rewrite (keys_set_new d k v H), A|].
  split; [intros n; apply keys_set_index|].
  split; [apply keys_set_NoDup | intro v'; apply set_set].
Qed.

Lemma document_table_set_and_read_witness :
  Documents.keys (Documents.set [("a.txt", "1"); ("b.txt", "2")] "a.txt" "3")
  = ["a.txt"; "b.txt"]
  /\ Documents.keys (Documents.set [("a.txt", "1"); ("b.txt", "2")] "c.txt" "3")
     = ["a.txt"; "b.txt"; "c.txt"]
  /\ Documents.keys (Documents.set [("b.txt", "1"); ("10", "2")] "2" "3")
     = ["2"; "10"; "b.txt"]
  /\ NoDup (Documents.keys (Documents.set [("b.txt", "1"); ("10", "2")] "2" "3")).
Proof.
  assert (I : In "a.txt" (Documents.keys [("a.txt", "1"); ("b.txt", "2")]))
    by (vm_compute; tauto).
  assert (N : ~ In "c.txt" (Documents.keys [("a.txt", "1"); ("b.txt", "2")])).
  { vm_compute. intros [H|[H|[]]]; discriminate H. }
  assert (D : NoDup (Documents.keys [("b.txt", "1"); ("10", "2")])).
  { vm_compute. apply NoDup_cons; [intros [H|[]]; discriminate H|].
    apply NoDup_cons; [intros [] | apply NoDup_nil]. }
  destruct (document_table_set_and_read [("a.txt", "1"); ("b.txt", "2")] "a.txt" "3")
    as [_ [_ [Hin _]]].
  destruct (document_table_set_and_read [("a.txt", "1"); ("b.txt", "2")] "c.txt" "3")
    as [_ [_ [_ [Hout _]]]].
  destruct (document_table_set_and_read [("b.txt", "1"); ("10", "2")] "2" "3")
    as [_ [_ [_ [_ [_ [Hnd _]]]]]].
  split; [rewrite (Hin I); reflexivity|].
  split; [rewrite (Hout N eq_refl); reflexivity|].
  split; [reflexivity | exact (Hnd D)].
Defined.

(** ** The document table and the selection over a session *)

Lemma switchOn_docs (lowered : string) :
  switchOn lowered = case_docs -> lowered = "docs".
Proof.
  unfold switchOn.
  repeat match goal with
         | |- context [if ?s =? ?c then _ else _] =>
             let E := fresh "E" in destruct (s =? c) eqn:E; try discriminate
         end.
  intros _. now apply String.eqb_eq.
Qed.

Lemma dispatch_keeps_docSide (snap : State) (b : Backend) (command : string)
  (args : list string) :
  switchOn (JS.toLowerCase command) <> case_docs ->
  keeps docSide (dispatch snap b command args).
Proof.
  intros Hdocs. unfold dispatch.
  destruct (switchOn (JS.toLowerCase command)); try contradiction;
    unfold handleAsk, videoCommand; keeps_tac.
Qed.

(** What the [docs] command does to the table and the selection. *)
Lemma docsCommand_docSide (snap : State) (args : list string) (st : State) :
  docSide (snd (docsCommand snap args st)) = docSide st
  \/ (nth_error args 0 = Some "clear"
      /\ docSide (snd (docsCommand snap args st)) = (Documents.empty, None))
  \/ (exists name, nth_error args 0 = Some "select" /\ nth_error args 1 = Some name
      /\ Documents.truthy (Documents.get (documents snap) name) = true
      /\ docSide (snd (docsCommand snap args st)) = (documents st, Some name)).
Proof.
  unfold docsCommand.
  destruct (nth_error args 0) as [subCommand|]; [|now left].
  destruct (subCommand =? "list") eqn:L.
  { destruct (Nat.eqb _ 0); now left. }
  destruct (String.eqb_spec subCommand "select") as [->|_].
  { destruct (nth_error args 1) as [docToSelect|]; [|now left].
    destruct (JS.truthy docToSelect) eqn:T; [|now left]. cbn [negb].
    destruct (Documents.truthy _) eqn:G; [|now left].
    right; right. exists docToSelect. repeat split. exact G. }
  destruct (String.eqb_spec subCommand "clear") as [->|_]; [|now left].
  right; left. split; reflexivity.
Qed.

Lemma processCommand_docSide (snap : State) (b : Backend) (commandStr : string)
  (st : State) :
  docSide (snd (processCommand snap b commandStr st)) = docSide st
  \/ (exists command args, tokens commandStr = command :: args
      /\ JS.toLowerCase command = "docs"
      /\ ((nth_error args 0 = Some "clear"
           /\ docSide (snd (processCommand snap b commandStr st)) = (Documents.empty, None))
          \/ (exists name, nth_error args 0 = Some "select" /\ nth_error args 1 = Some name
              /\ Documents.truthy (Documents.get (documents snap) name) = true
              /\ docSide (snd (processCommand snap b commandStr st))
                 = (documents st, Some name)))).
Proof.
  unfold processCommand.
  destruct (tokens commandStr) as [|command args]; [now left|].
  assert (T : forall st0,
             docSide (snd (bind (dispatch snap b command args)
               (fun exit => match exit with
                            | Break outputLines =>
                                act (setLines (fun prev => (prev ++ outputLines)%list))
                            | Return => ret tt
                            end) st0))
             = docSide (snd (dispatch snap b command args st0))).
  { intro st0. unfold bind. destruct (dispatch snap b command args st0) as [[[o|]|e|] s];
      reflexivity. }
  rewrite T.
  destruct (switchOn (JS.toLowerCase command)) eqn:E;
    try (left; apply dispatch_keeps_docSide; rewrite E; discriminate).
  apply switchOn_docs in E as E'.
  unfold dispatch. rewrite E.
  destruct (docsCommand_docSide snap args st) as [H|[[H1 H2]|[name [H1 [H2 [H3 H4]]]]]].
  - now left.
  - right. exists command, args. split; [reflexivity|]. split; [exact E'|]. left. now split.
  - right. exists command, args. split; [reflexivity|]. split; [exact E'|]. right.
    exists name. repeat split; assumption.
Qed.

Lemma handleSubmit_docSide (st : State) (b : Backend) :
  docSide (step st (Submit b)) = docSide st
  \/ (exists command args, tokens (JS.trim (inputValue st)) = command :: args
      /\ JS.toLowerCase command = "docs"
      /\ ((nth_error args 0 = Some "clear"
           /\ docSide (step st (Submit b)) = (Documents.empty, None))
          \/ (exists name, nth_error args 0 = Some "select" /\ nth_error args 1 = Some name
              /\ Documents.truthy (Documents.get (documents st) name) = true
              /\ docSide (step st (Submit b)) = (documents st, Some name)))).
Proof.
  unfold step, handler.
  apply (handleSubmit_elim docSide
    (fun x => x = docSide st
      \/ (exists command args, tokens (JS.trim (inputValue st)) = command :: args
          /\ JS.toLowerCase command = "docs"
          /\ ((nth_error args 0 = Some "clear" /\ x = (Documents.empty, None))
              \/ (exists name, nth_error args 0 = Some "select"
                  /\ nth_error args 1 = Some name
                  /\ Documents.truthy (Documents.get (documents st) name) = true
                  /\ x = (documents st, Some name))))));
    try (intro; intros; reflexivity).
  - now left.
  - intros st1 H1. left.
    assert (K : keeps docSide (handleChat b (JS.trim (inputValue st))))
      by (unfold handleChat; keeps_tac).
    now rewrite K.
  - intros st1 H1. left.
    assert (K : keeps docSide (handleChatDocConversation b (JS.trim (inputValue st))))
      by (unfold handleChatDocConversation; keeps_tac).
    now rewrite K.
  - intros st1 H1 _ _.
    match goal with |- context [processCommand st b ?c ?s] =>
      destruct (processCommand_docSide st b c s) as [H|[command [args [Ht [Hc H]]]]];
      assert (Hs : docSide s = docSide st) by exact H1
    end.
    + left. now rewrite H.
    + right. exists command, args.
      assert (Ht' : tokens (JS.trim (inputValue st)) = command :: args).
      { exact Ht. }
      split; [exact Ht'|]. split; [exact Hc|].
      destruct H as [[Ha Hb]|[name [Ha [Hb [Hg Hd]]]]].
      * left. now split.
      * right. exists name. repeat split; try assumption.
        rewrite Hd. f_equal. exact (f_equal fst Hs).
Qed.

(** What an upload does to the table and the selection. *)
Lemma handleFileChange_docSide (st : State) (selected : option File.t) :
  docSide (step st (FileChange selected)) = docSide st
  \/ (exists file content, selected = Some file /\ mimeGuard file = false
      /\ File.read file = File.ReadOk content
      /\ docSide (step st (FileChange selected))
         = (Documents.set (documents st) (File.name file) content,
            if JS.truthyOpt (activeDoc st) then activeDoc st else Some (File.name file))).
Proof.
  unfold step, handler, handleFileChange.
  destruct selected as [file|]; [|now left].
  destruct (mimeGuard file) eqn:G; [now left|].
  destruct (File.read file) as [content|error] eqn:R; [|now left].
  right. exists file, content.
  split; [reflexivity|]. split; [exact G|]. split; [exact R|].
  destruct (JS.truthyOpt (activeDoc st)); reflexivity.
Qed.

Lemma step_docSide_other (st : State) (e : Event) :
  (forall b, e <> Submit b) -> (forall selected, e <> FileChange selected) ->
  docSide (step st e) = docSide st.
Proof.
  intros Hs Hf.
  assert (Hkeep : forall m : Async unit, keeps docSide m -> docSide (snd (m st)) = docSide st).
  { intros m K. apply K. }
  unfold step. destruct e; simpl handler; try (apply Hkeep; keeps_tac; fail).
  - elim (Hs b). reflexivity.
  - apply Hkeep. unfold handleInputChange. keeps_tac.
  - apply Hkeep. unfold handleKeyDown. keeps_tac.
  - elim (Hf selected). reflexivity.
  - apply Hkeep. unfold handleToggleListening. keeps_tac.
  - apply Hkeep. unfold recognitionOnError. keeps_tac.
Qed.

Lemma get_set_defined (d : Documents.t) (k v active : string) :
  Documents.get d active <> Documents.Undefined ->
  Documents.get (Documents.set d k v) active <> Documents.Undefined.
Proof.
  unfold Documents.get. destruct (String.eqb_spec active k) as [->|Hne].
  - rewrite own_set_same. discriminate.
  - rewrite (own_set_other d k v active Hne). tauto.
Qed.

Lemma truthy_defined (v : Documents.Value) :
  Documents.truthy v = true -> v <> Documents.Undefined.
Proof. intros H ->. discriminate H. Qed.

Lemma step_readable (st : State) (e : Event) :
  readable (docSide st) -> readable (docSide (step st e)).
Proof.
  intros Hst. destruct e;
    try (rewrite step_docSide_other; [exact Hst | discriminate | discriminate]).
  - destruct (handleSubmit_docSide st b)
      as [H|[command [args [_ [_ [[_ H]|[name [_ [_ [G H]]]]]]]]]]; rewrite H.
    + exact Hst.
    + intros active E. discriminate E.
    + intros active E. injection E as <-. now apply truthy_defined.
  - destruct (handleFileChange_docSide st selected)
      as [H|[file [content [_ [_ [_ H]]]]]]; rewrite H; [exact Hst|].
    intros active E. cbn [fst snd] in *.
    destruct (JS.truthyOpt (activeDoc st)).
    + apply get_set_defined. now apply Hst.
    + injection E as <-. unfold Documents.get. rewrite own_set_same. discriminate.
Qed.

Lemma run_readable (events : list Event) :
  forall st, readable (docSide st) -> readable (docSide (run events st)).
Proof.
  induction events as [|e events IH]; intros st H; simpl; [exact H|].
  apply IH. now apply step_readable.
Qed.

Lemma run_app (events events' : list Event) (st : State) :
  run (events ++ events')%list st = run events' (run events st).
Proof. apply fold_left_app. Qed.

(** X16. The table of documents changes in two ways only.  An event
    leaves it as it is, or it is the upload of a file that passed the
    type check and was read, which sets the one entry of the file's name,
    or it is the submission of [docs clear], which empties the table and
    unsets the selection. *)
Theorem documents_change_only_by_upload_or_clear (st : State) (e : Event) :
  documents (step st e) = documents st
  \/ (exists file content,
        e = FileChange (Some file) /\ mimeGuard file = false
        /\ File.read file = File.ReadOk content
        /\ documents (step st e) = Documents.set (documents st) (File.name file) content)
  \/ (exists b command rest,
        e = Submit b
        /\ tokens (JS.trim (inputValue st)) = command :: "clear" :: rest
        /\ JS.toLowerCase command = "docs"
        /\ documents (step st e) = Documents.empty
        /\ activeDoc (step st e) = None).
Proof.
  pose proof (step_docSide_other st e) as O.
  destruct e; try (left; apply (f_equal fst (O ltac:(discriminate) ltac:(discriminate))));
    clear O.
  - destruct (handleSubmit_docSide st b)
      as [H|[command [args [Ht [Hc [[Ha H]|[name [_ [_ [_ H]]]]]]]]]].
    + left. exact (f_equal fst H).
    + right; right. destruct args as [|sub rest]; [discriminate Ha|].
      injection Ha as ->. exists b, command, rest.
      split; [reflexivity|]. split; [exact Ht|]. split; [exact Hc|].
      split; [exact (f_equal fst H) | exact (f_equal snd H)].
    + left. exact (f_equal fst H).
  - destruct (handleFileChange_docSide st selected)
      as [H|[file [content [-> [G [R H]]]]]].
    + left. exact (f_equal fst H).
    + right; left. exists file, content.
      split; [reflexivity|]. split; [exact G|]. split; [exact R|].
      exact (f_equal fst H).
Qed.

(** X17. The selection can always be read.  In every session from the
    initial state, the active document, when there is one, is a key of
    the table or a property name that every object inherits; the value
    read under it is never undefined. *)
Theorem active_document_is_readable (events : list Event) (active : string) :
  activeDoc (run events initialState) = Some active ->
  (In active (Documents.keys (documents (run events initialState)))
   \/ In active Documents.objectPrototype)
  /\ Documents.get (documents (run events initialState)) active <> Documents.Undefined.
Proof.
  intros H.
  assert (I : readable (docSide initialState)) by (intros a E; discriminate E).
  pose proof (run_readable events initialState I active H) as G.
  split; [|exact G]. cbn [docSide fst] in G. unfold Documents.get in G.
  destruct (Documents.own _ active) eqn:O.
  - left. apply own_keys. rewrite O. discriminate.
  - right. destruct (existsb (String.eqb active) Documents.objectPrototype) eqn:E;
      [|now elim G].
    apply existsb_exists in E as [x [Hx Ex]]. apply String.eqb_eq in Ex. now subst.
Qed.

Lemma active_document_is_readable_witness :
  activeDoc (run [FileChange (Some notesFile)] initialState) = Some "notes.txt"
  /\ Documents.get (documents (run [FileChange (Some notesFile)] initialState)) "notes.txt"
     <> Documents.Undefined.
Proof.
  assert (H : activeDoc (run [FileChange (Some notesFile)] initialState) = Some "notes.txt")
    by (vm_compute; reflexivity).
  split; [exact H|].
  exact (proj2 (active_document_is_readable [FileChange (Some notesFile)] "notes.txt" H)).
Defined.

(** ** Entering the conversation about a document *)

Lemma chatdoc_dispatch (st : State) (b : Backend) (command : string)
  (args : list string) (st0 : State) :
  isChatMode st = false -> JS.toLowerCase command = "chatdoc" ->
  dispatch st b command args st0
  = if negb (JS.truthyOpt (activeDoc st)) then
      (Returned (Break [line ERROR (Str
         "No active document. Use `docs select <filename>` or `upload` a new file.")]), st0)
    else if Nat.ltb 0 (List.length args) then
      (Returned (Break [line ERROR (Str
         "Usage: type `chatdoc` and press Enter to start a conversation.")]), st0)
    else
      (Returned (Break [line SYSTEM (Str
         ("Entered chat mode for '" ++ JS.str (activeDoc st) ++ "'. Type 'exit' to leave."))]),
       setIsChatDocMode true
         (logCall (CallStartChatDoc
                     (Documents.get (documents st) (JS.str (activeDoc st)))) st0)).
Proof.
  intros Hm Hc. unfold dispatch. rewrite Hc.
  change (switchOn "chatdoc") with case_chatdoc. cbv beta iota. rewrite Hm.
  destruct (negb (JS.truthyOpt (activeDoc st))); [reflexivity|].
  destruct (Nat.ltb 0 (List.length args)); reflexivity.
Qed.

Lemma chatdoc_submitted (st : State) (b : Backend) (command : string) (args : list string) :
  enabled st -> normal st ->
  tokens (JS.trim (inputValue st)) = command :: args ->
  JS.toLowerCase command = "chatdoc" ->
  let st' := step st (Submit b) in
  let echo := line COMMAND (Str (JS.trim (inputValue st))) in
  inputValue st' = ""
  /\ isChatMode st' = false
  /\ (JS.truthyOpt (activeDoc st) = false ->
      isChatDocMode st' = false /\ calls st' = calls st
      /\ lines st' = (lines st ++ [echo; line ERROR (Str
           "No active document. Use `docs select <filename>` or `upload` a new file.")])%list)
  /\ (JS.truthyOpt (activeDoc st) = true -> args <> [] ->
      isChatDocMode st' = false /\ calls st' = calls st
      /\ lines st' = (lines st ++ [echo; line ERROR (Str
           "Usage: type `chatdoc` and press Enter to start a conversation.")])%list)
  /\ (forall active, activeDoc st = Some active -> active <> "" -> args = [] ->
      isChatDocMode st' = true
      /\ calls st' = (calls st
           ++ [CallStartChatDoc (Documents.get (documents st) active)])%list
      /\ lines st' = (lines st ++ [echo; line SYSTEM (Str
           ("Entered chat mode for '" ++ active ++ "'. Type 'exit' to leave."))])%list).
Proof.
  intros He [Hc Hd] Htok Hcmd st' echo.
  pose proof (chatdoc_dispatch st b command args (commandStart st) Hc Hcmd) as D.
  assert (S := fun out st1 => submit_command st b command args out st1 He (conj Hc Hd) Htok).
  fold st' in S.
  destruct (JS.truthyOpt (activeDoc st)) eqn:T; cbn [negb] in D.
  - destruct args as [|a args].
    + cbn [List.length Nat.ltb Nat.leb] in D. rewrite (S _ _ D).
      split; [reflexivity|]. split; [exact Hc|].
      split; [discriminate|]. split; [intros _ N; now elim N|].
      intros active Ha _ _. rewrite Ha. cbn [JS.str].
      split; [reflexivity|]. split; [reflexivity|].
      cbn. unfold push. now rewrite <- app_assoc.
    + cbn [List.length Nat.ltb Nat.leb] in D. rewrite (S _ _ D).
      split; [reflexivity|]. split; [exact Hc|].
      split; [discriminate|].
      split; [intros _ _; split; [exact Hd|]; split; [reflexivity|];
              cbn; unfold push; now rewrite <- app_assoc|].
      intros active _ _ N. discriminate N.
  - rewrite (S _ _ D).
    split; [reflexivity|]. split; [exact Hc|].
    split; [intros _; split; [exact Hd|]; split; [reflexivity|];
            cbn; unfold push; now rewrite <- app_assoc|].
    split; [discriminate|].
    intros active Ha Hne _. rewrite Ha in T. cbn [JS.truthyOpt] in T.
    unfold JS.truthy in T. apply negb_false_iff, String.eqb_eq in T. now elim Hne.
Qed.


(** X18. The [chatdoc] command.  Submitted in Normal mode, it needs an
    active document and no argument.  Without an active document, or with
    an argument, it appends one error line, starts no session and stays
    in Normal mode.  Otherwise it starts a session on the value read from
    the table under the active name, enters document chat mode and says
    so; the input is cleared in every case. *)
Theorem chatdoc_entry (st : State) (b : Backend) (command : string) (args : list string) :
  enabled st -> normal st ->
  tokens (JS.trim (inputValue st)) = command :: args ->
  JS.toLowerCase command = "chatdoc" ->
  let st' := step st (Submit b) in
  let echo := line COMMAND (Str (JS.trim (inputValue st))) in
  inputValue st' = ""
  /\ isChatMode st' = false
  /\ (JS.truthyOpt (activeDoc st) = false ->
      isChatDocMode st' = false /\ calls st' = calls st
      /\ lines st' = (lines st ++ [echo; line ERROR (Str
           "No active document. Use `docs select <filename>` or `upload` a new file.")])%list)
  /\ (JS.truthyOpt (activeDoc st) = true -> args <> [] ->
      isChatDocMode st' = false /\ calls st' = calls st
      /\ lines st' = (lines st ++ [echo; line ERROR (Str
           "Usage: type `chatdoc` and press Enter to start a conversation.")])%list)
  /\ (forall active, activeDoc st = Some active -> active <> "" -> args = [] ->
      isChatDocMode st' = true
      /\ calls st' = (calls st
           ++ [CallStartChatDoc (Documents.get (documents st) active)])%list
      /\ lines st' = (lines st ++ [echo; line SYSTEM (Str
           ("Entered chat mode for '" ++ active ++ "'. Type 'exit' to leave."))])%list).
Proof. exact (chatdoc_submitted st b command args). Qed.

Lemma chatdoc_entry_witness :
  isChatDocMode docChatSession = true
  /\ calls docChatSession
     = [CallReadAsText "notes.txt"; CallStartChatDoc (Documents.Content "hello")].
Proof.
  pose (st := run [FileChange (Some notesFile); InputChange "chatdoc"] initialState).
  assert (He : enabled st) by (split; reflexivity).
  assert (Hn : normal st) by (split; reflexivity).
  assert (Ht : tokens (JS.trim (inputValue st)) = ["chatdoc"]) by reflexivity.
  destruct (chatdoc_entry st sampleBackend "chatdoc" [] He Hn Ht eq_refl)
    as [_ [_ [_ [_ H]]]].
  assert (Ha : activeDoc st = Some "notes.txt") by reflexivity.
  destruct (H "notes.txt" Ha ltac:(discriminate) eq_refl) as [M [C _]].
  split; [exact M|]. change docChatSession with (step st (Submit sampleBackend)).
  rewrite C. reflexivity.
Defined.

(** ** An upload followed by [chatdoc] *)

Lemma step_InputChange (st : State) (value : string) :
  exists shown, step st (InputChange value) = setSuggestions shown (setInputValue value st).
Proof.
  unfold step, handler, handleInputChange.
  destruct (Nat.ltb 0 (List.length (suggestions st))).
  - exists []. reflexivity.
  - exists (suggestions st). destruct st; reflexivity.
Qed.

Lemma step_upload (st : State) (file : File.t) (content : string) :
  mimeGuard file = false -> File.read file = File.ReadOk content ->
  step st (FileChange (Some file))
  = setLines (fun prev =>
      (prev ++ [ line SYSTEM (Str ("Successfully loaded '" ++ File.name file ++ "' ("
                   ++ JS.numberToString (String.length content) ++ " characters)."));
                 line SYSTEM (Str
                   "Use `docs list` to see all files or `chatdoc` to start a conversation.") ])%list)
      ((if JS.truthyOpt (activeDoc st) then fun s => s
        else setActiveDoc (Some (File.name file)))
         (setDocuments (fun prev => Documents.set prev (File.name file) content)
            (logCall (CallReadAsText (File.name file)) st))).
Proof.
  intros G R. unfold step, handler, handleFileChange. rewrite G, R.
  destruct (JS.truthyOpt (activeDoc st)); reflexivity.
Qed.

Lemma upload_then_chatdoc_states (st : State) (file : File.t) (content : string)
  (b : Backend) :
  enabled st -> normal st ->
  mimeGuard file = false -> File.read file = File.ReadOk content ->
  File.name file <> "" ->
  let st' := run (FileChange (Some file) :: submit "chatdoc" b) st in
  isChatDocMode st' = true
  /\ documents st' = Documents.set (documents st) (File.name file) content
  /\ (JS.truthyOpt (activeDoc st) = false ->
      activeDoc st' = Some (File.name file)
      /\ calls st' = (calls st ++ [ CallReadAsText (File.name file);
                                    CallStartChatDoc (Documents.Content content) ])%list)
  /\ (forall active, activeDoc st = Some active -> active <> "" ->
      active <> File.name file ->
      activeDoc st' = Some active
      /\ calls st' = (calls st ++ [ CallReadAsText (File.name file);
                                    CallStartChatDoc (Documents.get (documents st) active) ])%list).
Proof.
  intros [He1 He2] [Hn1 Hn2] G R Hname st'. subst st'.
  unfold run, submit. cbn [fold_left]. rewrite (step_upload st file content G R).
  match goal with |- context [step ?s (InputChange "chatdoc")] =>
    destruct (step_InputChange s "chatdoc") as [shown ->]
  end.
  destruct (JS.truthyOpt (activeDoc st)) eqn:T;
    match goal with |- context [step ?s (Submit b)] => set (st2 := s) end;
    assert (E2 : enabled st2) by (split; [exact He1 | exact He2]);
    assert (N2 : normal st2) by (split; [exact Hn1 | exact Hn2]);
    assert (T2 : tokens (JS.trim (inputValue st2)) = ["chatdoc"]) by reflexivity;
    assert (D2 : documents st2 = Documents.set (documents st) (File.name file) content)
      by reflexivity;
    assert (C2 : calls st2 = (calls st ++ [CallReadAsText (File.name file)])%list)
      by reflexivity;
    destruct (chatdoc_submitted st2 b "chatdoc" [] E2 N2 T2 eq_refl)
      as [_ [_ [_ [_ H]]]];
    assert (K : docSide (step st2 (Submit b)) = docSide st2)
      by (destruct (handleSubmit_docSide st2 b) as [K|[command [args [Ht [Hc _]]]]];
          [exact K | rewrite T2 in Ht; injection Ht as <- _; discriminate Hc]);
    assert (Kd := f_equal fst K); assert (Ka := f_equal snd K);
    cbn [docSide fst snd] in Kd, Ka.
  - destruct (activeDoc st) as [a|] eqn:Ea; [|discriminate T].
    assert (A2 : activeDoc st2 = Some a) by exact Ea.
    assert (Hane : a <> "").
    { intros ->. discriminate T. }
    destruct (H a A2 Hane eq_refl) as [M [C _]].
    split; [exact M|]. split; [now rewrite Kd|].
    split; [discriminate|].
    intros active Eq _ Hdiff. injection Eq as <-.
    split; [now rewrite Ka|].
    rewrite C, C2, D2, <- app_assoc. unfold Documents.get.
    rewrite (own_set_other _ _ _ _ Hdiff). reflexivity.
  - assert (A2 : activeDoc st2 = Some (File.name file)) by reflexivity.
    destruct (H (File.name file) A2 Hname eq_refl) as [M [C _]].
    split; [exact M|]. split; [now rewrite Kd|].
    split.
    + intros _. split; [now rewrite Ka|].
      rewrite C, C2, D2, <- app_assoc. unfold Documents.get.
      now rewrite own_set_same.
    + intros active Eq Hne _. rewrite Eq in T. cbn [JS.truthyOpt] in T.
      unfold JS.truthy in T. apply negb_false_iff, String.eqb_eq in T. now elim Hne.
Qed.

(** X19. An upload followed by [chatdoc].  From an enabled state in
    Normal mode, uploading a readable text file with a name and then
    submitting [chatdoc] enters document chat mode.  When no document was
    active, the session is started on the content just uploaded; when
    another document was active, it stays active and the session is
    started on what the table held under its name, not on the new file. *)
Theorem upload_then_chatdoc (st : State) (file : File.t) (content : string)
  (b : Backend) :
  enabled st -> normal st ->
  mimeGuard file = false -> File.read file = File.ReadOk content ->
  File.name file <> "" ->
  let st' := run (FileChange (Some file) :: submit "chatdoc" b) st in
  isChatDocMode st' = true
  /\ documents st' = Documents.set (documents st) (File.name file) content
  /\ (JS.truthyOpt (activeDoc st) = false ->
      activeDoc st' = Some (File.name file)
      /\ calls st' = (calls st ++ [ CallReadAsText (File.name file);
                                    CallStartChatDoc (Documents.Content content) ])%list)
  /\ (forall active, activeDoc st = Some active -> active <> "" ->
      active <> File.name file ->
      activeDoc st' = Some active
      /\ calls st' = (calls st ++ [ CallReadAsText (File.name file);
                                    CallStartChatDoc (Documents.get (documents st) active) ])%list).
Proof. exact (upload_then_chatdoc_states st file content b). Qed.

Lemma upload_then_chatdoc_witness :
  activeDoc docChatSession = Some "notes.txt"
  /\ documents docChatSession = [("notes.txt", "hello")].
Proof.
  assert (He : enabled initialState) by (split; reflexivity).
  assert (Hn : normal initialState) by (split; reflexivity).
  assert (Hf : File.name notesFile <> "") by discriminate.
  destruct (upload_then_chatdoc initialState notesFile "hello" sampleBackend
              He Hn eq_refl eq_refl Hf) as [_ [D [A _]]].
  split; [exact (proj1 (A eq_refl)) | exact D].
Defined.

(** ** The image commands *)

Lemma append_not_empty (a b : string) : a <> "" -> a ++ b <> "".
Proof. destruct a; [congruence | discriminate]. Qed.

(** The prompt of a command is empty exactly when no argument follows
    the command token. *)
Lemma prompt_truthy (s command : string) (args : list string) :
  tokens s = command :: args ->
  JS.truthy (JS.join " " args) = negb (Nat.eqb (List.length args) 0).
Proof.
  intros H.
  assert (F : Forall (fun x => JS.truthy x = true) (command :: args)).
  { rewrite <- H. unfold tokens, JS.filterBoolean. apply Forall_forall.
    intros x Hx. now apply filter_In in Hx. }
  inversion F as [|? ? _ Fa]; subst.
  destruct args as [|a rest]; [reflexivity|].
  inversion Fa as [|? ? Ha _]; subst. apply truthy_named in Ha.
  unfold JS.truthy, JS.join. cbn [List.length Nat.eqb negb].
  apply negb_true_iff, String.eqb_neq.
  destruct rest; cbn [String.concat]; [exact Ha | now apply append_not_empty].
Qed.

Lemma image_dispatch (snap : State) (b : Backend) (command : string)
  (args : list string) (st0 : State) :
  JS.toLowerCase command = "image" -> JS.truthy (JS.join " " args) = true ->
  dispatch snap b command args st0
  = let prompt := JS.join " " args in
    let base64Image := generateImage b prompt in
    let called := logCall (CallGenerateImage prompt) (setIsLoading true st0) in
    if JS.startsWith base64Image "Error:" then
      (Returned (Break [line ERROR (Str base64Image)]), setIsLoading false called)
    else
      (Returned (Break [line IMAGE (Arr [base64Image; prompt])]),
       setIsLoading false (setLastImage (Some base64Image) called)).
Proof.
  intros Hc Hp. unfold dispatch. rewrite Hc.
  change (switchOn "image") with case_image. cbv beta iota zeta. rewrite Hp. cbn [negb].
  destruct (JS.startsWith _ "Error:"); reflexivity.
Qed.

Lemma editimg_dispatch (snap : State) (b : Backend) (command : string)
  (args : list string) (st0 : State) :
  JS.toLowerCase command = "editimg" -> JS.truthy (JS.join " " args) = true ->
  JS.truthyOpt (lastImage snap) = true ->
  dispatch snap b command args st0
  = let prompt := JS.join " " args in
    let response := editImage b (JS.str (lastImage snap)) prompt in
    let called :=
      logCall (CallEditImage (JS.str (lastImage snap)) prompt) (setIsLoading true st0) in
    let textLines :=
      if JS.truthyOpt (editedText response)
      then [line OUTPUT (Arr (JS.split JS.LF (JS.str (editedText response))))]
      else [] in
    if JS.truthyOpt (image response) then
      (Returned (Break (textLines
         ++ [line IMAGE (Arr [JS.str (image response); prompt])])%list),
       setIsLoading false (setLastImage (image response) called))
    else if JS.truthyOpt (editedText response) then
      (Returned (Break textLines), setIsLoading false called)
    else
      (Returned (Break [line ERROR (Str "The AI did not return a valid response.")]),
       setIsLoading false called).
Proof.
  intros Hc Hp Hl. unfold dispatch. rewrite Hc.
  change (switchOn "editimg") with case_editimg. cbv beta iota zeta.
  rewrite Hp, Hl. cbn [negb].
  destruct (JS.truthyOpt (image _)); [reflexivity|].
  destruct (JS.truthyOpt (editedText _)); reflexivity.
Qed.

Lemma appended_after (st st1 : State) (added out : list Line) :
  lines st1 = (lines (commandStart st) ++ added)%list ->
  appended st (setInputValue "" (setLines (fun prev => (prev ++ out)%list) st1))
    (added ++ out).
Proof.
  intros H. unfold appended. cbn. rewrite H. cbn. unfold push.
  now rewrite <- !app_assoc.
Qed.

Lemma image_submitted (st : State) (b : Backend) (command : string)
  (args : list string) :
  enabled st -> normal st ->
  tokens (JS.trim (inputValue st)) = command :: args ->
  JS.toLowerCase command = "image" -> args <> [] ->
  let st' := step st (Submit b) in
  let prompt := JS.join " " args in
  let base64Image := generateImage b prompt in
  calls st' = (calls st ++ [CallGenerateImage prompt])%list
  /\ isLoading st' = false
  /\ (JS.startsWith base64Image "Error:" = true ->
      appended st st' [line ERROR (Str base64Image)] /\ lastImage st' = lastImage st)
  /\ (JS.startsWith base64Image "Error:" = false ->
      appended st st' [line IMAGE (Arr [base64Image; prompt])]
      /\ lastImage st' = Some base64Image).
Proof.
  intros He Hn Htok Hc Ha st' prompt base64Image.
  assert (Hp : JS.truthy (JS.join " " args) = true).
  { rewrite (prompt_truthy _ _ _ Htok). destruct args; [now elim Ha | reflexivity]. }
  pose proof (image_dispatch st b command args (commandStart st) Hc Hp) as D.
  cbv zeta in D. fold prompt in D. fold base64Image in D.
  assert (S := fun out st1 => submit_command st b command args out st1 He Hn Htok).
  fold st' in S.
  destruct (JS.startsWith base64Image "Error:"); rewrite (S _ _ D).
  - split; [reflexivity|]. split; [reflexivity|]. split; [|discriminate].
    intros _. split; [|reflexivity].
    apply (appended_after st _ [] [line ERROR (Str base64Image)]).
    cbn. now rewrite app_nil_r.
  - split; [reflexivity|]. split; [reflexivity|]. split; [discriminate|].
    intros _. split; [|reflexivity].
    apply (appended_after st _ [] [line IMAGE (Arr [base64Image; prompt])]).
    cbn. now rewrite app_nil_r.
Qed.

(** X20. The [image] command.  Submitted with a prompt in Normal mode, it
    calls the image generation once with the arguments joined by single
    spaces and ends with the busy flag clear.  A result that starts with
    [Error:] is shown as an Error line and the last image is kept; any
    other result is shown as an Image line with the prompt and becomes the
    last image. *)
Theorem image_command (st : State) (b : Backend) (command : string)
  (args : list string) :
  enabled st -> normal st ->
  tokens (JS.trim (inputValue st)) = command :: args ->
  JS.toLowerCase command = "image" -> args <> [] ->
  let st' := step st (Submit b) in
  let prompt := JS.join " " args in
  let base64Image := generateImage b prompt in
  calls st' = (calls st ++ [CallGenerateImage prompt])%list
  /\ isLoading st' = false
  /\ (JS.startsWith base64Image "Error:" = true ->
      appended st st' [line ERROR (Str base64Image)] /\ lastImage st' = lastImage st)
  /\ (JS.startsWith base64Image "Error:" = false ->
      appended st st' [line IMAGE (Arr [base64Image; prompt])]
      /\ lastImage st' = Some base64Image).
Proof. exact (image_submitted st b command args). Qed.

Lemma image_command_witness :
  let st := step initialState (InputChange "IMAGE  a   red fox") in
  calls (step st (Submit sampleBackend)) = [CallGenerateImage "a red fox"]
  /\ lastImage (step st (Submit sampleBackend)) = Some "iVBORw0KGgo".
Proof.
  intro st.
  assert (He : enabled st) by (split; reflexivity).
  assert (Hn : normal st) by (split; reflexivity).
  assert (Ht : tokens (JS.trim (inputValue st)) = ["IMAGE"; "a"; "red"; "fox"])
    by reflexivity.
  destruct (image_command st sampleBackend "IMAGE" ["a"; "red"; "fox"] He Hn Ht eq_refl
              ltac:(discriminate)) as [C [_ [_ I]]].
  split; [exact C | exact (proj2 (I eq_refl))].
Defined.

Lemma editimg_submitted (st : State) (b : Backend) (command : string)
  (args : list string) (last : string) :
  enabled st -> normal st ->
  tokens (JS.trim (inputValue st)) = command :: args ->
  JS.toLowerCase command = "editimg" -> args <> [] ->
  lastImage st = Some last -> last <> "" ->
  let st' := step st (Submit b) in
  let prompt := JS.join " " args in
  let response := editImage b last prompt in
  let textLines :=
    if JS.truthyOpt (editedText response)
    then [line OUTPUT (Arr (JS.split JS.LF (JS.str (editedText response))))]
    else [] in
  calls st' = (calls st ++ [CallEditImage last prompt])%list
  /\ isLoading st' = false
  /\ (JS.truthyOpt (image response) = true ->
      appended st st' (textLines ++ [line IMAGE (Arr [JS.str (image response); prompt])])
      /\ lastImage st' = image response)
  /\ (JS.truthyOpt (image response) = false ->
      lastImage st' = Some last
      /\ appended st st'
           (if JS.truthyOpt (editedText response) then textLines
            else [line ERROR (Str "The AI did not return a valid response.")])).
Proof.
  intros He Hn Htok Hc Ha Hl Hne st' prompt response textLines.
  assert (Hp : JS.truthy (JS.join " " args) = true).
  { rewrite (prompt_truthy _ _ _ Htok). destruct args; [now elim Ha | reflexivity]. }
  assert (Ht : JS.truthyOpt (lastImage st) = true).
  { rewrite Hl. cbn. unfold JS.truthy. now apply negb_true_iff, String.eqb_neq. }
  pose proof (editimg_dispatch st b command args (commandStart st) Hc Hp Ht) as D.
  cbv zeta in D. rewrite Hl in D. cbn [JS.str] in D.
  fold prompt in D. fold response in D. fold textLines in D.
  assert (S := fun out st1 => submit_command st b command args out st1 He Hn Htok).
  fold st' in S.
  destruct (JS.truthyOpt (image response)).
  - rewrite (S _ _ D).
    split; [reflexivity|]. split; [reflexivity|]. split; [|discriminate].
    intros _. split; [|reflexivity].
    apply (appended_after st _ []). cbn. now rewrite app_nil_r.
  - destruct (JS.truthyOpt (editedText response)); rewrite (S _ _ D);
      (split; [reflexivity|]); (split; [reflexivity|]); (split; [discriminate|]);
      intros _; (split; [exact Hl|]);
      apply (appended_after st _ []); cbn; now rewrite app_nil_r.
Qed.

(** X21. The [editimg] command with an image to edit.  Submitted with a
    prompt in Normal mode while a last image is remembered, it calls the
    image editing once on that image and ends with the busy flag clear.
    A returned image is shown after the returned text, if any, and
    becomes the last image.  Without a returned image the last image is
    kept, and the returned text is shown, or, when there is none either,
    one Error line. *)
Theorem editimg_with_image (st : State) (b : Backend) (command : string)
  (args : list string) (last : string) :
  enabled st -> normal st ->
  tokens (JS.trim (inputValue st)) = command :: args ->
  JS.toLowerCase command = "editimg" -> args <> [] ->
  lastImage st = Some last -> last <> "" ->
  let st' := step st (Submit b) in
  let prompt := JS.join " " args in
  let response := editImage b last prompt in
  let textLines :=
    if JS.truthyOpt (editedText response)
    then [line OUTPUT (Arr (JS.split JS.LF (JS.str (editedText response))))]
    else [] in
  calls st' = (calls st ++ [CallEditImage last prompt])%list
  /\ isLoading st' = false
  /\ (JS.truthyOpt (image response) = true ->
      appended st st' (textLines ++ [line IMAGE (Arr [JS.str (image response); prompt])])
      /\ lastImage st' = image response)
  /\ (JS.truthyOpt (image response) = false ->
      lastImage st' = Some last
      /\ appended st st'
           (if JS.truthyOpt (editedText response) then textLines
            else [line ERROR (Str "The AI did not return a valid response.")])).
Proof. exact (editimg_submitted st b command args last). Qed.

Lemma editimg_with_image_witness :
  let st := run (submit "image a red fox" sampleBackend ++ [InputChange "editimg add snow"])
              initialState in
  calls (step st (Submit editingBackend))
  = [CallGenerateImage "a red fox"; CallEditImage "iVBORw0KGgo" "add snow"]
  /\ lastImage (step st (Submit editingBackend)) = Some "R0lGODlh".
Proof.
  intro st.
  assert (He : enabled st) by (split; reflexivity).
  assert (Hn : normal st) by (split; reflexivity).
  assert (Ht : tokens (JS.trim (inputValue st)) = ["editimg"; "add"; "snow"])
    by reflexivity.
  assert (Hl : lastImage st = Some "iVBORw0KGgo") by reflexivity.
  destruct (editimg_with_image st editingBackend "editimg" ["add"; "snow"] "iVBORw0KGgo"
              He Hn Ht eq_refl ltac:(discriminate) Hl ltac:(discriminate))
    as [C [_ [I _]]].
  split; [rewrite C; reflexivity | exact (proj2 (I eq_refl))].
Defined.

(** ** The progress of the poll loop *)

Lemma pollLoop_progress (answers : list PollOutcome) :
  forall operation pollCount st,
    let st' := snd (pollLoop answers operation pollCount st) in
    lines st'
    = (lines st ++ progressLines pollCount (List.length (polled answers operation)))%list
    /\ calls st' = (calls st ++ map CallGetVideosOperation (polled answers operation))%list.
Proof.
  unfold progressLines.
  induction answers as [|a answers IH]; intros op n st; simpl;
    destruct (done op) eqn:D; simpl; try (now rewrite !app_nil_r).
  - split; reflexivity.
  - destruct a as [op'|e]; [|split; reflexivity].
    cbv beta iota delta [bind act ret].
    match goal with |- context [pollLoop answers op' (S n) ?s] =>
      destruct (IH op' (S n) s) as [L C]
    end.
    cbv zeta in L, C. rewrite L, C. cbn. unfold push.
    now rewrite <- !app_assoc.
Qed.

(** X22. The progress of the poll loop.  Every turn of the loop appends
    one System line and asks the backend once, about the operation it
    holds: the loop adds to the buffer one progress line per operation
    polled and to the call log one poll per such operation, and nothing
    else.  The line of turn [i] is the [i]-th progress message, and from
    the third turn on it is the last message, repeated. *)
Theorem poll_progress (answers : list PollOutcome) (operation : Operation)
  (pollCount : nat) (st : State) :
  let st' := snd (pollLoop answers operation pollCount st) in
  lines st'
  = (lines st ++ progressLines pollCount (List.length (polled answers operation)))%list
  /\ calls st' = (calls st ++ map CallGetVideosOperation (polled answers operation))%list
  /\ (forall i, 2 <= i -> pollMessage i = nth 2 pollMessages "")
  /\ (forall i, i < 3 -> pollMessage i = nth i pollMessages "").
Proof.
  destruct (pollLoop_progress answers operation pollCount st) as [L C].
  split; [exact L|]. split; [exact C|]. split.
  - intros i Hi. unfold pollMessage.
    replace (Nat.min i (List.length pollMessages - 1)) with 2; [reflexivity|].
    change (List.length pollMessages - 1) with 2. lia.
  - intros i Hi. unfold pollMessage.
    replace (Nat.min i (List.length pollMessages - 1)) with i; [reflexivity|].
    change (List.length pollMessages - 1) with 2. lia.
Qed.

Lemma poll_progress_witness :
  pollMessage 7 = "Still processing... This is taking longer than usual, but we're still on it!"
  /\ pollMessage 1 = "Still processing... Polishing the final cut.".
Proof.
  destruct (poll_progress [] (mkOperation true None) 0 initialState) as [_ [_ [H L]]].
  split; [rewrite (H 7); [reflexivity | lia] | rewrite (L 1); [reflexivity | lia]].
Defined.


(** ** The registry of commands *)

Lemma description_known (command : string) :
  getCommandDescription command <> "" <-> In command COMMANDS.
Proof.
  split.
  - unfold getCommandDescription, COMMANDS. intros H.
    repeat match goal with
    | H : context [if ?x =? ?y then _ else _] |- _ =>
        destruct (String.eqb_spec x y); [subst; simpl; tauto|]
    end.
    now elim H.
  - unfold COMMANDS. intros H. simpl in H.
    repeat (destruct H as [<-|H]; [vm_compute; discriminate|]).
    contradiction.
Qed.

(** X23. One registry of commands.  The names that Tab completes, the
    cases of the switch and the descriptions agree: a lowercased token
    runs a command exactly when it is in [COMMANDS], and exactly then it
    has a description.  [COMMANDS] has no duplicate, and the help text is
    its heading followed by one entry per command, in the order of
    [COMMANDS], that names the command and ends with its description. *)
Theorem command_registry_agrees (lowered : string) :
  (In lowered COMMANDS <-> switchOn lowered <> case_default)
  /\ (In lowered COMMANDS <-> getCommandDescription lowered <> "")
  /\ NoDup COMMANDS
  /\ List.length HELP_TEXT = S (List.length COMMANDS)
  /\ (forall i cmd, nth_error COMMANDS i = Some cmd ->
      nth_error HELP_TEXT (S i)
      = Some ("  " ++ JS.padEnd 12 JS.SPACE cmd ++ " - " ++ getCommandDescription cmd)).
Proof.
  split; [symmetry; apply switchOn_known|].
  split; [symmetry; apply description_known|].
  split.
  { unfold COMMANDS.
    repeat (constructor; [simpl; intros H;
      repeat (destruct H as [H|H]; [discriminate H|]); contradiction|]).
    constructor. }
  split; [unfold HELP_TEXT; cbn [List.length]; now rewrite length_map|].
  intros i cmd H. unfold HELP_TEXT. cbn [nth_error].
  rewrite nth_error_map, H. reflexivity.
Qed.

Lemma command_registry_agrees_witness :
  In "docs" COMMANDS /\ switchOn "docs" <> case_default
  /\ nth_error HELP_TEXT 10
     = Some "  docs         - Manage documents (use: docs <list|select|clear>).".
Proof.
  assert (I : In "docs" COMMANDS) by (vm_compute; tauto).
  destruct (command_registry_agrees "docs") as [S [_ [_ [_ H]]]].
  split; [exact I|]. split; [exact (proj1 S I)|].
  rewrite (H 9 "docs" eq_refl). reflexivity.
Defined.


(** * The service between the component and the SDK *)

Lemma flat_map_singleton {A B : Type} (f : A -> B) (l : list A) :
  flat_map (fun x => [f x]) l = map f l.
Proof. induction l as [|x l IH]; simpl; [reflexivity | now rewrite IH]. Qed.

Lemma service_completes (env : Service.Env) (s : Service.Sessions) :
  completes (Service.backend env s).
Proof.
  unfold completes, Service.backend; cbn [askGeminiStream searchWithGoogleStream
    sendChatMessageStream sendChatDocMessageStream].
  split; [|split; [|split]]; intro x.
  - unfold Service.askGeminiStream. destruct (negb _); reflexivity.
  - unfold Service.searchWithGoogleStream. destruct (negb _); reflexivity.
  - unfold Service.sendChatMessageStream. destruct (Service.chatSession s); reflexivity.
  - unfold Service.sendChatDocMessageStream. destruct (Service.chatDocSession s); reflexivity.
Qed.

(** X24. The service turns every exception of a stream into text.  The
    four streams it gives to the component always complete, and the video
    generation never throws at submission.  When the stream of the SDK
    breaks during [ask], the handler returns and the Output line holds what
    was appended for the chunks received so far, followed by the error
    text; for a chunk without text the word undefined was appended. *)
Theorem service_turns_exceptions_into_text (env : Service.Env) (s : Service.Sessions) :
  let b := Service.backend env s in
  completes b
  /\ (forall prompt e, generateVideo b prompt <> StartThrows e)
  /\ (forall prompt st e,
        JS.truthyOpt (Service.API_KEY env) = true ->
        let responseStream :=
          Service.generateContentStream env
            (Service.mkStreamRequest "gemini-2.5-flash" prompt
               (Some Service.CHAT_SYSTEM_INSTRUCTION) false) in
        failure responseStream = Some e ->
        fst (handleAsk b prompt st) = Returned tt
        /\ finalized st (snd (handleAsk b prompt st))
             (map (fun chunk => Service.appendedText (Service.Chunk.text chunk))
                (yielded responseStream)
              ++ [Service.apiError e])%list).
Proof.
  intro b. pose proof (service_completes env s) as C.
  split; [exact C|].
  split.
  { intros prompt e. unfold b, Service.backend. cbn [generateVideo].
    unfold Service.generateVideo. destruct (negb _); [discriminate|].
    destruct (Service.generateVideos _ _ _) as [op|[m|]]; discriminate. }
  intros prompt st e K responseStream F.
  unfold handleAsk.
  destruct (streamResponse_finalized (CallAskGeminiStream prompt)
              (askGeminiStream b prompt) st) as [H1 H2].
  assert (Y : askGeminiStream b prompt
              = mkStream (map (fun chunk => Service.appendedText (Service.Chunk.text chunk))
                            (yielded responseStream)
                          ++ [Service.apiError e])%list None).
  { unfold b, Service.backend. cbn [askGeminiStream].
    unfold Service.consumed, Service.askGeminiStream.
    rewrite K. cbn [negb]. unfold Service.tryYield. fold responseStream.
    cbn [yielded failure].
    now rewrite F, flat_map_singleton, map_app, map_map. }
  rewrite Y in H1, H2. rewrite Y. split; [exact H1 | exact H2].
Qed.

Lemma service_turns_exceptions_into_text_witness :
  let b := Service.backend (sampleEnv (Some "key")) Service.noSessions in
  finalized initialState (snd (handleAsk b "hello" initialState))
    ["Hi"; "undefined"; "Gemini API Error: quota exceeded"].
Proof.
  intro b.
  destruct (service_turns_exceptions_into_text (sampleEnv (Some "key")) Service.noSessions)
    as [_ [_ H]].
  exact (proj2 (H "hello" initialState (JsError "quota exceeded") eq_refl eq_refl)).
Defined.

(** ** Without a key *)

Lemma sessions_without_key (env : Service.Env) (log : list Call) :
  JS.truthyOpt (Service.API_KEY env) = false ->
  forall s, fold_left (Service.onCall env) log s = s.
Proof.
  intros K. induction log as [|c log IH]; intro s; simpl; [reflexivity|].
  rewrite IH. unfold Service.onCall, Service.startChat, Service.startChatDoc.
  rewrite K. destruct c; reflexivity.
Qed.

(** X25. Without a key the component shows the fixed messages of the
    service.  No session is ever created, whatever the calls made, so a
    message sent in chat mode is answered by the text that the session
    was not started.  The [ask] command shows the
    message as an Output line.  The [image] command shows it as an Error
    line and keeps the last image, because the message starts with
    [Error:]; the [video] command is refused with it. *)
Theorem without_api_key (env : Service.Env) (log : list Call) :
  JS.truthyOpt (Service.API_KEY env) = false ->
  let b := Service.backend env (Service.sessions env log) in
  Service.sessions env log = Service.noSessions
  /\ (forall message st,
        (JS.toLowerCase message =? "exit") = false ->
        finalized st (snd (handleChat b message st))
          ["Error: Chat session not started. This is an unexpected error."])
  /\ (forall prompt st,
        finalized st (snd (handleAsk b prompt st)) [Service.notConfigured])
  /\ (forall st command args,
        enabled st -> normal st ->
        tokens (JS.trim (inputValue st)) = command :: args ->
        JS.toLowerCase command = "image" -> args <> [] ->
        appended st (step st (Submit b)) [line ERROR (Str Service.notConfigured)]
        /\ lastImage (step st (Submit b)) = lastImage st)
  /\ (forall prompt, generateVideo b prompt = StartFailed Service.notConfigured).
Proof.
  intros K b.
  assert (S : Service.sessions env log = Service.noSessions)
    by (apply sessions_without_key; exact K).
  split; [exact S|]. split.
  { intros message st Hx. unfold handleChat. rewrite Hx.
    replace (sendChatMessageStream b message)
      with (mkStream ["Error: Chat session not started. This is an unexpected error."] None);
      [apply (streamResponse_finalized _ (mkStream _ None))|].
    unfold b, Service.backend. cbn [sendChatMessageStream].
    unfold Service.sendChatMessageStream. now rewrite S. }
  split.
  { intros prompt st. unfold handleAsk.
    replace (askGeminiStream b prompt) with (mkStream [Service.notConfigured] None);
      [apply (streamResponse_finalized _ (mkStream _ None))|].
    unfold b, Service.backend. cbn [askGeminiStream]. unfold Service.askGeminiStream.
    now rewrite K. }
  assert (G : forall prompt, generateImage b prompt = Service.notConfigured).
  { intro prompt. unfold b, Service.backend. cbn [generateImage].
    unfold Service.generateImage. now rewrite K. }
  split.
  { intros st command args He Hn Ht Hc Ha.
    destruct (image_submitted st b command args He Hn Ht Hc Ha) as [_ [_ [H _]]].
    rewrite G in H. apply H. reflexivity. }
  intro prompt. unfold b, Service.backend. cbn [generateVideo].
  unfold Service.generateVideo. now rewrite K.
Qed.

Lemma without_api_key_witness :
  let b := Service.backend (sampleEnv None)
             (Service.sessions (sampleEnv None) [CallStartChat]) in
  let st := step initialState (InputChange "image a red fox") in
  appended st (step st (Submit b)) [line ERROR (Str Service.notConfigured)]
  /\ lastImage (step st (Submit b)) = None.
Proof.
  intros b st.
  destruct (without_api_key (sampleEnv None) [CallStartChat] eq_refl)
    as [_ [_ [_ [H _]]]].
  assert (He : enabled st) by (split; reflexivity).
  assert (Hn : normal st) by (split; reflexivity).
  assert (Ht : tokens (JS.trim (inputValue st)) = ["image"; "a"; "red"; "fox"])
    by reflexivity.
  exact (H st "image" ["a"; "red"; "fox"] He Hn Ht eq_refl ltac:(discriminate)).
Defined.

(** ** An exception of the image generation *)

Lemma not_an_error_text (message : string) :
  JS.startsWith ("Gemini API Error: " ++ message) "Error:" = false.
Proof. reflexivity. Qed.

(** X26. An exception of the image generation is taken for an image.
    With a key, when the SDK throws while generating, the service returns
    a text that does not start with [Error:]; the [image] command then
    shows that text as an Image line and remembers it as the last image;
    no Error line is added. *)
Theorem image_exception_shown_as_image (env : Service.Env) (s : Service.Sessions)
  (st : State) (command : string) (args : list string) (e : Exn) :
  JS.truthyOpt (Service.API_KEY env) = true ->
  Service.generateImages env "imagen-4.0-generate-001" (JS.join " " args)
  = Service.Throws e ->
  enabled st -> normal st ->
  tokens (JS.trim (inputValue st)) = command :: args ->
  JS.toLowerCase command = "image" -> args <> [] ->
  let st' := step st (Submit (Service.backend env s)) in
  let shown :=
    match e with
    | JsError message => "Gemini API Error: " ++ message
    | JsOther => "An unknown error occurred while generating the image."
    end in
  appended st st' [line IMAGE (Arr [shown; JS.join " " args])]
  /\ lastImage st' = Some shown
  /\ errorLines (lines st') = errorLines (lines st).
Proof.
  intros K T He Hn Ht Hc Ha st' shown.
  destruct (image_submitted st (Service.backend env s) command args He Hn Ht Hc Ha)
    as [_ [_ [_ H]]].
  assert (G : generateImage (Service.backend env s) (JS.join " " args) = shown).
  { unfold Service.backend. cbn [generateImage]. unfold Service.generateImage.
    rewrite K, T. reflexivity. }
  rewrite G in H. fold st' in H.
  assert (N : JS.startsWith shown "Error:" = false) by (destruct e; reflexivity).
  destruct (H N) as [A L]. split; [exact A|]. split; [exact L|].
  unfold appended in A. rewrite A. unfold errorLines.
  rewrite filter_app. cbn. now rewrite app_nil_r.
Qed.

Lemma image_exception_shown_as_image_witness :
  let b := Service.backend (sampleEnv (Some "key")) Service.noSessions in
  let st := step initialState (InputChange "image a red fox") in
  lastImage (step st (Submit b)) = Some "Gemini API Error: quota exceeded".
Proof.
  intros b st.
  assert (He : enabled st) by (split; reflexivity).
  assert (Hn : normal st) by (split; reflexivity).
  assert (Ht : tokens (JS.trim (inputValue st)) = ["image"; "a"; "red"; "fox"])
    by reflexivity.
  exact (proj1 (proj2 (image_exception_shown_as_image (sampleEnv (Some "key"))
    Service.noSessions st "image" ["a"; "red"; "fox"] (JsError "quota exceeded")
    eq_refl eq_refl He Hn Ht eq_refl ltac:(discriminate)))).
Defined.

(** ** What the image editing gives back *)

Lemma truthyOpt_text (message : string) :
  message <> "" -> JS.truthyOpt (Some message) = true.
Proof. intros H. cbn. unfold JS.truthy. now apply negb_true_iff, String.eqb_neq. Qed.

Lemma editImage_shows_something (env : Service.Env) (base64ImageData prompt : string) :
  let response := Service.editImage env base64ImageData prompt in
  JS.truthyOpt (image response) = true \/ JS.truthyOpt (editedText response) = true.
Proof.
  assert (C : forall e, JS.truthyOpt (editedText
               match e with
               | JsError message => mkEdited None (Some ("Gemini API Error: " ++ message))
               | JsOther => mkEdited None (Some "An unknown error occurred while editing the image.")
               end) = true).
  { intros [message|]; reflexivity. }
  cbv zeta. unfold Service.editImage.
  destruct (negb (JS.truthyOpt (Service.API_KEY env))); [right; reflexivity|].
  destruct (Service.generateContent env _) as [response|e]; [|right; apply C].
  destruct (Service.Response.parts response) as [parts|e]; [|right; apply C].
  destruct (JS.truthyOpt (image (Service.forParts parts (mkEdited None None)))) eqn:I;
    cbn [negb andb]; [now left|].
  destruct (JS.truthyOpt (editedText (Service.forParts parts (mkEdited None None)))) eqn:T;
    cbn [negb]; [now right | right; reflexivity].
Qed.

Lemma shown_lines_hold_no_error (added : list Line) :
  Forall (fun l => type l = OUTPUT \/ type l = IMAGE) added -> errorLines added = [].
Proof.
  unfold errorLines. induction 1 as [|l added [O|O] _ IH]; [reflexivity| |];
    cbn [filter]; rewrite O; exact IH.
Qed.

(** X27. A failure of the image editing is shown as an Output line.
    The service always gives back an image or a text, the text of the
    error when something failed.  So the [editimg] command, run with a
    prompt on a remembered image, appends Output and Image lines only and
    at least one of them: its own Error line, for an answer with neither
    image nor text, cannot appear. *)
Theorem editimg_failure_shown_as_output (env : Service.Env) (s : Service.Sessions)
  (st : State) (command : string) (args : list string) (last : string) :
  enabled st -> normal st ->
  tokens (JS.trim (inputValue st)) = command :: args ->
  JS.toLowerCase command = "editimg" -> args <> [] ->
  lastImage st = Some last -> last <> "" ->
  let st' := step st (Submit (Service.backend env s)) in
  exists added,
    appended st st' added /\ added <> []
    /\ Forall (fun l => type l = OUTPUT \/ type l = IMAGE) added
    /\ errorLines (lines st') = errorLines (lines st).
Proof.
  intros He Hn Ht Hc Ha Hl Hne st'.
  destruct (editimg_submitted st (Service.backend env s) command args last
              He Hn Ht Hc Ha Hl Hne) as [_ [_ [Hi Hx]]].
  fold st' in Hi, Hx.
  assert (E : editImage (Service.backend env s) last (JS.join " " args)
              = Service.editImage env last (JS.join " " args)) by reflexivity.
  rewrite E in Hi, Hx.
  pose proof (editImage_shows_something env last (JS.join " " args)) as Sh.
  cbv zeta in Sh.
  set (response := Service.editImage env last (JS.join " " args)) in *.
  assert (Er : forall added, appended st st' added ->
               Forall (fun l => type l = OUTPUT \/ type l = IMAGE) added ->
               errorLines (lines st') = errorLines (lines st)).
  { intros added A F. unfold appended in A. rewrite A.
    pose proof (shown_lines_hold_no_error added F) as N. unfold errorLines in *.
    rewrite filter_app. cbn [filter type line LineType_eqb].
    now rewrite N, app_nil_r. }
  destruct (JS.truthyOpt (image response)) eqn:I.
  - destruct (Hi eq_refl) as [A _]. eexists. split; [exact A|].
    assert (F : Forall (fun l => type l = OUTPUT \/ type l = IMAGE)
                  ((if JS.truthyOpt (editedText response)
                    then [line OUTPUT (Arr (JS.split JS.LF (JS.str (editedText response))))]
                    else []) ++ [line IMAGE (Arr [JS.str (image response); JS.join " " args])])%list).
    { destruct (JS.truthyOpt (editedText response)); repeat constructor; now right. }
    split; [destruct (JS.truthyOpt (editedText response)); discriminate|].
    split; [exact F | exact (Er _ A F)].
  - destruct Sh as [Sh|Sh]; [discriminate Sh|].
    destruct (Hx eq_refl) as [_ A]. rewrite Sh in A. eexists. split; [exact A|].
    split; [discriminate|].
    assert (F : Forall (fun l => type l = OUTPUT \/ type l = IMAGE)
                  [line OUTPUT (Arr (JS.split JS.LF (JS.str (editedText response))))]).
    { repeat constructor. }
    split; [exact F | exact (Er _ A F)].
Qed.

Lemma editimg_failure_shown_as_output_witness :
  let b := Service.backend (sampleEnv (Some "key")) Service.noSessions in
  let st := setLastImage (Some "iVBORw0KGgo") (step initialState (InputChange "editimg add snow")) in
  errorLines (lines (step st (Submit b))) = errorLines (lines st).
Proof.
  intros b st.
  assert (He : enabled st) by (split; reflexivity).
  assert (Hn : normal st) by (split; reflexivity).
  assert (Ht : tokens (JS.trim (inputValue st)) = ["editimg"; "add"; "snow"])
    by reflexivity.
  assert (Hl : lastImage st = Some "iVBORw0KGgo") by reflexivity.
  destruct (editimg_failure_shown_as_output (sampleEnv (Some "key")) Service.noSessions
              st "editimg" ["add"; "snow"] "iVBORw0KGgo" He Hn Ht eq_refl
              ltac:(discriminate) Hl ltac:(discriminate)) as [added [_ [_ [_ E]]]].
  exact E.
Defined.

(** ** The sources of a search *)

(** The lines of a search, for any stream of events. *)
Lemma handleSearch_lines (b : Backend) (prompt : string) (st : State) :
  exists content,
    lines (snd (handleSearch b prompt st))
    = (lines st ++ line OUTPUT content
       :: map sourcesLine (sourceLists (yielded (searchWithGoogleStream b prompt))))%list.
Proof. rewrite handleSearch_spec. eexists. reflexivity. Qed.

Lemma webSources_complete (groundingChunks : list (option Service.Web.t)) :
  Forall (fun source => uri source <> "" /\ title source <> "")
    (Service.webSources groundingChunks).
Proof.
  unfold Service.webSources.
  induction groundingChunks as [|[[u t]|] l IH]; simpl; [constructor | | exact IH].
  destruct (JS.truthyOpt u) eqn:U; [|exact IH].
  destruct (JS.truthyOpt t) eqn:T; [|exact IH].
  cbn [andb app]. constructor; [|exact IH].
  destruct u as [u|]; [|discriminate U]. destruct t as [t|]; [|discriminate T].
  cbn. split; now apply truthy_named.
Qed.

Lemma searchEvents_complete (chunks : list Service.Chunk.t) :
  Forall completeSources
    (sourceLists (map Service.consumedEvent (flat_map Service.searchEvents chunks))).
Proof.
  induction chunks as [|[text gcs] chunks IH]; simpl; [constructor|].
  destruct gcs as [gcs|]; [|exact IH].
  destruct (Service.webSources gcs) as [|source sources] eqn:W; [exact IH|].
  cbn. constructor; [|exact IH].
  split; [discriminate | rewrite <- W; apply webSources_complete].
Qed.

(** X28. Only complete sources are listed.  Every Sources event of the
    search stream of the service holds at least one source, and each
    source has a link and a title; the Sources lines a search appends are
    those of these events, in order, after its one Output line. *)
Theorem search_lists_complete_sources (env : Service.Env) (s : Service.Sessions)
  (prompt : string) (st : State) :
  let b := Service.backend env s in
  let lists := sourceLists (yielded (searchWithGoogleStream b prompt)) in
  Forall completeSources lists
  /\ exists content,
       lines (snd (handleSearch b prompt st))
       = (lines st ++ line OUTPUT content :: map sourcesLine lists)%list.
Proof.
  intros b lists. split; [|apply handleSearch_lines].
  unfold lists, b, Service.backend. cbn [searchWithGoogleStream].
  unfold Service.searchWithGoogleStream.
  destruct (negb (JS.truthyOpt (Service.API_KEY env))); [constructor|].
  unfold Service.consumedEvents, Service.tryYield. cbn [yielded].
  rewrite map_app, sourceLists_app.
  apply Forall_app. split; [apply searchEvents_complete|].
  destruct (failure _); constructor.
Qed.

(** ** Sessions are asked for before they are used *)

Lemma sessionsAsked_mono (st st' : State) :
  modes st' = modes st -> grows calls st st' -> sessionsAsked st -> sessionsAsked st'.
Proof.
  unfold modes, sessionsAsked. intros M [added C] [H1 H2]. injection M as M1 M2.
  rewrite C. split.
  - rewrite M1. intros H. apply in_or_app. left. now apply H1.
  - rewrite M2. intros H. destruct (H2 H) as [content Hc]. exists content.
    apply in_or_app. now left.
Qed.

Lemma sessionsAsked_left (st st' : State) :
  isChatMode st' = false \/ isChatMode st' = isChatMode st ->
  isChatDocMode st' = false \/ isChatDocMode st' = isChatDocMode st ->
  grows calls st st' -> sessionsAsked st -> sessionsAsked st'.
Proof.
  unfold sessionsAsked. intros M1 M2 [added C] [H1 H2]. rewrite C. split.
  - intros H. apply in_or_app. left. apply H1.
    destruct M1 as [M1|M1]; [rewrite M1 in H; discriminate H | now rewrite <- M1].
  - intros H. destruct H2 as [content Hc].
    { destruct M2 as [M2|M2]; [rewrite M2 in H; discriminate H | now rewrite <- M2]. }
    exists content. apply in_or_app. now left.
Qed.

Lemma dispatch_sessionsAsked (snap : State) (b : Backend) (command : string)
  (args : list string) (st : State) :
  sessionsAsked st -> sessionsAsked (snd (dispatch snap b command args st)).
Proof.
  intros H.
  destruct (switchOn (JS.toLowerCase command)) eqn:E;
    try (apply (sessionsAsked_mono st);
         [ apply dispatch_keeps_modes; rewrite E; discriminate
         | apply dispatch_grows_calls
         | exact H ]).
  - unfold dispatch. rewrite E. destruct (isChatDocMode snap); [exact H|].
    destruct H as [H1 H2]. split.
    + intros _. apply in_or_app. right. now left.
    + intros M. destruct (H2 M) as [content Hc]. exists content.
      apply in_or_app. now left.
  - unfold dispatch. rewrite E. destruct (isChatMode snap); [exact H|].
    destruct (negb (JS.truthyOpt (activeDoc snap))); [exact H|].
    destruct (Nat.ltb 0 (List.length args)); [exact H|].
    destruct H as [H1 H2]. split.
    + intros M. apply in_or_app. left. now apply H1.
    + intros _. eexists. apply in_or_app. right. left. reflexivity.
Qed.

Lemma step_sessionsAsked (st : State) (e : Event) :
  sessionsAsked st -> sessionsAsked (step st e).
Proof.
  intros H.
  assert (O : modes (step st e) = modes st -> sessionsAsked (step st e)).
  { intros M. apply (sessionsAsked_mono st); [exact M | apply step_grows_calls | exact H]. }
  assert (Hkeep : forall m : Async unit, keeps modes m -> modes (snd (m st)) = modes st).
  { intros m K. apply K. }
  destruct e; try (apply O; reflexivity).
  - unfold step, handler.
    pose (proj := fun s : State => (isChatMode s, isChatDocMode s, calls s)).
    pose (P := fun x : bool * bool * list Call =>
                 (fst (fst x) = true -> In CallStartChat (snd x))
                 /\ (snd (fst x) = true ->
                     exists content, In (CallStartChatDoc content) (snd x))).
    assert (Same : forall s s', proj s' = proj s -> sessionsAsked s -> sessionsAsked s').
    { intros s s' E A. injection E as M1 M2 C. destruct A as [A1 A2].
      split; rewrite C; [now rewrite M1 | now rewrite M2]. }
    change (P (proj (snd (handleSubmit st b st)))).
    apply (handleSubmit_elim proj P); try (intro; intros; reflexivity).
    + exact H.
    + intros st1 E1. pose proof (Same st st1 E1 H) as A.
      change (sessionsAsked (snd (handleChat b (JS.trim (inputValue st)) st1))).
      unfold handleChat. destruct (JS.toLowerCase _ =? "exit").
      * apply (sessionsAsked_left st1);
          [now left | now right | apply grows_same; reflexivity | exact A].
      * rewrite streamResponse_spec.
        apply (sessionsAsked_mono st1); [reflexivity | eexists; reflexivity | exact A].
    + intros st1 E1. pose proof (Same st st1 E1 H) as A.
      change (sessionsAsked
                (snd (handleChatDocConversation b (JS.trim (inputValue st)) st1))).
      unfold handleChatDocConversation. destruct (JS.toLowerCase _ =? "exit").
      * apply (sessionsAsked_left st1);
          [now right | now left | apply grows_same; reflexivity | exact A].
      * rewrite streamResponse_spec.
        apply (sessionsAsked_mono st1); [reflexivity | eexists; reflexivity | exact A].
    + intros st1 E1 _ _.
      match goal with |- P (proj (snd (processCommand st b ?c ?s))) =>
        change (sessionsAsked (snd (processCommand st b c s)));
        assert (A : sessionsAsked s) by (apply (Same st); [exact E1 | exact H])
      end.
      unfold processCommand. destruct (tokens _) as [|command args]; [exact A|].
      match goal with |- sessionsAsked (snd (bind ?m ?k ?s)) =>
        pose proof (dispatch_sessionsAsked st b command args s A) as D;
        unfold bind; destruct (m s) as [[[outputLines|]|e|] s']
      end; exact D.
  - apply O. unfold step. simpl handler. apply Hkeep. unfold handleInputChange. keeps_tac.
  - apply O. unfold step. simpl handler. apply Hkeep. unfold handleKeyDown. keeps_tac.
  - apply O. unfold step. simpl handler. apply Hkeep. unfold handleFileChange. keeps_tac.
  - apply O. unfold step. simpl handler. apply Hkeep. unfold handleToggleListening. keeps_tac.
Qed.

Lemma run_sessionsAsked (events : list Event) :
  forall st, sessionsAsked st -> sessionsAsked (run events st).
Proof.
  induction events as [|e events IH]; intros st H; simpl; [exact H|].
  apply IH. now apply step_sessionsAsked.
Qed.

Lemma sessions_snoc (env : Service.Env) (log : list Call) (c : Call) :
  Service.sessions env (log ++ [c])%list = Service.onCall env (Service.sessions env log) c.
Proof. unfold Service.sessions. now rewrite fold_left_app. Qed.

Lemma chatSession_started (env : Service.Env) (log : list Call) :
  JS.truthyOpt (Service.API_KEY env) = true ->
  In CallStartChat log ->
  Service.chatSession (Service.sessions env log)
  = Some (Service.mkChat "gemini-2.5-flash" (Some Service.CHAT_SYSTEM_INSTRUCTION) None).
Proof.
  intros K. induction log as [|c log IH] using rev_ind; [contradiction|].
  intros H. rewrite sessions_snoc. apply in_app_or in H.
  unfold Service.onCall, Service.startChat, Service.startChatDoc. rewrite K. cbn [negb].
  destruct H as [H|[->|[]]]; [|reflexivity].
  destruct c; try (now apply IH); reflexivity.
Qed.

Lemma chatDocSession_started (env : Service.Env) (log : list Call) :
  JS.truthyOpt (Service.API_KEY env) = true ->
  (exists content, In (CallStartChatDoc content) log) ->
  exists content,
    In (CallStartChatDoc content) log
    /\ Service.chatDocSession (Service.sessions env log)
       = Some (Service.mkChat "gemini-2.5-flash" None (Some content)).
Proof.
  intros K. induction log as [|c log IH] using rev_ind; [intros [? []]|].
  intros [content H]. rewrite sessions_snoc. apply in_app_or in H.
  unfold Service.onCall, Service.startChat, Service.startChatDoc. rewrite K. cbn [negb].
  assert (Old : (exists content, In (CallStartChatDoc content) log) ->
                exists content0,
                  In (CallStartChatDoc content0) (log ++ [c])%list
                  /\ Service.chatDocSession (Service.sessions env log)
                     = Some (Service.mkChat "gemini-2.5-flash" None (Some content0))).
  { intros E. destruct (IH E) as [c0 [I0 S0]]. exists c0. split; [|exact S0].
    apply in_or_app. now left. }
  destruct c; try (destruct H as [H|[H|[]]]; [|discriminate H]; apply Old; now exists content).
  exists documentContent. split; [apply in_or_app; right; now left | reflexivity].
Qed.

(** X29. A session exists whenever a message is sent.  In every session
    of the component from the initial state, chat mode is on only after
    [startChat] was called and document chat mode only after
    [startChatDoc] was; so, with a key, the service holds a session for
    the mode the component is in, the document session being primed with
    a content passed by a [startChatDoc] call of this session. *)
Theorem session_exists_when_message_sent (env : Service.Env) (events : list Event) :
  JS.truthyOpt (Service.API_KEY env) = true ->
  let st := run events initialState in
  let s := Service.sessions env (calls st) in
  (isChatMode st = true ->
   Service.chatSession s
   = Some (Service.mkChat "gemini-2.5-flash" (Some Service.CHAT_SYSTEM_INSTRUCTION) None))
  /\ (isChatDocMode st = true ->
      exists content,
        In (CallStartChatDoc content) (calls st)
        /\ Service.chatDocSession s
           = Some (Service.mkChat "gemini-2.5-flash" None (Some content))).
Proof.
  intros K st s.
  assert (I : sessionsAsked initialState) by (split; discriminate).
  destruct (run_sessionsAsked events initialState I) as [H1 H2]. fold st in H1, H2.
  split.
  - intros M. apply chatSession_started; [exact K | exact (H1 M)].
  - intros M. apply chatDocSession_started; [exact K | exact (H2 M)].
Qed.

Lemma session_exists_when_message_sent_witness :
  Service.chatDocSession (Service.sessions (sampleEnv (Some "key")) (calls docChatSession))
  <> None.
Proof.
  destruct (session_exists_when_message_sent (sampleEnv (Some "key"))
              (FileChange (Some notesFile) :: submit "chatdoc" sampleBackend) eq_refl)
    as [_ H].
  destruct (H eq_refl) as [content [_ E]].
  unfold docChatSession. rewrite E. discriminate.
Defined.

(** * The media lines of the buffer *)

Lemma ensures_ret {A : Type} (Q : A -> Prop) (a : A) : Q a -> ensures Q (ret a).
Proof. intros H st F. split; [exact F|]. intros a' E. injection E as <-. exact H. Qed.

Lemma ensures_throw {A : Type} (Q : A -> Prop) (e : Exn) : ensures Q (throw e).
Proof. intros st F. split; [exact F | discriminate]. Qed.

Lemma ensures_pending {A : Type} (Q : A -> Prop) : ensures Q pending.
Proof. intros st F. split; [exact F | discriminate]. Qed.

Lemma ensures_act (Q : unit -> Prop) (f : State -> State) :
  (forall st, Forall mediaOk (lines st) -> Forall mediaOk (lines (f st))) ->
  Q tt -> ensures Q (act f).
Proof. intros H q st F. split; [now apply H|]. now intros []. Qed.

Lemma ensures_bind {A B : Type} (Q1 : A -> Prop) (Q : B -> Prop) (m : Async A)
  (k : A -> Async B) :
  ensures Q1 m -> (forall a, Q1 a -> ensures Q (k a)) -> ensures Q (bind m k).
Proof.
  intros Hm Hk st F. unfold bind. destruct (Hm st F) as [F1 R1].
  destruct (m st) as [[a|e|] st']; cbn [fst snd] in *.
  - apply (Hk a); [now apply R1 | exact F1].
  - split; [exact F1 | discriminate].
  - split; [exact F1 | discriminate].
Qed.

Lemma ensures_tryCatch {A : Type} (Q : A -> Prop) (body : Async A)
  (handler : Exn -> Async A) :
  ensures Q body -> (forall e, ensures Q (handler e)) -> ensures Q (tryCatch body handler).
Proof.
  intros Hb Hh st F. unfold tryCatch. destruct (Hb st F) as [F1 R1].
  destruct (body st) as [[a|e|] st']; cbn [fst snd] in *.
  - split; [exact F1 | exact R1].
  - now apply Hh.
  - split; [exact F1 | discriminate].
Qed.

Lemma ensures_tryFinally {A : Type} (Q : A -> Prop) (body : Async A) (fin : Async unit) :
  ensures Q body -> ensures (fun _ => True) fin -> ensures Q (tryFinally body fin).
Proof.
  intros Hb Hf st F. unfold tryFinally. destruct (Hb st F) as [F1 R1].
  destruct (body st) as [[a|e|] st']; cbn [fst snd] in *.
  - destruct (Hf st' F1) as [F2 _]. destruct (fin st') as [[[]|e'|] st''];
      cbn [fst snd] in *; (split; [exact F2|]); try discriminate.
    intros a' E. apply R1. exact E.
  - destruct (Hf st' F1) as [F2 _]. destruct (fin st') as [[[]|e'|] st''];
      cbn [fst snd] in *; (split; [exact F2 | discriminate]).
  - split; [exact F1 | discriminate].
Qed.

Lemma mediaOk_other (l : Line) : type l <> IMAGE -> type l <> VIDEO -> mediaOk l.
Proof. intros H1 H2 [T|T]; contradiction. Qed.

Lemma mediaOk_media (t : LineType) (data prompt : string) :
  prompt <> "" -> mediaOk (line t (Arr [data; prompt])).
Proof. intros H _. now exists data, prompt. Qed.

Lemma ensures_streamResponse (Q : unit -> Prop) (call : Call) (stream : Stream string) :
  Q tt -> ensures Q (streamResponse call stream).
Proof.
  intros q st F. rewrite streamResponse_spec. cbn. split; [|now intros []].
  apply Forall_app. split; [exact F|]. repeat constructor.
  apply mediaOk_other; discriminate.
Qed.

Lemma ensures_handleSearch (Q : unit -> Prop) (b : Backend) (prompt : string) :
  Q tt -> ensures Q (handleSearch b prompt).
Proof.
  intros q st F. split; [|now intros []].
  destruct (handleSearch_lines b prompt st) as [content ->].
  apply Forall_app. split; [exact F|].
  constructor; [apply mediaOk_other; discriminate|].
  apply Forall_forall. intros l H. apply in_map_iff in H as [srcs [<- _]].
  apply mediaOk_other; discriminate.
Qed.

Lemma ensures_pollLoop (answers : list PollOutcome) :
  forall operation pollCount, ensures (fun _ => True) (pollLoop answers operation pollCount).
Proof.
  intros operation pollCount st F. split; [|trivial].
  destruct (pollLoop_progress answers operation pollCount st) as [L _].
  cbv zeta in L. rewrite L. apply Forall_app. split; [exact F|].
  unfold progressLines. apply Forall_forall. intros l H.
  apply in_map_iff in H as [i [<- _]]. apply mediaOk_other; discriminate.
Qed.

Lemma prompt_named (prompt : string) : negb (JS.truthy prompt) = false -> prompt <> "".
Proof. intros H. apply truthy_named. now apply negb_false_iff in H. Qed.

(** Goals about the lines a handler writes. *)
Ltac media_line :=
  first [ apply mediaOk_other; discriminate
        | apply mediaOk_media;
          match goal with H : negb (JS.truthy ?p) = false |- ?p <> _ =>
            exact (prompt_named p H)
          end ].

Ltac media_list :=
  repeat match goal with
         | |- context [if ?c then _ else _] => destruct c
         end;
  cbn [app]; repeat (constructor; [media_line|]); try constructor.

Ltac media_act :=
  let st := fresh "st" in
  let F := fresh "F" in
  intros st F;
  unfold push;
  cbn [lines setLines setCommandHistory setHistoryIndex setInputValue setSuggestions
       setIsLoading setIsChatMode setIsChatDocMode setIsListening setDocuments
       setActiveDoc setLastImage logCall];
  first [ exact F
        | apply Forall_nil
        | apply Forall_app; split; [exact F | media_list] ].

Ltac media_out :=
  first [ exact I
        | cbn [breakOk]; media_list ].

Ltac media_step :=
  match goal with
  | |- ensures _ (ret _) => apply ensures_ret; media_out
  | |- ensures _ (throw _) => apply ensures_throw
  | |- ensures _ pending => apply ensures_pending
  | |- ensures _ (act _) => apply ensures_act; [media_act | exact I]
  | |- ensures _ (bind (pollLoop _ _ _) _) =>
      apply (ensures_bind (fun _ => True)); [apply ensures_pollLoop | intros ? _]
  | |- ensures _ (bind _ _) => apply (ensures_bind (fun _ => True)); [ | intros ? _]
  | |- ensures _ (tryCatch _ _) => apply ensures_tryCatch; [ | intro]
  | |- ensures _ (tryFinally _ _) => apply ensures_tryFinally
  | |- ensures _ (streamResponse _ _) => apply ensures_streamResponse; exact I
  | |- ensures _ (handleSearch _ _) => apply ensures_handleSearch; exact I
  | |- ensures _ (if ?c then _ else _) => destruct c eqn:?
  | |- ensures _ (match ?x with _ => _ end) => destruct x eqn:?
  end.

Ltac media_tac := repeat media_step.

Lemma dispatch_media (snap : State) (b : Backend) (command : string) (args : list string) :
  ensures breakOk (dispatch snap b command args).
Proof.
  unfold dispatch.
  destruct (switchOn (JS.toLowerCase command));
    unfold handleAsk, videoCommand, docsCommand; cbv zeta; try solve [media_tac].
  destruct (negb (JS.truthy (JS.join " " args))) eqn:?; [media_tac|].
  do 2 (apply (ensures_bind (fun _ => True)); [media_tac | intros ? _]).
  apply (ensures_bind (Forall mediaOk)); [media_tac | intros explanationLines E].
  apply (ensures_bind (fun _ => True)); [media_tac | intros ? _].
  apply ensures_ret. cbn [breakOk]. apply Forall_app. split; [exact E|].
  media_list.
Qed.

Lemma processCommand_media (snap : State) (b : Backend) (commandStr : string) :
  ensures (fun _ => True) (processCommand snap b commandStr).
Proof.
  unfold processCommand. destruct (tokens commandStr) as [|command args]; [media_tac|].
  apply (ensures_bind breakOk); [apply dispatch_media|].
  intros [outputLines|] Hq; [|media_tac].
  apply ensures_act; [|exact I]. intros st F. cbn. apply Forall_app. now split.
Qed.

Lemma handleSubmit_media (snap : State) (b : Backend) :
  ensures (fun _ => True) (handleSubmit snap b).
Proof.
  unfold handleSubmit, handleChat, handleChatDocConversation.
  repeat first [ apply processCommand_media | media_step ].
Qed.

Lemma step_media (st : State) (e : Event) :
  Forall mediaOk (lines st) -> Forall mediaOk (lines (step st e)).
Proof.
  intros F.
  assert (A : forall m : Async unit, ensures (fun _ => True) m ->
            Forall mediaOk (lines (snd (m st)))).
  { intros m E. now apply E. }
  unfold step. apply A. destruct e; simpl handler.
  - apply handleSubmit_media.
  - unfold handleInputChange. media_tac.
  - unfold handleKeyDown. media_tac.
  - unfold handleFileChange. media_tac.
  - unfold handleToggleListening. media_tac.
  - media_tac.
  - media_tac.
  - unfold recognitionOnError. media_tac.
  - media_tac.
Qed.

Lemma run_media (events : list Event) :
  forall st, Forall mediaOk (lines st) -> Forall mediaOk (lines (run events st)).
Proof.
  induction events as [|e events IH]; intros st F; simpl; [exact F|].
  apply IH. now apply step_media.
Qed.

Lemma welcome_media : Forall mediaOk (lines initialState).
Proof.
  assert (S : Forall (fun l => type l = SYSTEM) (lines initialState))
    by (vm_compute; repeat constructor).
  apply (Forall_impl _ (P := fun l => type l = SYSTEM)); [|exact S].
  intros l T. apply mediaOk_other; rewrite T; discriminate.
Qed.

(** ** The download names *)

Lemma length_substring (n : nat) (s : string) :
  String.length (substring 0 n s) = Nat.min n (String.length s).
Proof.
  revert s. induction n as [|n IH]; intros [|c s]; simpl; try reflexivity.
  now rewrite IH.
Qed.

Lemma length_replaceWhiteSpace (s : string) :
  String.length (replaceWhiteSpace s) = String.length s.
Proof. induction s as [|c s IH]; simpl; [reflexivity | now rewrite IH]. Qed.

Lemma length_append (a b : string) :
  String.length (a ++ b) = String.length a + String.length b.
Proof. induction a as [|c a IH]; simpl; [reflexivity | now rewrite IH]. Qed.

Lemma noWhiteSpace_append (a b : string) :
  noWhiteSpace a -> noWhiteSpace b -> noWhiteSpace (a ++ b).
Proof.
  unfold noWhiteSpace. induction a as [|c a IH]; simpl; intros Ha Hb; [exact Hb|].
  inversion Ha; subst. constructor; [assumption | now apply IH].
Qed.

Lemma noWhiteSpace_replace (s : string) : noWhiteSpace (replaceWhiteSpace s).
Proof.
  unfold noWhiteSpace. induction s as [|c s IH]; simpl; constructor; [|exact IH].
  destruct (JS.isWhiteSpace c) eqn:W; [reflexivity | exact W].
Qed.

Lemma filename_spec (prompt extension : string) :
  prompt <> "" -> noWhiteSpace extension ->
  exists name,
    filename (Some prompt) extension = Some name
    /\ noWhiteSpace name
    /\ String.length extension < String.length name <= 30 + String.length extension.
Proof.
  intros Hp He. eexists. split; [reflexivity|]. split.
  - apply noWhiteSpace_append; [apply noWhiteSpace_replace | exact He].
  - rewrite length_append, length_replaceWhiteSpace, length_substring.
    destruct prompt as [|c prompt]; [now elim Hp|]. simpl String.length. lia.
Qed.

(** X30. Every media line can be rendered.  In every session from the
    initial state, a line of type Image or Video holds an array of its
    data and a prompt that is not empty.  So the download name of its
    component is defined: the first thirty characters of the prompt with
    each white space replaced by an underscore, then the extension; it
    has no white space and between one and thirty characters before the
    extension. *)
Theorem media_lines_can_be_rendered (events : list Event) (l : Line) :
  In l (lines (run events initialState)) ->
  (type l = IMAGE ->
   exists name, ImageOutput_filename l = Some name
                /\ noWhiteSpace name /\ 4 < String.length name <= 34)
  /\ (type l = VIDEO ->
      exists name, VideoOutput_filename l = Some name
                   /\ noWhiteSpace name /\ 4 < String.length name <= 34).
Proof.
  intros H.
  pose proof (run_media events initialState welcome_media) as F.
  rewrite Forall_forall in F. specialize (F l H).
  assert (E : forall extension, noWhiteSpace extension -> String.length extension = 4 ->
              type l = IMAGE \/ type l = VIDEO ->
              exists name, filename (arrayItem (text l) 1) extension = Some name
                           /\ noWhiteSpace name /\ 4 < String.length name <= 34).
  { intros extension N L T. destruct (F T) as [data [prompt [-> Hp]]].
    destruct (filename_spec prompt extension Hp N) as [name [E1 [E2 E3]]].
    exists name. split; [exact E1|]. split; [exact E2 | lia]. }
  split; intros T.
  - apply E; [repeat constructor | reflexivity | now left].
  - apply E; [repeat constructor | reflexivity | now right].
Qed.

Lemma media_lines_can_be_rendered_witness :
  let shown := line IMAGE (Arr ["iVBORw0KGgo"; "a red fox"]) in
  In shown (lines (run (submit "image a red fox" sampleBackend) initialState))
  /\ exists name, ImageOutput_filename shown = Some name /\ noWhiteSpace name
                  /\ 4 < String.length name <= 34.
Proof.
  intro shown.
  assert (H : In shown (lines (run (submit "image a red fox" sampleBackend) initialState))).
  { vm_compute. repeat (first [left; reflexivity | right]). }
  split; [exact H|].
  exact (proj1 (media_lines_can_be_rendered (submit "image a red fox" sampleBackend)
                  shown H) eq_refl).
Defined.
